(** * openai-agents-go: the Runner loop, handoffs, guardrails and sessions

    A shallow embedding of package agents (the Runner with its guardrail
    runners, tools, agents, run configuration, errors and result types), of
    package guardrail's types and builtin guardrails and of package session
    (the Session interface and errors, the volatile and the durable
    backend), followed by the properties of the execution loop, of the two
    session backends and of the builtin guardrails.

    Conventions of the embedding.
    - Go's [int] and [int64] are [Z] with the 64-bit two's-complement
      wrap-around written out ([wrap_int]).
    - Go strings are byte strings: [string], with [String.length] for [len]
      and [substring 0 n] for [s[:n]].
    - A pointer to an Agent is an address into a heap of agents
      ([AgentPtr]); the heap is a total function, as every non-nil Go pointer
      is valid.  A value of type [any] is [any]; [AnyAgent None] is the typed
      nil agent pointer.
    - A Go [error] is a value of the closed type [error] below, one
      constructor per concrete error type that reaches the code; two error
      types of the same name in two packages are two constructors.
    - What the code obtains from outside the repository (the completion
      service, the clock, the order of [range] over a map, [encoding/json],
      [path/filepath], the file system, [regexp], [net/url],
      [strings.Fields]) is a field of [Env], of [Externals] or of [TextLibs],
      or the state [FS].
    - Run-time panics of the loop that depend on data received from outside
      (an empty [Choices], a typed nil agent returned by a tool, a guardrail
      returning [nil, nil]) are the outcome [Panicked]; nil receivers and nil
      slice elements supplied by the caller are excluded by the types.
    - The loop [for { ... }] has no bound of its own when [MaxTurns = 0]; the
      embedding takes fuel and returns [None] when it runs out. *)

From Stdlib Require Import ZArith Lia Ascii.
From stdpp Require Import gmap strings list pretty.

Local Open Scope string_scope.
Local Open Scope list_scope.

(* ===================================================================== *)
(** ** Machine integers *)
(* ===================================================================== *)

Definition int_bits : Z := 64.
Definition max_int : Z := (2 ^ (int_bits - 1) - 1)%Z.
Definition min_int : Z := (- 2 ^ (int_bits - 1))%Z.

(** Two's-complement wrap-around of a 64-bit signed integer. *)
Definition wrap_int (z : Z) : Z :=
  ((z - min_int) `mod` 2 ^ int_bits + min_int)%Z.

Definition in_int (z : Z) : Prop := (min_int ≤ z ≤ max_int)%Z.

(** An IEEE-754 double is carried around untouched; it is its bit pattern. *)
Definition float64 : Type := Z.

(* ===================================================================== *)
(** ** Values of type [any], messages, errors *)
(* ===================================================================== *)

Definition AgentPtr : Type := nat.

(** What a tool callback may return as its [any] result. *)
Inductive any : Type :=
| AnyNil                              (* untyped nil *)
| AnyString (s : string)
| AnyAgent (a : option AgentPtr)      (* an agent pointer; None is the typed nil *)
| AnyOther (rendering : string).      (* any other value, with its %v text *)

(** [fmt.Sprintf("%v", v)]. *)
Definition fmt_any (v : any) : string :=
  match v with
  | AnyNil => "<nil>"
  | AnyString s => s
  | AnyAgent None => "<nil>"
  | AnyAgent (Some _) => "&{...}"
  | AnyOther r => r
  end.

(** ContextVariables is [map[string]any]. *)
Definition ContextVariables : Type := gmap string any.

(** openai.ChatCompletionMessageToolCall *)
Record ToolCallRequest : Type := mkToolCallRequest {
  tc_ID : string;
  tc_Name : string;          (* Function.Name *)
  tc_Arguments : string      (* Function.Arguments *)
}.

(** openai.ChatCompletionMessage (the assistant's reply): its fields Content,
    Refusal and ToolCalls. *)
Record ChatCompletionMessage : Type := mkChatCompletionMessage {
  ccm_Content : string;
  ccm_Refusal : string;
  ccm_ToolCalls : list ToolCallRequest
}.

(** openai.ChatCompletionMessageParamUnion: an entry of the history. *)
Inductive Message : Type :=
| UserMessage (content : string)
| SystemMessage (content : string)
| AssistantMessage (m : ChatCompletionMessage)          (* message.ToParam() *)
| ToolMessage (content : string) (tool_call_id : string).

(** guardrail.Result: its fields Passed, TripwireTriggered, Message and
    Metadata. *)
Record guardrail_Result : Type := mkGuardrailResult {
  gr_Passed : bool;
  gr_TripwireTriggered : bool;
  gr_Message : string;
  gr_Metadata : list (string * any)
}.

Inductive Errno : Type := ENOENT | EACCES.

Inductive error : Type :=
(* errors.go *)
| ErrMaxTurnsExceeded
| ErrTimeout
| ErrNoMessages
| ToolExecutionError (ToolName : string) (Err : error)
(* package context *)
| context_Canceled
| context_DeadlineExceeded
(* runner.go: type NotFoundError of package agents *)
| agents_NotFoundError (SessionID : string)
(* session/session.go: types NotFoundError and StorageError of package session *)
| session_NotFoundError (SessionID : string)
| session_StorageError (SessionID Operation : string) (Err : error)
(* guardrail/guardrail.go *)
| InputGuardrailTripwireError (GuardrailName Msg : string) (Res : guardrail_Result)
| OutputGuardrailTripwireError (GuardrailName Msg : string) (Res : guardrail_Result)
(* fmt.Errorf(prefix + ": %w", err) and fmt.Errorf(text) *)
| fmt_Errorf_w (prefix : string) (wrapped : error)
| fmt_Errorf (text : string)
(* the PathError of package os *)
| os_PathError (Op Path : string) (Err : Errno)
(* any other error value, made by code outside the repository *)
| errors_New (text : string).

(** [os.IsNotExist]. *)
Definition os_IsNotExist (e : error) : bool :=
  match e with
  | os_PathError _ _ ENOENT => true
  | _ => false
  end.

(* ===================================================================== *)
(** ** The file system and the libraries the durable backend calls *)
(* ===================================================================== *)

(** The part of the file system the durable backend can observe: regular
    files by path, and for each path whether the process may read it and may
    create, replace or remove it (the parent directory exists and is
    writable). *)
Record FS : Type := mkFS {
  fs_files : gmap string string;
  fs_can_read : string → bool;
  fs_can_write : string → bool
}.

Definition fs_with_files (fs : FS) (files : gmap string string) : FS :=
  {| fs_files := files; fs_can_read := fs_can_read fs; fs_can_write := fs_can_write fs |}.

Definition os_ReadFile (fs : FS) (path : string) : string + error :=
  match fs_files fs !! path with
  | None => inr (os_PathError "open" path ENOENT)
  | Some data =>
      if fs_can_read fs path then inl data
      else inr (os_PathError "open" path EACCES)
  end.

Definition os_WriteFile (fs : FS) (path data : string) : FS * option error :=
  if fs_can_write fs path
  then (fs_with_files fs (<[path := data]> (fs_files fs)), None)
  else (fs, Some (os_PathError "open" path EACCES)).

Definition os_Rename (fs : FS) (oldpath newpath : string) : FS * option error :=
  match fs_files fs !! oldpath with
  | None => (fs, Some (os_PathError "rename" oldpath ENOENT))
  | Some data =>
      if fs_can_write fs newpath
      then (fs_with_files fs (<[newpath := data]> (delete oldpath (fs_files fs))), None)
      else (fs, Some (os_PathError "rename" newpath EACCES))
  end.

Definition os_Remove (fs : FS) (path : string) : FS * option error :=
  match fs_files fs !! path with
  | None => (fs, Some (os_PathError "remove" path ENOENT))
  | Some _ =>
      if fs_can_write fs path
      then (fs_with_files fs (delete path (fs_files fs)), None)
      else (fs, Some (os_PathError "remove" path EACCES))
  end.

Definition os_Stat (fs : FS) (path : string) : option error :=
  match fs_files fs !! path with
  | None => Some (os_PathError "stat" path ENOENT)
  | Some _ => None
  end.

(** [path/filepath] and [encoding/json], as the durable backend uses them. *)
Class Externals : Type := mkExternals {
  filepath_Join : string → string → string;
  json_MarshalIndent : list Message → string + error;
  json_Unmarshal : string → list Message + error
}.

(** What [encoding/json] promises of a message list it could serialize. *)
Definition json_roundtrip `{Externals} : Prop :=
  ∀ ms data, json_MarshalIndent ms = inl data → json_Unmarshal data = inl ms.

(* ===================================================================== *)
(** ** session/memory.go *)
(* ===================================================================== *)

Record MemorySession : Type := mkMemorySession {
  sessions : gmap string (list Message)
}.

Definition NewMemorySession : MemorySession := {| sessions := ∅ |}.

Definition MemorySession_Get (m : MemorySession) (sessionID : string)
  : list Message + error :=
  match sessions m !! sessionID with
  | None => inr (session_NotFoundError sessionID)
  | Some messages => inl messages
  end.

Definition MemorySession_Append (m : MemorySession) (sessionID : string)
    (messages : list Message) : MemorySession * option error :=
  let s1 := match sessions m !! sessionID with
            | None => <[sessionID := []]> (sessions m)
            | Some _ => sessions m
            end in
  ({| sessions := <[sessionID := default [] (s1 !! sessionID) ++ messages]> s1 |}, None).

Definition MemorySession_Clear (m : MemorySession) (sessionID : string)
  : MemorySession * option error :=
  match sessions m !! sessionID with
  | None => (m, Some (session_NotFoundError sessionID))
  | Some _ => ({| sessions := <[sessionID := []]> (sessions m) |}, None)
  end.

Definition MemorySession_Delete (m : MemorySession) (sessionID : string)
  : MemorySession * option error :=
  match sessions m !! sessionID with
  | None => (m, Some (session_NotFoundError sessionID))
  | Some _ => ({| sessions := delete sessionID (sessions m) |}, None)
  end.

(* ===================================================================== *)
(** ** session/file.go *)
(* ===================================================================== *)

Record FileSession : Type := mkFileSession { basePath : string }.

Section FileSession.
Context `{Externals}.

Definition sessionPath (f : FileSession) (sessionID : string) : string :=
  filepath_Join (basePath f) (sessionID +:+ ".json").

Definition writeAtomic (f : FileSession) (fs : FS) (sessionID : string)
    (messages : list Message) : FS * option error :=
  match json_MarshalIndent messages with
  | inr err => (fs, Some (session_StorageError sessionID "marshal" err))
  | inl data =>
      let tempPath := sessionPath f sessionID +:+ ".tmp" in
      match os_WriteFile fs tempPath data with
      | (fs1, Some err) => (fs1, Some (session_StorageError sessionID "write" err))
      | (fs1, None) =>
          let finalPath := sessionPath f sessionID in
          match os_Rename fs1 tempPath finalPath with
          | (fs2, Some err) =>
              (fst (os_Remove fs2 tempPath),
               Some (session_StorageError sessionID "rename" err))
          | (fs2, None) => (fs2, None)
          end
      end
  end.

Definition FileSession_Get (f : FileSession) (fs : FS) (sessionID : string)
  : list Message + error :=
  let path := sessionPath f sessionID in
  match os_ReadFile fs path with
  | inr err =>
      if os_IsNotExist err then inr (session_NotFoundError sessionID)
      else inr (session_StorageError sessionID "read" err)
  | inl data =>
      match json_Unmarshal data with
      | inr err => inr (session_StorageError sessionID "unmarshal" err)
      | inl messages => inl messages
      end
  end.

Definition FileSession_Append (f : FileSession) (fs : FS) (sessionID : string)
    (messages : list Message) : FS * option error :=
  let path := sessionPath f sessionID in
  let loaded : list Message + error :=
    match os_ReadFile fs path with
    | inl data =>
        match json_Unmarshal data with
        | inr err => inr (session_StorageError sessionID "unmarshal" err)
        | inl existing => inl existing
        end
    | inr err =>
        if os_IsNotExist err then inl []
        else inr (session_StorageError sessionID "read" err)
    end in
  match loaded with
  | inr err => (fs, Some err)
  | inl existing => writeAtomic f fs sessionID (existing ++ messages)
  end.

Definition FileSession_Clear (f : FileSession) (fs : FS) (sessionID : string)
  : FS * option error :=
  let path := sessionPath f sessionID in
  match os_Stat fs path with
  | Some err =>
      if os_IsNotExist err then (fs, Some (session_NotFoundError sessionID))
      else writeAtomic f fs sessionID []
  | None => writeAtomic f fs sessionID []
  end.

Definition FileSession_Delete (f : FileSession) (fs : FS) (sessionID : string)
  : FS * option error :=
  let path := sessionPath f sessionID in
  let proceed :=
    match os_Remove fs path with
    | (fs1, Some err) => (fs1, Some (session_StorageError sessionID "delete" err))
    | (fs1, None) => (fs1, None)
    end in
  match os_Stat fs path with
  | Some err =>
      if os_IsNotExist err then (fs, Some (session_NotFoundError sessionID))
      else proceed
  | None => proceed
  end.
End FileSession.

(* ===================================================================== *)
(** ** Error texts: the [Error()] methods *)
(* ===================================================================== *)

Definition Errno_text (e : Errno) : string :=
  match e with
  | ENOENT => "no such file or directory"
  | EACCES => "permission denied"
  end.

Fixpoint error_Error (e : error) : string :=
  match e with
  | ErrMaxTurnsExceeded => "max turns exceeded"
  | ErrTimeout => "agent execution timeout"
  | ErrNoMessages => "no messages provided"
  | ToolExecutionError n err => "tool " +:+ n +:+ " failed: " +:+ error_Error err
  | context_Canceled => "context canceled"
  | context_DeadlineExceeded => "context deadline exceeded"
  | agents_NotFoundError sid => "session '" +:+ sid +:+ "' not found"
  | session_NotFoundError sid => "session '" +:+ sid +:+ "' not found"
  | session_StorageError sid op err =>
      "session '" +:+ sid +:+ "' " +:+ op +:+ " failed: " +:+ error_Error err
  | InputGuardrailTripwireError n m _ =>
      if String.eqb m "" then "input guardrail '" +:+ n +:+ "' triggered"
      else "input guardrail '" +:+ n +:+ "' triggered: " +:+ m
  | OutputGuardrailTripwireError n m _ =>
      if String.eqb m "" then "output guardrail '" +:+ n +:+ "' triggered"
      else "output guardrail '" +:+ n +:+ "' triggered: " +:+ m
  | fmt_Errorf_w prefix err => prefix +:+ ": " +:+ error_Error err
  | fmt_Errorf text => text
  | os_PathError op path errno => op +:+ " " +:+ path +:+ ": " +:+ Errno_text errno
  | errors_New text => text
  end.

(** errors.go: NewToolExecutionError *)
Definition NewToolExecutionError (toolName : string) (err : error) : error :=
  ToolExecutionError toolName err.

(** [fmt.Sprintf("%v", xs)] for a slice of strings. *)
Definition fmt_strings (xs : list string) : string :=
  "[" +:+ String.concat " " xs +:+ "]".

(* ===================================================================== *)
(** ** package context, with logical time *)
(* ===================================================================== *)

(** Who set the deadline a context carries. *)
Inductive DeadlineOrigin : Type := FromCaller | FromConfig.

(** A context is described by the instant its deadline passes, if it has
    one, and the instant the caller cancels it, if the caller ever does. *)
Record Context : Type := mkContext {
  ctx_deadline : option (Z * DeadlineOrigin);
  ctx_canceled_at : option Z
}.

Definition context_Background : Context :=
  {| ctx_deadline := None; ctx_canceled_at := None |}.

(** [ctx.Err()] read at the instant [now]: the first of the two events that
    has happened decides. *)
Definition ctx_Err (ctx : Context) (now : Z) : option error :=
  match ctx_canceled_at ctx, ctx_deadline ctx with
  | None, None => None
  | Some c, None => if (c <=? now)%Z then Some context_Canceled else None
  | None, Some (d, _) => if (d <=? now)%Z then Some context_DeadlineExceeded else None
  | Some c, Some (d, _) =>
      if (c <=? now)%Z && (c <? d)%Z then Some context_Canceled
      else if (d <=? now)%Z then Some context_DeadlineExceeded
      else None
  end.

(** [context.WithTimeout(parent, timeout)] called at the instant [now]: a
    parent deadline that comes earlier stays in force. *)
Definition context_WithTimeout (parent : Context) (now timeout : Z) : Context :=
  let d := (now + timeout)%Z in
  match ctx_deadline parent with
  | Some (cur, _) =>
      if (cur <? d)%Z then parent
      else {| ctx_deadline := Some (d, FromConfig);
              ctx_canceled_at := ctx_canceled_at parent |}
  | None => {| ctx_deadline := Some (d, FromConfig);
               ctx_canceled_at := ctx_canceled_at parent |}
  end.

(** The context reads as expired at [now] because the deadline derived from
    [config.Timeout] has passed. *)
Definition expired_by_config_timeout (ctx : Context) (now : Z) : bool :=
  match ctx_Err ctx now, ctx_deadline ctx with
  | Some context_DeadlineExceeded, Some (_, FromConfig) => true
  | _, _ => false
  end.

(* ===================================================================== *)
(** ** config.go, tool.go, agent.go, types.go *)
(* ===================================================================== *)

(** jsonschema.Schema, as far as the Runner looks at it: what
    [json.Marshal] makes of it. *)
Record Schema : Type := mkSchema { Schema_json : string + error }.

Record JSONSchemaFormat : Type := mkJSONSchemaFormat {
  JSONSchemaFormat_Name : string;
  JSONSchemaFormat_Description : string;
  JSONSchemaFormat_Schema : Schema;
  JSONSchemaFormat_Strict : bool
}.

Record ResponseFormat : Type := mkResponseFormat {
  ResponseFormat_Type : string;
  ResponseFormat_JSONSchema : option JSONSchemaFormat
}.

Record RunConfig : Type := mkRunConfig {
  RunConfig_MaxTurns : Z;
  RunConfig_Temperature : option float64;
  RunConfig_MaxTokens : option Z;
  RunConfig_ParallelToolCalls : option bool;
  RunConfig_Debug : bool;
  RunConfig_Timeout : Z;                      (* time.Duration, nanoseconds *)
  RunConfig_ResponseFormat : option ResponseFormat
}.

Definition time_Minute : Z := 60000000000.

Definition DefaultRunConfig : RunConfig :=
  {| RunConfig_MaxTurns := 10;
     RunConfig_Temperature := None;
     RunConfig_MaxTokens := None;
     RunConfig_ParallelToolCalls := None;
     RunConfig_Debug := false;
     RunConfig_Timeout := 5 * time_Minute;
     RunConfig_ResponseFormat := None |}.

Record Tool : Type := mkTool {
  Tool_Name : string;
  Tool_Description : string;
  Tool_Parameters : option (gmap string any);
  Tool_Callback :
    option (gmap string any → ContextVariables → ContextVariables * any * option error)
}.

(** guardrail.Guardrail; [Func] may return a nil result and a nil error. *)
Record Guardrail : Type := mkGuardrail {
  Guardrail_Name : string;
  Guardrail_Func : Context → string → option guardrail_Result * option error;
  Guardrail_RunInParallel : bool
}.

Definition LifecycleFunc : Type := Context → AgentPtr → option error.

(** The dynamic type of [Agent.Instructions]. *)
Inductive InstructionsValue : Type :=
| InstructionsString (s : string)
| InstructionsFunc (f : unit → string)
| InstructionsFuncCtx (f : Context → string)
| InstructionsOther.

Record Agent : Type := mkAgent {
  Agent_Name : string;
  Agent_Model : string;
  Agent_Instructions : InstructionsValue;
  Agent_Tools : list Tool;
  Agent_ParallelToolCalls : bool;
  Agent_Temperature : option float64;
  Agent_MaxTokens : option Z;
  Agent_ResponseFormat : option ResponseFormat;
  Agent_OnBeforeRun : option LifecycleFunc;
  Agent_OnAfterRun : option LifecycleFunc;
  Agent_InputGuardrails : list Guardrail;
  Agent_OutputGuardrails : list Guardrail
}.

Definition DefaultModel : string := "gpt-4o".
Definition DefaultInstructions : string := "You are a helpful agent.".

Definition NewAgent (name : string) : Agent :=
  {| Agent_Name := name;
     Agent_Model := DefaultModel;
     Agent_Instructions := InstructionsString DefaultInstructions;
     Agent_Tools := [];
     Agent_ParallelToolCalls := true;
     Agent_Temperature := None;
     Agent_MaxTokens := None;
     Agent_ResponseFormat := None;
     Agent_OnBeforeRun := None;
     Agent_OnAfterRun := None;
     Agent_InputGuardrails := [];
     Agent_OutputGuardrails := [] |}.

Definition GetInstructions (a : Agent) (ctx : Context) : string :=
  match Agent_Instructions a with
  | InstructionsString v => v
  | InstructionsFunc v => v tt
  | InstructionsFuncCtx v => v ctx
  | InstructionsOther => DefaultInstructions
  end.

Record Usage : Type := mkUsage {
  Usage_PromptTokens : Z;
  Usage_CompletionTokens : Z;
  Usage_TotalTokens : Z
}.

(** [func (u *Usage) Add(other Usage)], on Go's [int]. *)
Definition Usage_Add (u other : Usage) : Usage :=
  {| Usage_PromptTokens := wrap_int (Usage_PromptTokens u + Usage_PromptTokens other);
     Usage_CompletionTokens :=
       wrap_int (Usage_CompletionTokens u + Usage_CompletionTokens other);
     Usage_TotalTokens := wrap_int (Usage_TotalTokens u + Usage_TotalTokens other) |}.

(** types.go: ToolCall, without its wall-clock Duration. *)
Record ToolCall : Type := mkToolCall {
  ToolCall_ToolName : string;
  ToolCall_Arguments : string;
  ToolCall_Result : any;
  ToolCall_Error : option error
}.

(** types.go: Step, without its wall-clock Duration. *)
Record Step : Type := mkStep {
  Step_AgentName : string;
  Step_ToolCalls : list ToolCall;
  Step_StepNumber : Z
}.

Record Result : Type := mkResult {
  Result_Messages : list Message;
  Result_Agent : AgentPtr;
  Result_Usage : Usage;
  Result_Steps : list Step;
  Result_FinalOutput : string
}.

(* ===================================================================== *)
(** ** The completion service: requests and responses *)
(* ===================================================================== *)

(** openai.ChatCompletionToolParam *)
Record ToolParam : Type := mkToolParam {
  ToolParam_Name : string;
  ToolParam_Description : string;
  ToolParam_Parameters : gmap string any
}.

(** openai.ChatCompletionNewParamsResponseFormatUnion *)
Inductive ResponseFormatParam : Type :=
| OfText
| OfJSONSchema (name : string) (schema : gmap string any) (strict : bool)
               (description : option string).

(** openai.ChatCompletionNewParams *)
Record Request : Type := mkRequest {
  Request_Model : string;
  Request_Temperature : option float64;
  Request_MaxTokens : option Z;
  Request_Tools : list ToolParam;
  Request_ParallelToolCalls : option bool;
  Request_ResponseFormat : option ResponseFormatParam;
  Request_Messages : list Message
}.

(** openai.ChatCompletion: the token counts are [int64]. *)
Record Completion : Type := mkCompletion {
  Completion_PromptTokens : Z;
  Completion_CompletionTokens : Z;
  Completion_TotalTokens : Z;
  Completion_Choices : list ChatCompletionMessage
}.

(** Everything a run obtains from outside the repository. *)
Record Env : Type := mkEnv {
  (** the heap of agents: what a non-nil agent pointer points to *)
  heap : AgentPtr → Agent;
  (** [r.Client.Chat.Completions.New]: the answer to the k-th call of the run *)
  Completions_New : nat → Request → Completion + error;
  (** the instant at which Run derives its context *)
  time_at_start : Z;
  (** the instant at which the k-th iteration of the loop reads [ctx.Err()] *)
  time_at_turn : nat → Z;
  (** the order in which [range] enumerates the keys of a map *)
  range_order : list string → list string;
  (** [json.Unmarshal] into a [map[string]any] *)
  json_Unmarshal_map : string → gmap string any + error;
  (** [fmt.Sprintf("%v", m)] of a history entry *)
  fmt_Message : Message → string
}.

(** The result of running code that may panic. *)
Inductive exec (A : Type) : Type :=
| Done (a : A)
| Panic (why : string).
Arguments Done {A} a.
Arguments Panic {A} why.

(* ===================================================================== *)
(** ** tool.go *)
(* ===================================================================== *)

Definition default_Parameters : gmap string any :=
  <["type" := AnyString "object"]> (<["properties" := AnyOther "map[]"]> ∅).

Definition ToParam (t : Tool) : ToolParam :=
  let params := match Tool_Parameters t with
                | None => default_Parameters
                | Some p => p
                end in
  {| ToolParam_Name := Tool_Name t;
     ToolParam_Description := Tool_Description t;
     ToolParam_Parameters := params |}.

Definition Tool_Execute (E : Env) (t : Tool) (argsJSON : string) (ctx : ContextVariables)
  : ContextVariables * any * option error :=
  let argsJSON := if String.eqb argsJSON "" then "{}" else argsJSON in
  match json_Unmarshal_map E argsJSON with
  | inr err => (ctx, AnyNil, Some (fmt_Errorf_w "failed to unmarshal arguments" err))
  | inl args =>
      match Tool_Callback t with
      | None =>
          (ctx, AnyNil,
           Some (fmt_Errorf ("tool " +:+ Tool_Name t +:+ " has no callback function")))
      | Some callback => callback args ctx
      end
  end.

(** [IsHandoff]: the type assertion of [result] to an agent pointer. *)
Definition IsHandoff (result : any) : option AgentPtr * bool :=
  match result with
  | AnyAgent a => (a, true)
  | _ => (None, false)
  end.

(* ===================================================================== *)
(** ** runner.go: handleToolCalls *)
(* ===================================================================== *)

(** [s[:40]] when [len(s) > 40]. *)
Definition truncate_id (id : string) : string :=
  if (40 <? String.length id)%nat then String.substring 0 40 id else id.

(** The variables of [handleToolCalls] that its loop updates. *)
Record ToolLoop : Type := mkToolLoop {
  tl_messages : list Message;
  tl_recordedToolCalls : list ToolCall;
  tl_nextAgent : AgentPtr;
  tl_contextParams : ContextVariables
}.

(** The first half of an iteration of [for _, toolCall := range toolCalls]:
    look the tool up and execute it; what it yields is the shared variables,
    [result] and [err]. *)
Definition call_tool (E : Env) (toolMap : gmap string Tool)
    (contextParams : ContextVariables) (toolCall : ToolCallRequest)
  : ContextVariables * any * option error :=
  let toolName := tc_Name toolCall in
  let args := tc_Arguments toolCall in
  match toolMap !! toolName with
  | None =>
      let available := range_order E (elements (dom toolMap)) in
      (contextParams,
       AnyString ("Error: Tool " +:+ toolName +:+ " not found. Available tools: "
                  +:+ fmt_strings available),
       Some (fmt_Errorf ("tool " +:+ toolName +:+ " not found (available: "
                         +:+ fmt_strings available +:+ ")")))
  | Some tool =>
      match Tool_Execute E tool args contextParams with
      | (vars, _, Some err) =>
          (vars,
           AnyString ("Error executing tool " +:+ toolName +:+ ": " +:+ error_Error err),
           Some (NewToolExecutionError toolName err))
      | (vars, result, None) => (vars, result, None)
      end
  end.

(** The entry of the Step that an iteration records. *)
Definition record_call (toolCall : ToolCallRequest) (result : any) (err : option error)
  : ToolCall :=
  {| ToolCall_ToolName := tc_Name toolCall; ToolCall_Arguments := tc_Arguments toolCall;
     ToolCall_Result := result; ToolCall_Error := err |}.

(** One iteration of [for _, toolCall := range toolCalls]: execute, record,
    check for a handoff, add the tool output to the messages. *)
Definition handleToolCall (E : Env) (toolMap : gmap string Tool)
    (st : ToolLoop) (toolCall : ToolCallRequest) : exec ToolLoop :=
  let '(vars, result, err) := call_tool E toolMap (tl_contextParams st) toolCall in
  let recordedToolCalls :=
    tl_recordedToolCalls st ++ [record_call toolCall result err] in
  let toolCallID := truncate_id (tc_ID toolCall) in
  match IsHandoff result with
  | (extractedAgent, true) =>
      match extractedAgent with
      | None => Panic "nil pointer dereference: nextAgent.Name"
      | Some nextAgent =>
          let result := AnyString ("Transferred to " +:+ Agent_Name (heap E nextAgent)) in
          Done {| tl_messages := tl_messages st ++ [ToolMessage (fmt_any result) toolCallID];
                  tl_recordedToolCalls := recordedToolCalls;
                  tl_nextAgent := nextAgent;
                  tl_contextParams := vars |}
      end
  | (_, false) =>
      Done {| tl_messages := tl_messages st ++ [ToolMessage (fmt_any result) toolCallID];
              tl_recordedToolCalls := recordedToolCalls;
              tl_nextAgent := tl_nextAgent st;
              tl_contextParams := vars |}
  end.

Fixpoint handleToolCalls_from (E : Env) (toolMap : gmap string Tool)
    (st : ToolLoop) (toolCalls : list ToolCallRequest) : exec ToolLoop :=
  match toolCalls with
  | [] => Done st
  | toolCall :: rest =>
      match handleToolCall E toolMap st toolCall with
      | Panic why => Panic why
      | Done st' => handleToolCalls_from E toolMap st' rest
      end
  end.

Definition handleToolCalls (E : Env) (toolCalls : list ToolCallRequest)
    (toolMap : gmap string Tool) (contextParams : ContextVariables)
    (currentAgent : AgentPtr) : exec ToolLoop :=
  handleToolCalls_from E toolMap
    {| tl_messages := []; tl_recordedToolCalls := [];
       tl_nextAgent := currentAgent; tl_contextParams := contextParams |}
    toolCalls.

(* ===================================================================== *)
(** ** runner.go: prepareRequest *)
(* ===================================================================== *)

(** jsonschema: [Schema.ToMap] *)
Definition Schema_ToMap (E : Env) (s : Schema) : gmap string any + error :=
  match Schema_json s with
  | inr err => inr (fmt_Errorf_w "failed to marshal schema" err)
  | inl data =>
      match json_Unmarshal_map E data with
      | inr err => inr (fmt_Errorf_w "failed to unmarshal schema" err)
      | inl result => inl result
      end
  end.

Definition prepareRequest (E : Env) (ctx : Context) (agent : Agent) (config : RunConfig)
    (tools : list ToolParam) (history : list Message) : Request + error :=
  let temperature :=
    match RunConfig_Temperature config with
    | Some t => Some t
    | None => Agent_Temperature agent
    end in
  let maxTokens :=
    match RunConfig_MaxTokens config with
    | Some n => Some n
    | None => Agent_MaxTokens agent
    end in
  let '(reqTools, reqParallel) :=
    if (0 <? length tools)%nat then
      let parallelCalls :=
        match RunConfig_ParallelToolCalls config with
        | Some b => b
        | None => Agent_ParallelToolCalls agent
        end in
      (tools, if parallelCalls then None else Some false)
    else ([], None) in
  let responseFormat :=
    match RunConfig_ResponseFormat config with
    | Some rf => Some rf
    | None => Agent_ResponseFormat agent
    end in
  let reqFormat : option ResponseFormatParam + error :=
    match responseFormat with
    | None => inl None
    | Some rf =>
        if String.eqb (ResponseFormat_Type rf) "text" then inl (Some OfText)
        else if String.eqb (ResponseFormat_Type rf) "json_schema" then
          match ResponseFormat_JSONSchema rf with
          | None => inl None
          | Some js =>
              match Schema_ToMap E (JSONSchemaFormat_Schema js) with
              | inr err => inr (fmt_Errorf_w "invalid schema" err)
              | inl schemaMap =>
                  inl (Some (OfJSONSchema (JSONSchemaFormat_Name js) schemaMap
                               (JSONSchemaFormat_Strict js)
                               (if String.eqb (JSONSchemaFormat_Description js) ""
                                then None
                                else Some (JSONSchemaFormat_Description js))))
              end
          end
        else inl None
    end in
  match reqFormat with
  | inr err => inr err
  | inl format =>
      let instructions := GetInstructions agent ctx in
      inl {| Request_Model := Agent_Model agent;
             Request_Temperature := temperature;
             Request_MaxTokens := maxTokens;
             Request_Tools := reqTools;
             Request_ParallelToolCalls := reqParallel;
             Request_ResponseFormat := format;
             Request_Messages := SystemMessage instructions :: history |}
  end.

(* ===================================================================== *)
(** ** guardrails.go: runInputGuardrails, runOutputGuardrails *)
(* ===================================================================== *)

Fixpoint runGuardrails (tripwire : string → string → guardrail_Result → error)
    (ctx : Context) (guardrails : list Guardrail) (payload : string)
  : exec (option error) :=
  match guardrails with
  | [] => Done None
  | gr :: rest =>
      match Guardrail_Func gr ctx payload with
      | (_, Some err) =>
          Done (Some (fmt_Errorf_w ("guardrail '" +:+ Guardrail_Name gr +:+ "' failed") err))
      | (None, None) => Panic "nil pointer dereference: result.TripwireTriggered"
      | (Some result, None) =>
          if gr_TripwireTriggered result
          then Done (Some (tripwire (Guardrail_Name gr) (gr_Message result) result))
          else runGuardrails tripwire ctx rest payload
      end
  end.

Definition runInputGuardrails (ctx : Context) (agent : Agent) (input : string)
  : exec (option error) :=
  runGuardrails InputGuardrailTripwireError ctx (Agent_InputGuardrails agent) input.

Definition runOutputGuardrails (ctx : Context) (agent : Agent) (output : string)
  : exec (option error) :=
  runGuardrails OutputGuardrailTripwireError ctx (Agent_OutputGuardrails agent) output.

(* ===================================================================== *)
(** ** runner.go: the Session interface and Run *)
(* ===================================================================== *)

(** The interface [agents.Session]; both backends ignore the context they
    are handed, so it is left out. *)
Class Session (S : Type) : Type := mkSession {
  Session_Get : S → string → list Message + error;
  Session_Append : S → string → list Message → S * option error
}.

#[export] Instance MemorySession_Session : Session MemorySession :=
  {| Session_Get := MemorySession_Get; Session_Append := MemorySession_Append |}.

(** A durable store is the handle together with the file system it acts on. *)
#[export] Instance FileSession_Session `{Externals} : Session (FileSession * FS) :=
  {| Session_Get := λ s sessionID, FileSession_Get (fst s) (snd s) sessionID;
     Session_Append := λ s sessionID messages,
       let '(fs, err) := FileSession_Append (fst s) (snd s) sessionID messages in
       ((fst s, fs), err) |}.

(** The type assertion of [err] to a pointer to NotFoundError, written in
    package agents: it holds of that package's own NotFoundError only. *)
Definition is_agents_NotFoundError (err : error) : bool :=
  match err with
  | agents_NotFoundError _ => true
  | _ => false
  end.

(** What a call of Run ends in: the pair it returns, or a panic. *)
Inductive Outcome : Type :=
| Returned (result : option Result) (err : option error)
| Panicked (why : string).

(** The end of a run and what it left behind: the number of calls made to
    the completion service and the responses it gave, the shared variables,
    the session store. *)
Record RunEnd (S : Type) : Type := mkRunEnd {
  run_outcome : Outcome;
  run_calls : nat;
  run_completions : list Completion;
  run_contextParams : ContextVariables;
  run_session : option S
}.
Arguments mkRunEnd {S}.
Arguments run_outcome {S}.
Arguments run_calls {S}.
Arguments run_completions {S}.
Arguments run_contextParams {S}.
Arguments run_session {S}.

(** The variables of Run that its loop updates, and two records kept for the
    statements below: [ls_calls] counts the calls made to the completion
    service and [ls_completions] lists the responses it gave, in order. *)
Record LoopState : Type := mkLoopState {
  ls_history : list Message;
  ls_usage : Usage;
  ls_steps : list Step;
  ls_turnCount : Z;
  ls_currentAgent : AgentPtr;
  ls_contextParams : ContextVariables;
  ls_calls : nat;
  ls_completions : list Completion
}.

(** How the loop is left: by [break], by [return nil, err], or by a panic. *)
Inductive LoopExit : Type :=
| LoopBreak (st : LoopState) (lastMessage : ChatCompletionMessage)
| LoopReturn (st : LoopState) (err : error)
| LoopPanic (st : LoopState) (why : string).

(** What one iteration of the loop does: go round again, or leave. *)
Inductive TurnResult : Type :=
| Continue (st : LoopState)
| Exit (e : LoopExit).

Definition build_toolMap (tools : list Tool) : gmap string Tool :=
  foldl (λ toolMap t, <[Tool_Name t := t]> toolMap) ∅ tools.

Definition truncate_tool_call_ids (message : ChatCompletionMessage) : ChatCompletionMessage :=
  {| ccm_Content := ccm_Content message;
     ccm_Refusal := ccm_Refusal message;
     ccm_ToolCalls :=
       map (λ tc, {| tc_ID := truncate_id (tc_ID tc); tc_Name := tc_Name tc;
                     tc_Arguments := tc_Arguments tc |})
           (ccm_ToolCalls message) |}.

(** The token counts of a response, converted to [int]. *)
Definition reported_usage (completion : Completion) : Usage :=
  {| Usage_PromptTokens := wrap_int (Completion_PromptTokens completion);
     Usage_CompletionTokens := wrap_int (Completion_CompletionTokens completion);
     Usage_TotalTokens := wrap_int (Completion_TotalTokens completion) |}.

Definition track_usage (usage : Usage) (completion : Completion) : Usage :=
  if (0 <? Completion_PromptTokens completion)%Z
  then Usage_Add usage (reported_usage completion)
  else usage.

(** The state after the completion service has been called once more. *)
Definition after_call (st : LoopState) (answer : option Completion) : LoopState :=
  {| ls_history := ls_history st; ls_usage := ls_usage st; ls_steps := ls_steps st;
     ls_turnCount := ls_turnCount st; ls_currentAgent := ls_currentAgent st;
     ls_contextParams := ls_contextParams st;
     ls_calls := S (ls_calls st);
     ls_completions := ls_completions st ++ option_list answer |}.

(** [config.MaxTurns > 0 && turnCount >= config.MaxTurns] *)
Definition limit_reached (config : RunConfig) (st : LoopState) : bool :=
  (0 <? RunConfig_MaxTurns config)%Z && (RunConfig_MaxTurns config <=? ls_turnCount st)%Z.

(** The body of [for { ... }]: one turn. *)
Definition run_turn (E : Env) (ctx : Context) (config : RunConfig) (st : LoopState)
  : TurnResult :=
  if limit_reached config st
  then Exit (LoopReturn st ErrMaxTurnsExceeded)
  else
    match ctx_Err ctx (time_at_turn E (ls_calls st)) with
    | Some context_DeadlineExceeded => Exit (LoopReturn st ErrTimeout)
    | Some err => Exit (LoopReturn st err)
    | None =>
        let turnCount := wrap_int (ls_turnCount st + 1) in
        let currentAgent := heap E (ls_currentAgent st) in
        let tools := map ToParam (Agent_Tools currentAgent) in
        let toolMap := build_toolMap (Agent_Tools currentAgent) in
        match prepareRequest E ctx currentAgent config tools (ls_history st) with
        | inr err => Exit (LoopReturn st err)
        | inl req =>
            match Completions_New E (ls_calls st) req with
            | inr err =>
                Exit (LoopReturn (after_call st None) (fmt_Errorf_w "LLM call failed" err))
            | inl completion =>
                let st1 := after_call st (Some completion) in
                let usage := track_usage (ls_usage st) completion in
                match Completion_Choices completion with
                | [] => Exit (LoopPanic st1 "index out of range [0] with length 0")
                | choice :: _ =>
                    let message := truncate_tool_call_ids choice in
                    let history := ls_history st ++ [AssistantMessage message] in
                    let step := {| Step_AgentName := Agent_Name currentAgent;
                                   Step_ToolCalls := [];
                                   Step_StepNumber := turnCount |} in
                    if (length (ccm_ToolCalls message) =? 0)%nat then
                      Exit (LoopBreak
                              {| ls_history := history; ls_usage := usage;
                                 ls_steps := ls_steps st ++ [step];
                                 ls_turnCount := turnCount;
                                 ls_currentAgent := ls_currentAgent st;
                                 ls_contextParams := ls_contextParams st;
                                 ls_calls := ls_calls st1;
                                 ls_completions := ls_completions st1 |}
                              message)
                    else
                      match handleToolCalls E (ccm_ToolCalls message) toolMap
                              (ls_contextParams st) (ls_currentAgent st) with
                      | Panic why =>
                          Exit (LoopPanic
                                  {| ls_history := history; ls_usage := usage;
                                     ls_steps := ls_steps st;
                                     ls_turnCount := turnCount;
                                     ls_currentAgent := ls_currentAgent st;
                                     ls_contextParams := ls_contextParams st;
                                     ls_calls := ls_calls st1;
                                     ls_completions := ls_completions st1 |}
                                  why)
                      | Done tl =>
                          let step := {| Step_AgentName := Agent_Name currentAgent;
                                         Step_ToolCalls := tl_recordedToolCalls tl;
                                         Step_StepNumber := turnCount |} in
                          Continue
                            {| ls_history := history ++ tl_messages tl;
                               ls_usage := usage;
                               ls_steps := ls_steps st ++ [step];
                               ls_turnCount := turnCount;
                               ls_currentAgent := tl_nextAgent tl;
                               ls_contextParams := tl_contextParams tl;
                               ls_calls := ls_calls st1;
                               ls_completions := ls_completions st1 |}
                      end
                end
            end
        end
    end.

(** [for { ... }], for as many turns as there is fuel. *)
Fixpoint run_loop (fuel : nat) (E : Env) (ctx : Context) (config : RunConfig)
    (st : LoopState) : option LoopExit :=
  match fuel with
  | O => None
  | S fuel' =>
      match run_turn E ctx config st with
      | Exit e => Some e
      | Continue st' => run_loop fuel' E ctx config st'
      end
  end.

(** The final output: the last assistant message's content, else its refusal. *)
Definition extract_finalOutput (history : list Message)
    (lastMessage : ChatCompletionMessage) : string :=
  if (0 <? length history)%nat then
    if (0 <? String.length (ccm_Content lastMessage))%nat then ccm_Content lastMessage
    else if negb (String.eqb (ccm_Refusal lastMessage) "") then ccm_Refusal lastMessage
    else ""
  else "".

(** The context Run works under: [config.Timeout > 0] derives a deadline. *)
Definition run_context (E : Env) (ctx : Context) (config : RunConfig) : Context :=
  if (0 <? RunConfig_Timeout config)%Z
  then context_WithTimeout ctx (time_at_start E) (RunConfig_Timeout config)
  else ctx.

(** The output-guardrail step of Run; note whose guardrails it reads. *)
Definition check_output (E : Env) (ctx : Context) (agent : AgentPtr)
    (finalOutput : string) : exec (option error) :=
  if (0 <? length (Agent_OutputGuardrails (heap E agent)))%nat
     && negb (String.eqb finalOutput "")
  then runOutputGuardrails ctx (heap E agent) finalOutput
  else Done None.

(** The after-hook step of Run. *)
Definition after_hook (E : Env) (ctx : Context) (agent : AgentPtr) : option error :=
  match Agent_OnAfterRun (heap E agent) with
  | Some hook => hook ctx agent
  | None => None
  end.

Section Run.
Context {S : Type} `{Session S}.

(** The session-save step of Run. *)
Definition save_session (session : option S) (sessionID : string)
    (history : list Message) : option S * option error :=
  match session with
  | Some s =>
      if negb (String.eqb sessionID "") then
        let '(s', err) := Session_Append s sessionID history in (Some s', err)
      else (session, None)
  | None => (None, None)
  end.

(** The session-load step of Run. *)
Definition load_session (session : option S) (sessionID : string)
    (messages : list Message) : list Message + error :=
  match session with
  | Some s =>
      if negb (String.eqb sessionID "") then
        match Session_Get s sessionID with
        | inr err =>
            if is_agents_NotFoundError err then inl messages
            else inr (fmt_Errorf_w "failed to load session" err)
        | inl sessionHistory => inl (sessionHistory ++ messages)
        end
      else inl messages
  | None => inl messages
  end.

Definition build_Result (st : LoopState) (lastMessage : ChatCompletionMessage) : Result :=
  {| Result_Messages := ls_history st;
     Result_Agent := ls_currentAgent st;
     Result_Usage := ls_usage st;
     Result_Steps := ls_steps st;
     Result_FinalOutput := extract_finalOutput (ls_history st) lastMessage |}.

Definition end_of_loop (o : Outcome) (st : LoopState) (session : option S) : RunEnd S :=
  mkRunEnd o (ls_calls st) (ls_completions st) (ls_contextParams st) session.

(** Run, from the [break] of its loop to its last [return]. *)
Definition Run_finish (E : Env) (ctx : Context) (agent : AgentPtr)
    (session : option S) (sessionID : string)
    (st : LoopState) (lastMessage : ChatCompletionMessage) : RunEnd S :=
  let result := build_Result st lastMessage in
  match check_output E ctx agent (Result_FinalOutput result) with
  | Panic why => end_of_loop (Panicked why) st session
  | Done (Some err) => end_of_loop (Returned (Some result) (Some err)) st session
  | Done None =>
      match save_session session sessionID (ls_history st) with
      | (session', Some err) =>
          end_of_loop
            (Returned (Some result) (Some (fmt_Errorf_w "failed to save session" err)))
            st session'
      | (session', None) =>
          match after_hook E ctx agent with
          | Some err =>
              end_of_loop
                (Returned (Some result) (Some (fmt_Errorf_w "OnAfterRun hook failed" err)))
                st session'
          | None => end_of_loop (Returned (Some result) None) st session'
          end
      end
  end.

(** Run, up to the first turn: either it has returned, or the loop starts
    under a context, a configuration and an initial state. *)
Definition Run_prelude (E : Env) (ctx : Context) (agent : AgentPtr)
    (messages : list Message) (contextParams : option ContextVariables)
    (config : option RunConfig) (session : option S) (sessionID : string)
  : RunEnd S + Context * RunConfig * LoopState :=
  let contextParams0 := default ∅ contextParams in
  let early (o : Outcome) : RunEnd S + Context * RunConfig * LoopState :=
    inl (mkRunEnd o 0%nat [] contextParams0 session) in
  if (length messages =? 0)%nat then early (Returned None (Some ErrNoMessages))
  else
    let config := default DefaultRunConfig config in
    let ctx := run_context E ctx config in
    let before : option error :=
      match Agent_OnBeforeRun (heap E agent) with
      | Some hook => hook ctx agent
      | None => None
      end in
    match before with
    | Some err => early (Returned None (Some (fmt_Errorf_w "OnBeforeRun hook failed" err)))
    | None =>
        let guarded : exec (option error) :=
          if (0 <? length (Agent_InputGuardrails (heap E agent)))%nat
             && (0 <? length messages)%nat
          then
            let userInput := fmt_Message E (List.last messages (UserMessage "")) in
            runInputGuardrails ctx (heap E agent) userInput
          else Done None in
        match guarded with
        | Panic why => early (Panicked why)
        | Done (Some err) => early (Returned None (Some err))
        | Done None =>
            match load_session session sessionID messages with
            | inr err => early (Returned None (Some err))
            | inl messages =>
                inr (ctx, config,
                     {| ls_history := messages;
                        ls_usage := mkUsage 0 0 0;
                        ls_steps := [];
                        ls_turnCount := 0;
                        ls_currentAgent := agent;
                        ls_contextParams := contextParams0;
                        ls_calls := 0;
                        ls_completions := [] |})
            end
        end
    end.

(** What Run makes of the way its loop was left. *)
Definition Run_after_loop (E : Env) (ctx : Context) (agent : AgentPtr)
    (session : option S) (sessionID : string) (e : LoopExit) : RunEnd S :=
  match e with
  | LoopReturn st err => end_of_loop (Returned None (Some err)) st session
  | LoopPanic st why => end_of_loop (Panicked why) st session
  | LoopBreak st lastMessage => Run_finish E ctx agent session sessionID st lastMessage
  end.

Definition Run (fuel : nat) (E : Env) (ctx : Context) (agent : AgentPtr)
    (messages : list Message) (contextParams : option ContextVariables)
    (config : option RunConfig) (session : option S) (sessionID : string)
  : option (RunEnd S) :=
  match Run_prelude E ctx agent messages contextParams config session sessionID with
  | inl r => Some r
  | inr (ctx, config, st0) =>
      match run_loop fuel E ctx config st0 with
      | None => None
      | Some e => Some (Run_after_loop E ctx agent session sessionID e)
      end
  end.
End Run.

(* ===================================================================== *)
(** ** Notions used to state the properties *)
(* ===================================================================== *)

(** The agent a recorded tool call handed off to, if its result is one. *)
Definition handoff_target (tc : ToolCall) : option AgentPtr :=
  match ToolCall_Result tc with
  | AnyAgent (Some p) => Some p
  | _ => None
  end.

(** The target of the last handoff among [tcs], or [start] if there is none. *)
Definition last_handoff (start : AgentPtr) (tcs : list ToolCall) : AgentPtr :=
  foldl (λ cur tc, default cur (handoff_target tc)) start tcs.

(** All tool calls recorded in a list of steps, in order. *)
Definition all_tool_calls (steps : list Step) : list ToolCall :=
  concat (map Step_ToolCalls steps).

Definition transfer_notice (E : Env) (p : AgentPtr) : string :=
  "Transferred to " +:+ Agent_Name (heap E p).

(** The text that stands in the history for a recorded tool call. *)
Definition tool_output_text (E : Env) (tc : ToolCall) : string :=
  match handoff_target tc with
  | Some p => transfer_notice E p
  | None => fmt_any (ToolCall_Result tc)
  end.

(** The message that stands in the history for a requested and recorded call. *)
Definition tool_message (E : Env) (tc : ToolCallRequest) (rec : ToolCall) : Message :=
  ToolMessage (tool_output_text E rec) (truncate_id (tc_ID tc)).

(** The contents of the tool-output messages of a history, in order. *)
Definition tool_outputs (history : list Message) : list string :=
  omap (λ m, match m with ToolMessage content _ => Some content | _ => None end) history.

(** Component-wise sum of usages, in Go's [int]. *)
Definition sum_usage (us : list Usage) : Usage :=
  foldl Usage_Add (mkUsage 0 0 0) us.

(** Component-wise sum of usages, in the integers. *)
Definition plain_sum (us : list Usage) : Usage :=
  {| Usage_PromptTokens := foldr Z.add 0%Z (Usage_PromptTokens <$> us);
     Usage_CompletionTokens := foldr Z.add 0%Z (Usage_CompletionTokens <$> us);
     Usage_TotalTokens := foldr Z.add 0%Z (Usage_TotalTokens <$> us) |}.

(** All three counts of a usage lie between 0 and [bound]. *)
Definition counts_within (bound : Z) (u : Usage) : Prop :=
  (0 ≤ Usage_PromptTokens u ≤ bound)%Z
  ∧ (0 ≤ Usage_CompletionTokens u ≤ bound)%Z
  ∧ (0 ≤ Usage_TotalTokens u ≤ bound)%Z.

(** The responses whose token counts Run adds up. *)
Definition counted (completions : list Completion) : list Completion :=
  filter (λ c, (0 < Completion_PromptTokens c)%Z) completions.



(** The token counts a response reports. *)
Definition token_counts (c : Completion) : Z * Z * Z :=
  (Completion_PromptTokens c, Completion_CompletionTokens c, Completion_TotalTokens c).








(** What ties the loop's state to its steps: the active agent is the target
    of the last recorded handoff, and the tool outputs added to the history
    since the start are the texts standing for the recorded calls. *)
Definition handoff_inv (E : Env) (agent0 : AgentPtr) (history0 : list Message)
    (st : LoopState) : Prop :=
  ls_currentAgent st = last_handoff agent0 (all_tool_calls (ls_steps st))
  ∧ ∃ produced,
      ls_history st = history0 ++ produced
      ∧ tool_outputs produced = map (tool_output_text E) (all_tool_calls (ls_steps st)).

(** Run's before-hook and input guardrails let the run through. *)
Definition hook_passes (E : Env) (ctx : Context) (agent : AgentPtr) : Prop :=
  match Agent_OnBeforeRun (heap E agent) with
  | Some hook => hook ctx agent = None
  | None => True
  end.

Definition input_passes (E : Env) (ctx : Context) (agent : AgentPtr)
    (messages : list Message) : Prop :=
  Agent_InputGuardrails (heap E agent) = []
  ∨ runInputGuardrails ctx (heap E agent)
      (fmt_Message E (List.last messages (UserMessage ""))) = Done None.


(* ===================================================================== *)
(** ** Concrete instances for the examples *)
(* ===================================================================== *)

#[export] Instance ToolCallRequest_eq_dec : EqDecision ToolCallRequest.
Proof. solve_decision. Defined.
#[export] Instance ChatCompletionMessage_eq_dec : EqDecision ChatCompletionMessage.
Proof. solve_decision. Defined.
#[export] Instance Message_eq_dec : EqDecision Message.
Proof. solve_decision. Defined.

Definition hello : list Message := [UserMessage "Hello"].
Definition world : list Message := [AssistantMessage (mkChatCompletionMessage "World" "" [])].

(** A codec that knows three documents and refuses every other list. *)
Definition example_Marshal (ms : list Message) : string + error :=
  if decide (ms = []) then inl "[]"
  else if decide (ms = hello) then inl "[user:Hello]"
  else if decide (ms = hello ++ world) then inl "[user:Hello,assistant:World]"
  else inr (errors_New "json: unsupported value").

Definition example_Unmarshal (data : string) : list Message + error :=
  if decide (data = "[]") then inl []
  else if decide (data = "[user:Hello]") then inl hello
  else if decide (data = "[user:Hello,assistant:World]") then inl (hello ++ world)
  else inr (errors_New "json: syntax error").

Definition example_Externals : Externals :=
  {| filepath_Join := λ dir name, dir +:+ "/" +:+ name;
     json_MarshalIndent := example_Marshal;
     json_Unmarshal := example_Unmarshal |}.

(** An empty directory in which everything may be read and written. *)
Definition empty_FS : FS :=
  {| fs_files := ∅; fs_can_read := λ _, true; fs_can_write := λ _, true |}.

(** A file system in which nothing can be created. *)
Definition readonly_FS : FS :=
  {| fs_files := ∅; fs_can_read := λ _, true; fs_can_write := λ _, false |}.

Definition example_store : FileSession := {| basePath := "/tmp/sessions" |}.


(** A completion service that plays a script and then refuses to answer;
    the clock ticks once per turn. *)
Definition text_reply (content : string) (p c t : Z) : Completion :=
  {| Completion_PromptTokens := p; Completion_CompletionTokens := c;
     Completion_TotalTokens := t;
     Completion_Choices := [mkChatCompletionMessage content "" []] |}.

Definition tool_request (id name args : string) (p c t : Z) : Completion :=
  {| Completion_PromptTokens := p; Completion_CompletionTokens := c;
     Completion_TotalTokens := t;
     Completion_Choices :=
       [mkChatCompletionMessage "" "" [mkToolCallRequest id name args]] |}.

Definition example_fmt_Message (m : Message) : string :=
  match m with
  | UserMessage c | SystemMessage c | ToolMessage c _ => c
  | AssistantMessage m => ccm_Content m
  end.

Definition scripted_env (agents : AgentPtr → Agent) (script : nat → Completion + error)
  : Env :=
  {| heap := agents;
     Completions_New := λ k _, script k;
     time_at_start := 0;
     time_at_turn := λ k, Z.of_nat k;
     range_order := λ keys, keys;
     json_Unmarshal_map := λ _, inl ∅;
     fmt_Message := example_fmt_Message |}.

Definition play (script : list Completion) (k : nat) : Completion + error :=
  match script !! k with
  | Some c => inl c
  | None => inr (errors_New "connection refused")
  end.

Definition assistant : Agent := NewAgent "Assistant".

(** Two agents: triage hands over to support, and only support declares an
    output guardrail, which trips on everything. *)
Definition transfer_to_support : Tool :=
  {| Tool_Name := "transfer_to_support";
     Tool_Description := "Transfer the customer to technical support";
     Tool_Parameters := None;
     Tool_Callback := Some (λ _ vars, (vars, AnyAgent (Some 1%nat), None)) |}.

Definition block_everything : Guardrail :=
  {| Guardrail_Name := "block_everything";
     Guardrail_Func := λ _ _, (Some (mkGuardrailResult false true "blocked" []), None);
     Guardrail_RunInParallel := false |}.

Definition broken_guardrail : Guardrail :=
  {| Guardrail_Name := "moderation";
     Guardrail_Func := λ _ _, (None, Some (errors_New "moderation service unavailable"));
     Guardrail_RunInParallel := false |}.

Definition with_Tools (a : Agent) (tools : list Tool) : Agent :=
  mkAgent (Agent_Name a) (Agent_Model a) (Agent_Instructions a) tools
    (Agent_ParallelToolCalls a) (Agent_Temperature a) (Agent_MaxTokens a)
    (Agent_ResponseFormat a) (Agent_OnBeforeRun a) (Agent_OnAfterRun a)
    (Agent_InputGuardrails a) (Agent_OutputGuardrails a).

Definition with_OutputGuardrails (a : Agent) (guardrails : list Guardrail) : Agent :=
  mkAgent (Agent_Name a) (Agent_Model a) (Agent_Instructions a) (Agent_Tools a)
    (Agent_ParallelToolCalls a) (Agent_Temperature a) (Agent_MaxTokens a)
    (Agent_ResponseFormat a) (Agent_OnBeforeRun a) (Agent_OnAfterRun a)
    (Agent_InputGuardrails a) guardrails.

Definition triage : Agent := with_Tools (NewAgent "Triage") [transfer_to_support].
Definition support : Agent := with_OutputGuardrails (NewAgent "Support") [block_everything].

Definition two_agents (p : AgentPtr) : Agent :=
  match p with
  | O => triage
  | _ => support
  end.

Definition no_limits : RunConfig :=
  {| RunConfig_MaxTurns := 0; RunConfig_Temperature := None; RunConfig_MaxTokens := None;
     RunConfig_ParallelToolCalls := None; RunConfig_Debug := false;
     RunConfig_Timeout := 0; RunConfig_ResponseFormat := None |}.


(** A run without a session store still has to name the type of one. *)
Definition no_session : option MemorySession := None.


(** Example runs. *)
Definition handoff_script : list Completion :=
  [tool_request "call_1" "transfer_to_support" "{}" 10 5 15;
   text_reply "Have you tried turning it off and on again?" 20 8 28].

Definition handoff_env : Env := scripted_env two_agents (play handoff_script).

Definition handoff_run : option (RunEnd MemorySession) :=
  Run 5 handoff_env context_Background 0%nat hello None (Some no_limits) no_session "".

Definition zero_prompt_run : option (RunEnd MemorySession) :=
  Run 5 (scripted_env (λ _, assistant) (play [text_reply "Hi" 0 5 5]))
    context_Background 0%nat hello None (Some no_limits) no_session "".

(** An agent whose model never stops asking for its one tool. *)
Definition ping : Tool :=
  {| Tool_Name := "ping";
     Tool_Description := "Answers pong";
     Tool_Parameters := None;
     Tool_Callback := Some (λ _ vars, (vars, AnyString "pong", None)) |}.

Definition looper : Agent := with_Tools (NewAgent "Looper") [ping].

Definition looping_env : Env :=
  scripted_env (λ _, looper) (λ _, inl (tool_request "call_1" "ping" "{}" 1 1 2)).


(** A caller whose own context carries a deadline that has passed, and a
    configuration without timeout. *)
Definition caller_deadline_ctx : Context :=
  {| ctx_deadline := Some (0%Z, FromCaller); ctx_canceled_at := None |}.

Definition caller_deadline_run : option (RunEnd MemorySession) :=
  Run 5 (scripted_env (λ _, assistant) (play [text_reply "Hi" 10 5 15]))
    caller_deadline_ctx 0%nat hello None (Some no_limits) no_session "".

(** A configuration with a turn limit of one and a timeout of one tick. *)
Definition one_turn_one_tick : RunConfig :=
  {| RunConfig_MaxTurns := 1; RunConfig_Temperature := None; RunConfig_MaxTokens := None;
     RunConfig_ParallelToolCalls := None; RunConfig_Debug := false;
     RunConfig_Timeout := 1; RunConfig_ResponseFormat := None |}.

Definition limit_before_timeout_run : option (RunEnd MemorySession) :=
  Run 5 looping_env context_Background 0%nat hello None (Some one_turn_one_tick)
    no_session "".

(** An agent whose one output guardrail cannot reach its moderation service. *)
Definition moderated : Agent := with_OutputGuardrails (NewAgent "Moderated") [broken_guardrail].

Definition broken_guardrail_run : option (RunEnd MemorySession) :=
  Run 5 (scripted_env (λ _, moderated) (play [text_reply "Hi" 10 5 15]))
    context_Background 0%nat hello None (Some no_limits) no_session "".



Definition start_state (messages : list Message) (agent : AgentPtr) : LoopState :=
  {| ls_history := messages; ls_usage := mkUsage 0 0 0; ls_steps := [];
     ls_turnCount := 0; ls_currentAgent := agent; ls_contextParams := ∅;
     ls_calls := 0; ls_completions := [] |}.


(** First runs against stores that do not know the session yet. *)
Definition one_reply_env : Env :=
  scripted_env (λ _, assistant) (play [text_reply "Hi" 10 5 15]).

Definition first_run_memory : option (RunEnd MemorySession) :=
  Run 5 one_reply_env context_Background 0%nat hello None (Some no_limits)
    (Some NewMemorySession) "user_123".

Definition first_run_file : option (RunEnd (FileSession * FS)) :=
  @Run _ (@FileSession_Session example_Externals) 5 one_reply_env context_Background
    0%nat hello None (Some no_limits) (Some (example_store, empty_FS)) "user_123".

(** The mirror image of [two_agents]: only the first agent declares the
    output guardrail. *)
Definition guarded_triage : Agent := with_OutputGuardrails triage [block_everything].

Definition mirrored_agents (p : AgentPtr) : Agent :=
  match p with
  | O => guarded_triage
  | _ => NewAgent "Support"
  end.

Definition mirrored_run : option (RunEnd MemorySession) :=
  Run 5 (scripted_env mirrored_agents (play handoff_script))
    context_Background 0%nat hello None (Some no_limits) no_session "".

(** A run under the default configuration. *)
Definition default_config_run : option (RunEnd MemorySession) :=
  Run 11 looping_env context_Background 0%nat hello None None no_session "".

(* ===================================================================== *)
(** ** config.go: Merge; tool.go: FunctionTool; guardrail.go: NewGuardrail *)
(* ===================================================================== *)

(** [func (c *RunConfig) Merge(overrides *RunConfig) *RunConfig] *)
Definition RunConfig_Merge (c : RunConfig) (overrides : option RunConfig) : RunConfig :=
  match overrides with
  | None => c
  | Some o =>
      {| RunConfig_MaxTurns :=
           if (0 <? RunConfig_MaxTurns o)%Z then RunConfig_MaxTurns o
           else RunConfig_MaxTurns c;
         RunConfig_Temperature :=
           match RunConfig_Temperature o with
           | Some t => Some t
           | None => RunConfig_Temperature c
           end;
         RunConfig_MaxTokens :=
           match RunConfig_MaxTokens o with
           | Some n => Some n
           | None => RunConfig_MaxTokens c
           end;
         RunConfig_ParallelToolCalls :=
           match RunConfig_ParallelToolCalls o with
           | Some b => Some b
           | None => RunConfig_ParallelToolCalls c
           end;
         RunConfig_Debug := if RunConfig_Debug o then true else RunConfig_Debug c;
         RunConfig_Timeout :=
           if (0 <? RunConfig_Timeout o)%Z then RunConfig_Timeout o
           else RunConfig_Timeout c;
         RunConfig_ResponseFormat :=
           match RunConfig_ResponseFormat o with
           | Some rf => Some rf
           | None => RunConfig_ResponseFormat c
           end |}
  end.

(** [FunctionTool]: it panics on an empty name and on a nil callback. *)
Definition FunctionTool (name description : string) (params : option (gmap string any))
    (callback : option (gmap string any → ContextVariables
                        → ContextVariables * any * option error))
  : exec Tool :=
  if String.eqb name "" then Panic "tool name cannot be empty"
  else
    match callback with
    | None => Panic "tool callback cannot be nil"
    | Some _ =>
        Done {| Tool_Name := name; Tool_Description := description;
                Tool_Parameters := params; Tool_Callback := callback |}
    end.

(** [guardrail.NewGuardrail] and [WithParallel] *)
Definition NewGuardrail (name : string)
    (fn : Context → string → option guardrail_Result * option error) : Guardrail :=
  {| Guardrail_Name := name; Guardrail_Func := fn; Guardrail_RunInParallel := false |}.

Definition WithParallel (g : Guardrail) (parallel : bool) : Guardrail :=
  {| Guardrail_Name := Guardrail_Name g; Guardrail_Func := Guardrail_Func g;
     Guardrail_RunInParallel := parallel |}.

(** The zero value of RunConfig. *)
Definition zero_RunConfig : RunConfig := no_limits.

(** Example stores and configurations. *)
Definition two_sessions : MemorySession :=
  (MemorySession_Append (MemorySession_Append NewMemorySession "alice" hello).1 "bob" world).1.

Definition two_files : FS :=
  (@FileSession_Append example_Externals example_store
     (@FileSession_Append example_Externals example_store empty_FS "alice" hello).1
     "bob" hello).1.

(** A file system in which the temporary file can be written but the
    session file cannot be replaced. *)
Definition no_replace_FS : FS :=
  {| fs_files := fs_files two_files;
     fs_can_read := λ _, true;
     fs_can_write := λ path, negb (String.eqb path "/tmp/sessions/alice.json") |}.

Definition debug_config : RunConfig :=
  {| RunConfig_MaxTurns := 5; RunConfig_Temperature := Some 7%Z; RunConfig_MaxTokens := None;
     RunConfig_ParallelToolCalls := None; RunConfig_Debug := true;
     RunConfig_Timeout := 30; RunConfig_ResponseFormat := None |}.

(** The identifier of the tool call a history entry answers. *)
Definition tool_call_id (m : Message) : option string :=
  match m with
  | ToolMessage _ id => Some id
  | _ => None
  end.

(** The entries a run adds to its history: assistant and tool messages. *)
Definition is_reply (m : Message) : bool :=
  match m with
  | AssistantMessage _ | ToolMessage _ _ => true
  | UserMessage _ | SystemMessage _ => false
  end.

(** The tool calls of [completion.Choices[0].Message], the one choice Run
    reads. *)
Definition first_choice_calls (c : Completion) : list ToolCallRequest :=
  match Completion_Choices c with
  | choice :: _ => ccm_ToolCalls choice
  | [] => []
  end.

(** A guardrail lets a payload through: it returns a result without error
    whose tripwire is not triggered. *)
Definition lets_through (ctx : Context) (payload : string) (g : Guardrail) : bool :=
  match Guardrail_Func g ctx payload with
  | (Some result, None) => negb (gr_TripwireTriggered result)
  | _ => false
  end.

(** The turn counter and the step numbers count the calls made, as long as
    that count fits Go's [int]. *)
Definition numbered (st : LoopState) : Prop :=
  length (ls_steps st) = ls_calls st
  ∧ ((Z.of_nat (ls_calls st) ≤ max_int)%Z →
     ls_turnCount st = Z.of_nat (ls_calls st)
     ∧ map Step_StepNumber (ls_steps st) = map Z.of_nat (seq 1 (ls_calls st))).

(** Every response so far asked for tool calls. *)
Definition all_asked (st : LoopState) : Prop :=
  Forall (λ c, first_choice_calls c ≠ []) (ls_completions st).

(** The history is what the loop started with, followed by replies only. *)
Definition replies_only (history0 : list Message) (st : LoopState) : Prop :=
  ∃ produced, ls_history st = history0 ++ produced
              ∧ Forall (λ m, is_reply m = true) produced.

(** The local variable [responseFormat] of prepareRequest. *)
Definition responseFormat_of (agent : Agent) (config : RunConfig) : option ResponseFormat :=
  match RunConfig_ResponseFormat config with
  | Some rf => Some rf
  | None => Agent_ResponseFormat agent
  end.

(** A guardrail that reports a failed check without triggering its tripwire. *)
Definition advisory : Guardrail :=
  {| Guardrail_Name := "advisory";
     Guardrail_Func := λ _ _, (Some (mkGuardrailResult false false "please rephrase" []), None);
     Guardrail_RunInParallel := true |}.

(** Two tools registered under one name. *)
Definition ping_v2 : Tool :=
  {| Tool_Name := "ping";
     Tool_Description := "Answers pong, second edition";
     Tool_Parameters := None;
     Tool_Callback := Some (λ _ vars, (vars, AnyString "pong v2", None)) |}.

(** A model that asks for a tool under an identifier of 45 characters. *)
Definition long_id_env : Env :=
  scripted_env (λ _, looper)
    (play [tool_request "call_0123456789012345678901234567890123456789" "ping" "{}" 1 1 2;
           text_reply "pong it is" 1 1 2]).

(** An agent that asks its input guardrails before and its output
    guardrails after. *)
Definition with_InputGuardrails (a : Agent) (guardrails : list Guardrail) : Agent :=
  mkAgent (Agent_Name a) (Agent_Model a) (Agent_Instructions a) (Agent_Tools a)
    (Agent_ParallelToolCalls a) (Agent_Temperature a) (Agent_MaxTokens a)
    (Agent_ResponseFormat a) (Agent_OnBeforeRun a) (Agent_OnAfterRun a)
    guardrails (Agent_OutputGuardrails a).

Definition gated : Agent := with_InputGuardrails (NewAgent "Gated") [advisory; block_everything].

(** A second run on a session that already holds a greeting. *)
Definition second_run_memory : option (RunEnd MemorySession) :=
  Run 5 one_reply_env context_Background 0%nat world None (Some no_limits)
    (Some two_sessions) "alice".

(** A response format of a type that is neither text nor json_schema, and a
    schema that cannot be marshalled. *)
Definition xml_format : ResponseFormat :=
  {| ResponseFormat_Type := "xml"; ResponseFormat_JSONSchema := None |}.

Definition broken_schema_format : ResponseFormat :=
  {| ResponseFormat_Type := "json_schema";
     ResponseFormat_JSONSchema :=
       Some {| JSONSchemaFormat_Name := "answer";
               JSONSchemaFormat_Description := "";
               JSONSchemaFormat_Schema :=
                 {| Schema_json := inr (errors_New "json: unsupported value: NaN") |};
               JSONSchemaFormat_Strict := true |} |}.

Definition with_format (c : RunConfig) (rf : ResponseFormat) : RunConfig :=
  {| RunConfig_MaxTurns := RunConfig_MaxTurns c;
     RunConfig_Temperature := RunConfig_Temperature c;
     RunConfig_MaxTokens := RunConfig_MaxTokens c;
     RunConfig_ParallelToolCalls := RunConfig_ParallelToolCalls c;
     RunConfig_Debug := RunConfig_Debug c;
     RunConfig_Timeout := RunConfig_Timeout c;
     RunConfig_ResponseFormat := Some rf |}.

Definition gated_env : Env :=
  scripted_env (λ _, gated) (play [text_reply "Hi" 10 5 15]).

(* ===================================================================== *)
(** ** guardrail/builtin: the regex, PII and URL guardrails *)
(* ===================================================================== *)

(** A compiled [*regexp.Regexp] is carried around as its source text, which
    is what its [String()] returns; a nil regexp is excluded by the type. *)
Definition Regexp : Type := string.

(** What the builtin guardrails obtain from Go's standard library. *)
Class TextLibs : Type := mkTextLibs {
  (** whether [regexp.MustCompile(pattern)] returns rather than panics *)
  regexp_compiles : string → bool;
  (** [re.MatchString(input)] for the regexp compiled from a source *)
  regexp_MatchString : Regexp → string → bool;
  (** [strings.Fields] *)
  strings_Fields : string → list string;
  (** [url.Parse]: the Scheme and the Host of the parsed URL, or an error *)
  url_Parse : string → string * string + error
}.

(** [strings.HasPrefix], [strings.HasSuffix], [strings.Contains],
    [strings.TrimPrefix], and [strings.Split(s, sep)[0]] for a separator of
    one byte. *)
Fixpoint strings_HasPrefix (s prefix : string) {struct prefix} : bool :=
  match prefix with
  | EmptyString => true
  | String c prefix' =>
      match s with
      | EmptyString => false
      | String d s' => Ascii.eqb c d && strings_HasPrefix s' prefix'
      end
  end.

Fixpoint strings_HasSuffix (s suffix : string) : bool :=
  String.eqb s suffix
  || match s with
     | EmptyString => false
     | String _ s' => strings_HasSuffix s' suffix
     end.

Definition strings_Contains (s substr : string) : bool :=
  match String.index 0 substr s with
  | Some _ => true
  | None => false
  end.

Definition strings_TrimPrefix (s prefix : string) : string :=
  if strings_HasPrefix s prefix
  then String.substring (String.length prefix) (String.length s - String.length prefix) s
  else s.

Fixpoint strings_Split_0 (s : string) (sep : Ascii.ascii) : string :=
  match s with
  | EmptyString => EmptyString
  | String c s' => if Ascii.eqb c sep then EmptyString else String c (strings_Split_0 s' sep)
  end.

(** [fmt.Sprintf("%v", b)] for a bool. *)
Definition fmt_bool (b : bool) : string := if b then "true" else "false".

(** *** url_filter.go *)

Record URLFilterConfig : Type := mkURLFilterConfig {
  URLFilterConfig_Tripwire : bool;
  URLFilterConfig_Blocklist : list string;
  URLFilterConfig_Allowlist : list string
}.

Definition URLFilterOption : Type := URLFilterConfig → URLFilterConfig.

Definition WithURLTripwire (enabled : bool) : URLFilterOption :=
  λ c, {| URLFilterConfig_Tripwire := enabled;
          URLFilterConfig_Blocklist := URLFilterConfig_Blocklist c;
          URLFilterConfig_Allowlist := URLFilterConfig_Allowlist c |}.

Definition WithBlocklist (patterns : list string) : URLFilterOption :=
  λ c, {| URLFilterConfig_Tripwire := URLFilterConfig_Tripwire c;
          URLFilterConfig_Blocklist := URLFilterConfig_Blocklist c ++ patterns;
          URLFilterConfig_Allowlist := URLFilterConfig_Allowlist c |}.

Definition WithAllowlist (patterns : list string) : URLFilterOption :=
  λ c, {| URLFilterConfig_Tripwire := URLFilterConfig_Tripwire c;
          URLFilterConfig_Blocklist := URLFilterConfig_Blocklist c;
          URLFilterConfig_Allowlist := URLFilterConfig_Allowlist c ++ patterns |}.

(** [matchesPattern]: an exact match, or a pattern [*.suffix] against the
    suffix itself or a host ending in [.suffix]. *)
Definition matchesPattern (urlHost pattern : string) : bool :=
  if String.eqb urlHost pattern then true
  else if strings_HasPrefix pattern "*." then
    let suffix := String.substring 2 (String.length pattern - 2) pattern in
    String.eqb urlHost suffix || strings_HasSuffix urlHost ("." +:+ suffix)
  else false.

Fixpoint matchesAnyPattern (urlHost : string) (patterns : list string) : bool :=
  match patterns with
  | [] => false
  | pattern :: rest =>
      if matchesPattern urlHost pattern then true else matchesAnyPattern urlHost rest
  end.

(** The body of the loop over the URLs found: the violation a URL gives
    rise to, if any.  A configured allowlist is the only list looked at. *)
Definition url_violation (config : URLFilterConfig) (u : string) : option string :=
  if (0 <? length (URLFilterConfig_Allowlist config))%nat then
    if negb (matchesAnyPattern u (URLFilterConfig_Allowlist config))
    then Some (u +:+ " (not in allowlist)")
    else None
  else if (0 <? length (URLFilterConfig_Blocklist config))%nat then
    if matchesAnyPattern u (URLFilterConfig_Blocklist config)
    then Some (u +:+ " (blocked)")
    else None
  else None.

Definition check_url (config : URLFilterConfig) (acc : list string * list string)
    (u : string) : list string * list string :=
  match url_violation config u with
  | Some violation => (acc.1 ++ [u], acc.2 ++ [violation])
  | None => acc
  end.

(** The configuration a list of options makes; the options apply in order. *)
Definition URLFilterConfig_of (opts : list URLFilterOption) : URLFilterConfig :=
  foldl (λ config opt, opt config)
    {| URLFilterConfig_Tripwire := true;
       URLFilterConfig_Blocklist := [];
       URLFilterConfig_Allowlist := [] |}
    opts.

(** *** pii.go *)

Record PIIPattern : Type := mkPIIPattern {
  PIIPattern_Name : string;
  PIIPattern_Pattern : Regexp
}.

Definition EmailPattern : PIIPattern :=
  {| PIIPattern_Name := "email";
     PIIPattern_Pattern := "\b[A-Za-z0-9._%+-]+@[A-Za-z0-9.-]+\.[A-Z|a-z]{2,}\b" |}.

Definition PhonePattern : PIIPattern :=
  {| PIIPattern_Name := "phone";
     PIIPattern_Pattern := "\b(\+\d{1,2}\s?)?(\(?\d{3}\)?[\s.-]?)?\d{3}[\s.-]?\d{4}\b" |}.

Definition SSNPattern : PIIPattern :=
  {| PIIPattern_Name := "ssn";
     PIIPattern_Pattern := "\b\d{3}-\d{2}-\d{4}\b" |}.

Definition CreditCardPattern : PIIPattern :=
  {| PIIPattern_Name := "credit_card";
     PIIPattern_Pattern := "\b\d{4}[\s-]?\d{4}[\s-]?\d{4}[\s-]?\d{4}\b" |}.

Record PIIConfig : Type := mkPIIConfig {
  PIIConfig_Tripwire : bool;
  PIIConfig_DetectEmail : bool;
  PIIConfig_DetectPhone : bool;
  PIIConfig_DetectSSN : bool;
  PIIConfig_DetectCreditCard : bool;
  PIIConfig_CustomPatterns : list PIIPattern
}.

Definition PIIOption : Type := PIIConfig → PIIConfig.

Definition WithTripwire (enabled : bool) : PIIOption :=
  λ c, mkPIIConfig enabled (PIIConfig_DetectEmail c) (PIIConfig_DetectPhone c)
         (PIIConfig_DetectSSN c) (PIIConfig_DetectCreditCard c) (PIIConfig_CustomPatterns c).

Definition WithEmailDetection (enabled : bool) : PIIOption :=
  λ c, mkPIIConfig (PIIConfig_Tripwire c) enabled (PIIConfig_DetectPhone c)
         (PIIConfig_DetectSSN c) (PIIConfig_DetectCreditCard c) (PIIConfig_CustomPatterns c).

Definition WithPhoneDetection (enabled : bool) : PIIOption :=
  λ c, mkPIIConfig (PIIConfig_Tripwire c) (PIIConfig_DetectEmail c) enabled
         (PIIConfig_DetectSSN c) (PIIConfig_DetectCreditCard c) (PIIConfig_CustomPatterns c).

Definition WithSSNDetection (enabled : bool) : PIIOption :=
  λ c, mkPIIConfig (PIIConfig_Tripwire c) (PIIConfig_DetectEmail c) (PIIConfig_DetectPhone c)
         enabled (PIIConfig_DetectCreditCard c) (PIIConfig_CustomPatterns c).

Definition WithCreditCardDetection (enabled : bool) : PIIOption :=
  λ c, mkPIIConfig (PIIConfig_Tripwire c) (PIIConfig_DetectEmail c) (PIIConfig_DetectPhone c)
         (PIIConfig_DetectSSN c) enabled (PIIConfig_CustomPatterns c).

Definition WithCustomPattern (name : string) (pattern : Regexp) : PIIOption :=
  λ c, mkPIIConfig (PIIConfig_Tripwire c) (PIIConfig_DetectEmail c) (PIIConfig_DetectPhone c)
         (PIIConfig_DetectSSN c) (PIIConfig_DetectCreditCard c)
         (PIIConfig_CustomPatterns c ++ [mkPIIPattern name pattern]).

Definition PIIConfig_of (opts : list PIIOption) : PIIConfig :=
  foldl (λ config opt, opt config) (mkPIIConfig true true true true true []) opts.

(** The pattern list the guardrail builds from its configuration. *)
Definition PII_patterns (config : PIIConfig) : list PIIPattern :=
  (if PIIConfig_DetectEmail config then [EmailPattern] else [])
  ++ (if PIIConfig_DetectPhone config then [PhonePattern] else [])
  ++ (if PIIConfig_DetectSSN config then [SSNPattern] else [])
  ++ (if PIIConfig_DetectCreditCard config then [CreditCardPattern] else [])
  ++ PIIConfig_CustomPatterns config.

(** *** regex.go *)

Record RegexConfig : Type := mkRegexConfig {
  RegexConfig_Pattern : Regexp;
  RegexConfig_MustMatch : bool;
  RegexConfig_Tripwire : bool;
  RegexConfig_Message : string
}.

Definition RegexOption : Type := RegexConfig → RegexConfig.

Definition WithRegexTripwire (enabled : bool) : RegexOption :=
  λ c, mkRegexConfig (RegexConfig_Pattern c) (RegexConfig_MustMatch c) enabled
         (RegexConfig_Message c).

Definition WithMustMatch (must : bool) : RegexOption :=
  λ c, mkRegexConfig (RegexConfig_Pattern c) must (RegexConfig_Tripwire c)
         (RegexConfig_Message c).

Definition WithRegexMessage (msg : string) : RegexOption :=
  λ c, mkRegexConfig (RegexConfig_Pattern c) (RegexConfig_MustMatch c)
         (RegexConfig_Tripwire c) msg.

Definition RegexConfig_of (compiled : Regexp) (opts : list RegexOption) : RegexConfig :=
  foldl (λ config opt, opt config)
    (mkRegexConfig compiled false true "Pattern validation failed") opts.

Section Builtin.
Context `{TextLibs}.

(** [extractURLs]: per word, the host of a parsed URL that has a scheme and
    a host, and then, for a word that mentions one of four top-level
    domains, what is left of it without scheme and path. *)
Definition extractURLs_word (word : string) : list string :=
  (match url_Parse word with
   | inl (Scheme, Host) =>
       if negb (String.eqb Scheme "") && negb (String.eqb Host "") then [Host] else []
   | inr _ => []
   end)
  ++ (if strings_Contains word ".com" || strings_Contains word ".org"
         || strings_Contains word ".net" || strings_Contains word ".io"
      then
        let cleaned := strings_TrimPrefix word "http://" in
        let cleaned := strings_TrimPrefix cleaned "https://" in
        let cleaned := strings_Split_0 cleaned "/"%char in
        if negb (String.eqb cleaned "") && strings_Contains cleaned "." then [cleaned]
        else []
      else []).

Definition extractURLs (text : string) : list string :=
  flat_map extractURLs_word (strings_Fields text).

Definition NewURLFilterGuardrail (opts : list URLFilterOption) : Guardrail :=
  let config := URLFilterConfig_of opts in
  NewGuardrail "url_filter" (λ _ input,
    let urls := extractURLs input in
    if (length urls =? 0)%nat then
      (Some {| gr_Passed := true; gr_TripwireTriggered := false;
               gr_Message := "No URLs found"; gr_Metadata := [] |}, None)
    else
      let '(blocked, violations) := foldl (check_url config) ([], []) urls in
      if (0 <? length blocked)%nat then
        (Some {| gr_Passed := false;
                 gr_TripwireTriggered := URLFilterConfig_Tripwire config;
                 gr_Message := "Blocked URLs: " +:+ String.concat ", " violations;
                 gr_Metadata := [("blocked_urls", AnyOther (fmt_strings blocked));
                                 ("total_urls", AnyOther (pretty (length urls)))] |},
         None)
      else
        (Some {| gr_Passed := true; gr_TripwireTriggered := false;
                 gr_Message := "All URLs passed validation"; gr_Metadata := [] |}, None)).

Definition NewPIIGuardrail (opts : list PIIOption) : Guardrail :=
  let config := PIIConfig_of opts in
  NewGuardrail "pii_detection" (λ _ input,
    let patterns := PII_patterns config in
    let detected :=
      foldl (λ detected pattern,
               if regexp_MatchString (PIIPattern_Pattern pattern) input
               then detected ++ [PIIPattern_Name pattern]
               else detected)
            [] patterns in
    if (0 <? length detected)%nat then
      (Some {| gr_Passed := false;
               gr_TripwireTriggered := PIIConfig_Tripwire config;
               gr_Message := "Detected PII: " +:+ String.concat ", " detected;
               gr_Metadata := [("detected_types", AnyOther (fmt_strings detected))] |},
       None)
    else
      (Some {| gr_Passed := true; gr_TripwireTriggered := false;
               gr_Message := "No PII detected"; gr_Metadata := [] |}, None)).

(** [NewRegexGuardrail] panics when the pattern does not compile. *)
Definition NewRegexGuardrail (pattern : string) (opts : list RegexOption) : exec Guardrail :=
  if regexp_compiles pattern then
    let config := RegexConfig_of pattern opts in
    Done (NewGuardrail "regex_validation" (λ _ input,
      let matches := regexp_MatchString (RegexConfig_Pattern config) input in
      let passed := (RegexConfig_MustMatch config && matches)
                    || (negb (RegexConfig_MustMatch config) && negb matches) in
      if negb passed then
        let msg :=
          if String.eqb (RegexConfig_Message config) "Pattern validation failed" then
            if RegexConfig_MustMatch config then "Input does not match required pattern"
            else "Input matches forbidden pattern"
          else RegexConfig_Message config in
        (Some {| gr_Passed := false;
                 gr_TripwireTriggered := RegexConfig_Tripwire config;
                 gr_Message := msg;
                 gr_Metadata :=
                   [("pattern", AnyString (RegexConfig_Pattern config));
                    ("must_match", AnyOther (fmt_bool (RegexConfig_MustMatch config)));
                    ("input_match", AnyOther (fmt_bool matches))] |},
         None)
      else
        (Some {| gr_Passed := true; gr_TripwireTriggered := false;
                 gr_Message := "Pattern validation passed"; gr_Metadata := [] |}, None)))
  else Panic ("regexp: Compile(" +:+ pattern +:+ ")").
End Builtin.

(** A toy text library for the examples: words are separated by single
    spaces, a URL is a word that starts with https://, and a regular
    expression matches the inputs that contain its source. *)
Fixpoint example_Fields_from (word text : string) : list string :=
  match text with
  | EmptyString => if String.eqb word "" then [] else [word]
  | String c rest =>
      if Ascii.eqb c " "%char then
        (if String.eqb word "" then [] else [word]) ++ example_Fields_from "" rest
      else example_Fields_from (word +:+ String c EmptyString) rest
  end.

Definition example_TextLibs : TextLibs :=
  {| regexp_compiles := λ pattern, negb (strings_HasPrefix pattern "(");
     regexp_MatchString := λ re input, strings_Contains input re;
     strings_Fields := example_Fields_from "";
     url_Parse := λ word,
       if strings_HasPrefix word "https://"
       then inl ("https", strings_Split_0 (strings_TrimPrefix word "https://") "/"%char)
       else inl ("", "") |}.
(* ********************************************************************* *)
(** * Properties *)
(* ********************************************************************* *)

(* ===================================================================== *)
(** ** The definitions at work *)
(* ===================================================================== *)

Example wrap_int_overflow : wrap_int (max_int + 1) = min_int.
Proof. reflexivity. Qed.

Example truncate_id_long :
  truncate_id "call_0123456789012345678901234567890123456789"
  = "call_01234567890123456789012345678901234".
Proof. reflexivity. Qed.

Example ctx_Err_first_event :
  ctx_Err {| ctx_deadline := Some (5%Z, FromCaller); ctx_canceled_at := Some 3%Z |} 7
  = Some context_Canceled
  ∧ ctx_Err {| ctx_deadline := Some (5%Z, FromCaller); ctx_canceled_at := Some 6%Z |} 7
    = Some context_DeadlineExceeded
  ∧ ctx_Err (context_WithTimeout context_Background 0 5) 4 = None.
Proof. done. Qed.

(** The default configuration limits a run to ten turns. *)
Example default_config_limits_turns :
  (λ r, (run_outcome r, run_calls r)) <$> default_config_run
  = Some (Returned None (Some ErrMaxTurnsExceeded), 10%nat).
Proof. vm_compute. reflexivity. Qed.

(** Where the directory cannot be written, the durable backend reports a
    storage error and the session stays absent. *)
Example FileSession_Append_readonly :
  let '(fs, err) := @FileSession_Append example_Externals example_store readonly_FS
                      "s1" hello in
  err = Some (session_StorageError "s1" "write"
                (os_PathError "open" "/tmp/sessions/s1.json.tmp" EACCES))
  ∧ @FileSession_Get example_Externals example_store fs "s1"
    = inr (session_NotFoundError "s1").
Proof. vm_compute. done. Qed.

(* ===================================================================== *)
(** ** The session backends *)
(* ===================================================================== *)

Lemma MemorySession_Get_fresh (m : MemorySession) (id : string) :
  MemorySession_Get m id = inr (session_NotFoundError id) ↔ sessions m !! id = None.
Proof.
  unfold MemorySession_Get. destruct (sessions m !! id); split; congruence.
Qed.

Lemma MemorySession_Append_Get (m : MemorySession) (id : string) (ms : list Message) :
  MemorySession_Get (MemorySession_Append m id ms).1 id
  = inl (default [] (sessions m !! id) ++ ms).
Proof.
  unfold MemorySession_Append, MemorySession_Get; cbn.
  rewrite lookup_insert_eq.
  destruct (sessions m !! id) as [old|] eqn:Hold; cbn.
  - by rewrite Hold.
  - by rewrite lookup_insert_eq.
Qed.

Lemma MemorySession_Append_lookup (m : MemorySession) (id : string) (ms : list Message) :
  sessions (MemorySession_Append m id ms).1 !! id
  = Some (default [] (sessions m !! id) ++ ms).
Proof.
  pose proof (MemorySession_Append_Get m id ms) as HG.
  unfold MemorySession_Get in HG.
  destruct (sessions (MemorySession_Append m id ms).1 !! id); congruence.
Qed.

Lemma string_length_app (s1 s2 : string) :
  String.length (s1 +:+ s2) = String.length s1 + String.length s2.
Proof. induction s1 as [|c s1 IH]; [done | exact (f_equal S IH)]. Qed.

Lemma tempPath_neq (p : string) : p +:+ ".tmp" ≠ p.
Proof.
  intros Heq. apply (f_equal String.length) in Heq.
  rewrite string_length_app in Heq. cbn in Heq. lia.
Qed.

Section FileSessionFacts.
Context `{Externals}.

(** A session is absent exactly when its file is. *)
Lemma FileSession_Get_NotFound (f : FileSession) (fs : FS) (id : string) :
  FileSession_Get f fs id = inr (session_NotFoundError id)
  ↔ fs_files fs !! sessionPath f id = None.
Proof.
  unfold FileSession_Get, os_ReadFile.
  destruct (fs_files fs !! sessionPath f id) as [data|]; cbn.
  - split; [|done]. destruct (fs_can_read fs _); cbn.
    + destruct (json_Unmarshal data); congruence.
    + congruence.
  - done.
Qed.

(** What a successful atomic write leaves behind. *)
Lemma writeAtomic_ok (f : FileSession) (fs fs' : FS) (id : string) (ms : list Message) :
  writeAtomic f fs id ms = (fs', None) →
  ∃ data, json_MarshalIndent ms = inl data
          ∧ fs_files fs' !! sessionPath f id = Some data
          ∧ fs_can_read fs' = fs_can_read fs
          ∧ fs_can_write fs' = fs_can_write fs.
Proof.
  unfold writeAtomic, os_WriteFile, os_Rename.
  destruct (json_MarshalIndent ms) as [data|err]; [|congruence].
  destruct (fs_can_write fs (sessionPath f id +:+ ".tmp")); [|congruence].
  cbn. rewrite lookup_insert_eq.
  destruct (fs_can_write fs (sessionPath f id)); cbn; [|congruence].
  intros [= <-]. exists data. cbn. by rewrite lookup_insert_eq.
Qed.

(** An atomic write goes through when the codec accepts the list and both
    the temporary and the final path may be written. *)
Lemma writeAtomic_succeeds (f : FileSession) (fs : FS) (id : string)
    (ms : list Message) (data : string) :
  json_MarshalIndent ms = inl data →
  fs_can_write fs (sessionPath f id +:+ ".tmp") = true →
  fs_can_write fs (sessionPath f id) = true →
  ∃ fs', writeAtomic f fs id ms = (fs', None).
Proof.
  intros Hm Ht Hp. unfold writeAtomic, os_WriteFile, os_Rename.
  rewrite Hm, Ht. cbn. rewrite lookup_insert_eq, Hp. eauto.
Qed.

Lemma FileSession_Get_after_write (f : FileSession) (fs : FS) (id : string)
    (ms : list Message) (data : string) :
  json_roundtrip →
  json_MarshalIndent ms = inl data →
  fs_files fs !! sessionPath f id = Some data →
  fs_can_read fs (sessionPath f id) = true →
  FileSession_Get f fs id = inl ms.
Proof.
  intros Hrt Hm Hfile Hread. unfold FileSession_Get, os_ReadFile.
  rewrite Hfile, Hread. by rewrite (Hrt _ _ Hm).
Qed.

(** Appending to a store that can be read back lengthens what [Get] yields. *)
Lemma FileSession_Append_Get (f : FileSession) (fs fs' : FS) (id : string)
    (old ms : list Message) :
  json_roundtrip →
  FileSession_Get f fs id = inl old →
  FileSession_Append f fs id ms = (fs', None) →
  FileSession_Get f fs' id = inl (old ++ ms).
Proof.
  intros Hrt Hget Happ.
  unfold FileSession_Get, FileSession_Append, os_ReadFile in *.
  destruct (fs_files fs !! sessionPath f id) as [data|] eqn:Hfile; cbn in *; [|done].
  destruct (fs_can_read fs (sessionPath f id)) eqn:Hread; cbn in *; [|done].
  destruct (json_Unmarshal data) as [existing|]; [|done].
  injection Hget as ->.
  apply writeAtomic_ok in Happ as (data' & Hm & Hfile' & Hr & _).
  rewrite Hfile', Hr, Hread. by rewrite (Hrt _ _ Hm).
Qed.

(** The first append to an absent session creates it. *)
Lemma FileSession_Append_fresh (f : FileSession) (fs fs' : FS) (id : string)
    (ms : list Message) :
  fs_files fs !! sessionPath f id = None →
  FileSession_Append f fs id ms = (fs', None) →
  ∃ data, json_MarshalIndent ms = inl data
          ∧ fs_files fs' !! sessionPath f id = Some data
          ∧ fs_can_read fs' = fs_can_read fs.
Proof.
  intros Hfile Happ. unfold FileSession_Append, os_ReadFile in Happ.
  rewrite Hfile in Happ. cbn in Happ.
  apply writeAtomic_ok in Happ as (data & Hm & Hfile' & Hr & _). eauto.
Qed.
End FileSessionFacts.

Lemma example_roundtrip : @json_roundtrip example_Externals.
Proof.
  intros ms data. cbn. unfold example_Marshal, example_Unmarshal.
  repeat case_decide; intros [= <-]; subst; try done.
Qed.

(** Where the directory can be written and the codec accepts the lists, the
    durable backend's append does go through. *)
Lemma FileSession_Append_succeeds `{Externals} (f : FileSession) (fs : FS)
    (id : string) (old ms : list Message) (data : string) :
  FileSession_Get f fs id = inl old
  ∨ FileSession_Get f fs id = inr (session_NotFoundError id) ∧ old = [] →
  json_MarshalIndent (old ++ ms) = inl data →
  fs_can_write fs (sessionPath f id +:+ ".tmp") = true →
  fs_can_write fs (sessionPath f id) = true →
  ∃ fs', FileSession_Append f fs id ms = (fs', None).
Proof.
  intros Hget Hm Ht Hp. unfold FileSession_Append.
  destruct Hget as [Hget | [Hget ->]].
  - unfold FileSession_Get in Hget.
    destruct (os_ReadFile fs (sessionPath f id)) as [d|e].
    + destruct (json_Unmarshal d); [|done]. injection Hget as ->.
      by eapply writeAtomic_succeeds.
    + by destruct (os_IsNotExist e).
  - apply FileSession_Get_NotFound in Hget. unfold os_ReadFile. rewrite Hget. cbn.
    by eapply writeAtomic_succeeds.
Qed.

(** C7. Session round trip, for both backends.  Starting from a store in
    which the identifier is absent, appending M1 and then M2 and then
    retrieving yields M1 ++ M2 in order; clearing an existing session and
    then retrieving yields the empty list; deleting an existing session and
    then retrieving yields the NotFound error.  For the volatile backend the
    operations cannot fail; for the durable backend the statement is about
    operations that report no storage error, with a JSON codec that reads
    back what it wrote. *)
Theorem session_round_trip `{Externals} :
  (∀ (m : MemorySession) (id : string) (M1 M2 : list Message),
      MemorySession_Get m id = inr (session_NotFoundError id) →
      let '(m1, e1) := MemorySession_Append m id M1 in
      let '(m2, e2) := MemorySession_Append m1 id M2 in
      e1 = None ∧ e2 = None ∧ MemorySession_Get m2 id = inl (M1 ++ M2))
  ∧ (∀ (m : MemorySession) (id : string) (ms : list Message),
      MemorySession_Get m id = inl ms →
      let '(m', e) := MemorySession_Clear m id in
      e = None ∧ MemorySession_Get m' id = inl [])
  ∧ (∀ (m : MemorySession) (id : string) (ms : list Message),
      MemorySession_Get m id = inl ms →
      let '(m', e) := MemorySession_Delete m id in
      e = None ∧ MemorySession_Get m' id = inr (session_NotFoundError id))
  ∧ (json_roundtrip →
     ∀ (f : FileSession) (fs fs1 fs2 : FS) (id : string) (M1 M2 : list Message),
      FileSession_Get f fs id = inr (session_NotFoundError id) →
      FileSession_Append f fs id M1 = (fs1, None) →
      FileSession_Append f fs1 id M2 = (fs2, None) →
      FileSession_Get f fs2 id = inl (M1 ++ M2))
  ∧ (json_roundtrip →
     ∀ (f : FileSession) (fs fs' : FS) (id : string) (ms : list Message),
      FileSession_Get f fs id = inl ms →
      FileSession_Clear f fs id = (fs', None) →
      FileSession_Get f fs' id = inl [])
  ∧ (∀ (f : FileSession) (fs fs' : FS) (id : string) (ms : list Message),
      FileSession_Get f fs id = inl ms →
      FileSession_Delete f fs id = (fs', None) →
      FileSession_Get f fs' id = inr (session_NotFoundError id)).
Proof.
  split_and!.
  - intros m id M1 M2 Hfresh. apply MemorySession_Get_fresh in Hfresh.
    pose proof (MemorySession_Append_Get (MemorySession_Append m id M1).1 id M2) as HG.
    rewrite MemorySession_Append_lookup, Hfresh in HG.
    unfold MemorySession_Append in *; cbn in *. done.
  - intros m id ms Hget. unfold MemorySession_Get, MemorySession_Clear in *.
    destruct (sessions m !! id); [cbn | done]. by rewrite lookup_insert_eq.
  - intros m id ms Hget. unfold MemorySession_Get, MemorySession_Delete in *.
    destruct (sessions m !! id); [cbn | done]. by rewrite lookup_delete_eq.
  - intros Hrt f fs fs1 fs2 id M1 M2 Hfresh H1 H2.
    apply FileSession_Get_NotFound in Hfresh.
    destruct (FileSession_Append_fresh _ _ _ _ _ Hfresh H1) as (d1 & Hm1 & Hf1 & Hr1).
    assert (Hread : fs_can_read fs1 (sessionPath f id) = true).
    { unfold FileSession_Append, os_ReadFile in H2. rewrite Hf1 in H2.
      destruct (fs_can_read fs1 (sessionPath f id)); [done | by cbn in H2]. }
    apply (FileSession_Append_Get f fs1 fs2 id M1 M2 Hrt); [|done].
    by eapply FileSession_Get_after_write.
  - intros Hrt f fs fs' id ms Hget Hclear.
    assert (Hread : fs_can_read fs (sessionPath f id) = true).
    { unfold FileSession_Get, os_ReadFile in Hget.
      destruct (fs_files fs !! sessionPath f id); [|done].
      by destruct (fs_can_read fs (sessionPath f id)). }
    assert (Hw : writeAtomic f fs id [] = (fs', None)).
    { unfold FileSession_Clear in Hclear.
      destruct (os_Stat fs (sessionPath f id)) as [e|]; [|done].
      by destruct (os_IsNotExist e). }
    apply writeAtomic_ok in Hw as (d & Hm & Hf & Hr & _).
    eapply FileSession_Get_after_write; [done..|]. by rewrite Hr.
  - intros f fs fs' id ms _ Hdel.
    apply FileSession_Get_NotFound.
    unfold FileSession_Delete, os_Stat, os_Remove in Hdel.
    destruct (fs_files fs !! sessionPath f id) eqn:Hf; cbn in Hdel; [|done].
    destruct (fs_can_write fs (sessionPath f id)); [|done].
    injection Hdel as <-. cbn. apply lookup_delete_eq.
Qed.

Lemma session_round_trip_witness :
  let m0 := NewMemorySession in
  let m2 := (MemorySession_Append (MemorySession_Append m0 "s1" hello).1 "s1" world).1 in
  let fs1 := (@FileSession_Append example_Externals example_store empty_FS "s1" hello).1 in
  let fs2 := (@FileSession_Append example_Externals example_store fs1 "s1" world).1 in
  let fs3 := (@FileSession_Clear example_Externals example_store fs2 "s1").1 in
  let fs4 := (@FileSession_Delete example_Externals example_store fs2 "s1").1 in
  MemorySession_Get m2 "s1" = inl (hello ++ world)
  ∧ MemorySession_Get (MemorySession_Clear m2 "s1").1 "s1" = inl []
  ∧ MemorySession_Get (MemorySession_Delete m2 "s1").1 "s1" = inr (session_NotFoundError "s1")
  ∧ @FileSession_Get example_Externals example_store fs2 "s1" = inl (hello ++ world)
  ∧ @FileSession_Get example_Externals example_store fs3 "s1" = inl []
  ∧ @FileSession_Get example_Externals example_store fs4 "s1"
    = inr (session_NotFoundError "s1").
Proof.
  intros m0 m2 fs1 fs2 fs3 fs4.
  destruct (@session_round_trip example_Externals) as (Hm & Hc & Hd & Hf & Hfc & Hfd).
  split_and!.
  - apply (Hm m0 "s1" hello world). vm_compute. reflexivity.
  - apply (Hc m2 "s1" (hello ++ world)). vm_compute. reflexivity.
  - apply (Hd m2 "s1" (hello ++ world)). vm_compute. reflexivity.
  - apply (Hf example_roundtrip example_store empty_FS fs1 fs2 "s1" hello world);
      vm_compute; reflexivity.
  - apply (Hfc example_roundtrip example_store fs2 fs3 "s1" (hello ++ world));
      vm_compute; reflexivity.
  - apply (Hfd example_store fs2 fs4 "s1" (hello ++ world)); vm_compute; reflexivity.
Defined.

(* ===================================================================== *)
(** ** The loop: one turn, and invariants *)
(* ===================================================================== *)

Lemma wrap_int_id (z : Z) : in_int z → wrap_int z = z.
Proof.
  unfold in_int, wrap_int, min_int, max_int, int_bits. intros Hz.
  rewrite Z.mod_small; lia.
Qed.

Lemma truncate_ToolCalls_nil (m : ChatCompletionMessage) :
  (length (ccm_ToolCalls (truncate_tool_call_ids m)) =? 0)%nat = true ↔ ccm_ToolCalls m = [].
Proof.
  cbn. rewrite length_map, Nat.eqb_eq. by destruct (ccm_ToolCalls m).
Qed.

Section Loop.
Context (E : Env) (ctx : Context) (config : RunConfig).

(** A turn that goes round again: a response with tool calls, all handled. *)
Lemma run_turn_Continue (st st' : LoopState) :
  run_turn E ctx config st = Continue st' →
  let agent := heap E (ls_currentAgent st) in
  ∃ req completion choice rest tl,
    limit_reached config st = false
    ∧ ctx_Err ctx (time_at_turn E (ls_calls st)) = None
    ∧ prepareRequest E ctx agent config (map ToParam (Agent_Tools agent)) (ls_history st)
      = inl req
    ∧ Completions_New E (ls_calls st) req = inl completion
    ∧ Completion_Choices completion = choice :: rest
    ∧ ccm_ToolCalls choice ≠ []
    ∧ handleToolCalls E (ccm_ToolCalls (truncate_tool_call_ids choice))
        (build_toolMap (Agent_Tools agent)) (ls_contextParams st) (ls_currentAgent st)
      = Done tl
    ∧ st' = {| ls_history := (ls_history st
                              ++ [AssistantMessage (truncate_tool_call_ids choice)])
                             ++ tl_messages tl;
               ls_usage := track_usage (ls_usage st) completion;
               ls_steps := ls_steps st
                           ++ [{| Step_AgentName := Agent_Name agent;
                                  Step_ToolCalls := tl_recordedToolCalls tl;
                                  Step_StepNumber := wrap_int (ls_turnCount st + 1) |}];
               ls_turnCount := wrap_int (ls_turnCount st + 1);
               ls_currentAgent := tl_nextAgent tl;
               ls_contextParams := tl_contextParams tl;
               ls_calls := S (ls_calls st);
               ls_completions := ls_completions st ++ [completion] |}.
Proof.
  unfold run_turn.
  destruct (limit_reached config st); [done|].
  destruct (ctx_Err ctx _) as [[]|]; try done.
  destruct (prepareRequest _ _ _ _ _ _) as [req|]; [|done].
  destruct (Completions_New E _ req) as [completion|] eqn:Hc; [|done].
  destruct (Completion_Choices completion) as [|choice rest] eqn:Hch; [done|].
  destruct (length _ =? 0)%nat eqn:Hlen; [done|].
  destruct (handleToolCalls _ _ _ _ _) as [tl|] eqn:Htl; [|done].
  intros [= <-]. exists req, completion, choice, rest, tl.
  split_and!; try done.
  intros Hnil. apply truncate_ToolCalls_nil in Hnil. congruence.
Qed.

(** A turn that leaves by [break]: a response without tool calls. *)
Lemma run_turn_Break (st st' : LoopState) (lastMessage : ChatCompletionMessage) :
  run_turn E ctx config st = Exit (LoopBreak st' lastMessage) →
  let agent := heap E (ls_currentAgent st) in
  ∃ req completion choice rest,
    limit_reached config st = false
    ∧ ctx_Err ctx (time_at_turn E (ls_calls st)) = None
    ∧ Completions_New E (ls_calls st) req = inl completion
    ∧ Completion_Choices completion = choice :: rest
    ∧ ccm_ToolCalls choice = []
    ∧ lastMessage = truncate_tool_call_ids choice
    ∧ st' = {| ls_history := ls_history st ++ [AssistantMessage lastMessage];
               ls_usage := track_usage (ls_usage st) completion;
               ls_steps := ls_steps st
                           ++ [{| Step_AgentName := Agent_Name agent;
                                  Step_ToolCalls := [];
                                  Step_StepNumber := wrap_int (ls_turnCount st + 1) |}];
               ls_turnCount := wrap_int (ls_turnCount st + 1);
               ls_currentAgent := ls_currentAgent st;
               ls_contextParams := ls_contextParams st;
               ls_calls := S (ls_calls st);
               ls_completions := ls_completions st ++ [completion] |}.
Proof.
  unfold run_turn.
  destruct (limit_reached config st); [done|].
  destruct (ctx_Err ctx _) as [[]|]; try done.
  destruct (prepareRequest _ _ _ _ _ _) as [req|]; [|done].
  destruct (Completions_New E _ req) as [completion|] eqn:Hc; [|done].
  destruct (Completion_Choices completion) as [|choice rest] eqn:Hch; [done|].
  destruct (length _ =? 0)%nat eqn:Hlen.
  - intros [= <- <-]. exists req, completion, choice, rest.
    split_and!; try done. by apply truncate_ToolCalls_nil.
  - by destruct (handleToolCalls _ _ _ _ _).
Qed.

(** What holds at the start and is kept by every turn that goes round again,
    holds of the state in which the loop is left. *)
Lemma run_loop_inv (P : LoopState → Prop) :
  (∀ st st', P st → run_turn E ctx config st = Continue st' → P st') →
  ∀ fuel st e,
    P st → run_loop fuel E ctx config st = Some e →
    ∃ st', P st' ∧ run_turn E ctx config st' = Exit e.
Proof.
  intros Hstep fuel. induction fuel as [|fuel IH]; intros st e HP Hrun; [done|].
  cbn in Hrun. destruct (run_turn E ctx config st) as [st1|e1] eqn:Hturn.
  - eapply IH; [|done]. by eapply Hstep.
  - injection Hrun as <-. eauto.
Qed.

End Loop.

(* ===================================================================== *)
(** ** Run, as its three phases *)
(* ===================================================================== *)

Section RunFacts.
Context {S : Type} `{Session S}.
Context (E : Env) (ctx : Context) (agent : AgentPtr) (messages : list Message)
  (contextParams : option ContextVariables) (config : option RunConfig)
  (session : option S) (sessionID : string).

Lemma Run_inv (fuel : nat) (r : RunEnd S) :
  Run fuel E ctx agent messages contextParams config session sessionID = Some r →
  Run_prelude E ctx agent messages contextParams config session sessionID = inl r
  ∨ ∃ ctx' config' st0 e,
      Run_prelude E ctx agent messages contextParams config session sessionID
      = inr (ctx', config', st0)
      ∧ run_loop fuel E ctx' config' st0 = Some e
      ∧ r = Run_after_loop E ctx' agent session sessionID e.
Proof.
  unfold Run.
  destruct (Run_prelude _ _ _ _ _ _ _ _) as [r0|[[ctx' config'] st0]].
  - intros [= <-]. by left.
  - destruct (run_loop _ _ _ _ _) as [e|] eqn:Hloop; [|done].
    intros [= <-]. right. by exists ctx', config', st0, e.
Qed.

(** A run that ends before its loop returns no Result and has made no call. *)
Lemma Run_prelude_early (r : RunEnd S) :
  Run_prelude E ctx agent messages contextParams config session sessionID = inl r →
  run_calls r = 0%nat ∧ run_completions r = []
  ∧ ((∃ err, run_outcome r = Returned None (Some err)) ∨ ∃ why, run_outcome r = Panicked why).
Proof.
  unfold Run_prelude.
  destruct (length messages =? 0)%nat; [intros [= <-]; cbn; eauto|].
  destruct (match Agent_OnBeforeRun _ with Some _ => _ | None => _ end);
    [intros [= <-]; cbn; eauto|].
  destruct (if _ && _ then _ else _) as [[err|]|why]; try (intros [= <-]; cbn; by eauto).
  destruct (load_session _ _ _); [done|]. intros [= <-]; cbn; eauto.
Qed.

(** The state in which the loop starts. *)
Lemma Run_prelude_start (ctx' : Context) (config' : RunConfig) (st0 : LoopState) :
  Run_prelude E ctx agent messages contextParams config session sessionID
  = inr (ctx', config', st0) →
  config' = default DefaultRunConfig config
  ∧ ctx' = run_context E ctx config'
  ∧ messages ≠ []
  ∧ load_session session sessionID messages = inl (ls_history st0)
  ∧ ls_usage st0 = mkUsage 0 0 0
  ∧ ls_steps st0 = []
  ∧ ls_turnCount st0 = 0%Z
  ∧ ls_currentAgent st0 = agent
  ∧ ls_calls st0 = 0%nat
  ∧ ls_completions st0 = [].
Proof.
  unfold Run_prelude.
  destruct messages as [|m ms] eqn:Hm; [done|].
  destruct (length (m :: ms) =? 0)%nat; [done|].
  destruct (match Agent_OnBeforeRun _ with Some _ => _ | None => _ end); [done|].
  destruct (if _ && _ then _ else _) as [[err|]|why]; try done.
  destruct (load_session _ _ _) as [loaded|]; [|done].
  intros [= <- <- <-]. by split_and!.
Qed.

Lemma Run_finish_calls (ctx' : Context) (st : LoopState)
    (lastMessage : ChatCompletionMessage) :
  let r := Run_finish E ctx' agent session sessionID st lastMessage in
  run_calls r = ls_calls st ∧ run_completions r = ls_completions st.
Proof.
  unfold Run_finish.
  destruct (check_output _ _ _ _) as [[e|]|]; try done.
  destruct (save_session _ _ _) as [s' [e|]]; try done.
  by destruct (after_hook _ _ _).
Qed.

Lemma Run_finish_Result (ctx' : Context) (st : LoopState)
    (lastMessage : ChatCompletionMessage) (result : Result) (err : option error) :
  run_outcome (Run_finish E ctx' agent session sessionID st lastMessage)
  = Returned (Some result) err →
  result = build_Result st lastMessage.
Proof.
  unfold Run_finish.
  destruct (check_output _ _ _ _) as [[e|]|]; cbn; try congruence.
  destruct (save_session _ _ _) as [s' [e|]]; cbn; try congruence.
  destruct (after_hook _ _ _); cbn; congruence.
Qed.

(** Run returns a Result only from the [break] of its loop. *)
Lemma Run_Result_inv (fuel : nat) (r : RunEnd S) (result : Result) (err : option error) :
  Run fuel E ctx agent messages contextParams config session sessionID = Some r →
  run_outcome r = Returned (Some result) err →
  ∃ ctx' config' st0 st lastMessage,
    Run_prelude E ctx agent messages contextParams config session sessionID
    = inr (ctx', config', st0)
    ∧ run_loop fuel E ctx' config' st0 = Some (LoopBreak st lastMessage)
    ∧ r = Run_finish E ctx' agent session sessionID st lastMessage
    ∧ result = build_Result st lastMessage
    ∧ run_calls r = ls_calls st
    ∧ run_completions r = ls_completions st.
Proof.
  intros Hrun Hout.
  apply Run_inv in Hrun as [Hearly | (ctx' & config' & st0 & e & Hp & Hl & ->)].
  - apply Run_prelude_early in Hearly as (_ & _ & [[e He] | [w Hw]]); congruence.
  - destruct e as [st lastMessage | st e | st why]; cbn in Hout; try done.
    exists ctx', config', st0, st, lastMessage.
    pose proof (Run_finish_calls ctx' st lastMessage) as [Hc Hcs].
    pose proof (Run_finish_Result _ _ _ _ _ Hout) as Hres.
    by split_and!.
Qed.
End RunFacts.

(* ===================================================================== *)
(** ** Usage accumulation *)
(* ===================================================================== *)

Lemma foldl_track_usage (u : Usage) (cs : list Completion) :
  foldl track_usage u cs = foldl Usage_Add u (map reported_usage (counted cs)).
Proof.
  revert u. induction cs as [|c cs IH]; intros u; [done|].
  unfold counted in *. rewrite filter_cons. cbn [foldl]. rewrite IH.
  unfold track_usage.
  destruct (0 <? Completion_PromptTokens c)%Z eqn:Hp; case_decide; try done; lia.
Qed.

(** As long as the totals fit in an [int], the sum in Go's [int] is the sum
    in the integers. *)
Lemma foldl_Usage_Add_plain (a : Usage) (us : list Usage) :
  counts_within max_int a →
  Forall (counts_within max_int) us →
  (Usage_PromptTokens a + Usage_PromptTokens (plain_sum us) ≤ max_int)%Z →
  (Usage_CompletionTokens a + Usage_CompletionTokens (plain_sum us) ≤ max_int)%Z →
  (Usage_TotalTokens a + Usage_TotalTokens (plain_sum us) ≤ max_int)%Z →
  foldl Usage_Add a us
  = {| Usage_PromptTokens := Usage_PromptTokens a + Usage_PromptTokens (plain_sum us);
       Usage_CompletionTokens :=
         Usage_CompletionTokens a + Usage_CompletionTokens (plain_sum us);
       Usage_TotalTokens := Usage_TotalTokens a + Usage_TotalTokens (plain_sum us) |}.
Proof.
  intros Ha Hus. revert a Ha.
  induction Hus as [|u us Hu Hus IH]; intros a Ha Hp Hc Ht; cbn in *.
  - destruct a. cbn. f_equal; lia.
  - assert (Hnn : (0 ≤ Usage_PromptTokens (plain_sum us)
                   ∧ 0 ≤ Usage_CompletionTokens (plain_sum us)
                   ∧ 0 ≤ Usage_TotalTokens (plain_sum us))%Z).
    { clear -Hus. induction Hus as [|v vs Hv _ IHv]; cbn; [lia|].
      destruct Hv as (? & ? & ?). cbn in IHv. lia. }
    cbn in Hnn. destruct Ha as (? & ? & ?), Hu as (? & ? & ?).
    assert (Hw : ∀ z, (0 ≤ z ≤ max_int)%Z → wrap_int z = z).
    { intros z Hz. apply wrap_int_id. unfold in_int, min_int, max_int, int_bits in *. lia. }
    rewrite IH; unfold Usage_Add; cbn; rewrite ?Hw by lia.
    + f_equal; lia.
    + unfold counts_within; cbn. lia.
    + lia.
    + lia.
    + lia.
Qed.

Lemma sum_usage_plain (us : list Usage) :
  Forall (counts_within max_int) us →
  counts_within max_int (plain_sum us) →
  sum_usage us = plain_sum us.
Proof.
  intros Hus (Hp & Hc & Ht). unfold sum_usage.
  rewrite foldl_Usage_Add_plain.
  all: cbn [Usage_PromptTokens Usage_CompletionTokens Usage_TotalTokens].
  - by destruct (plain_sum us).
  - unfold counts_within, max_int, int_bits. cbn. lia.
  - done.
  - lia.
  - lia.
  - lia.
Qed.

(** Every turn adds the usage of the response it received. *)
Lemma loop_usage (E : Env) (ctx : Context) (config : RunConfig) (fuel : nat)
    (st0 st : LoopState) (lastMessage : ChatCompletionMessage) :
  ls_usage st0 = foldl track_usage (mkUsage 0 0 0) (ls_completions st0) →
  run_loop fuel E ctx config st0 = Some (LoopBreak st lastMessage) →
  ls_usage st = foldl track_usage (mkUsage 0 0 0) (ls_completions st).
Proof.
  intros H0 Hrun.
  apply (run_loop_inv E ctx config
           (λ s, ls_usage s = foldl track_usage (mkUsage 0 0 0) (ls_completions s)))
    in Hrun as (st1 & HP & Hexit); [|clear Hrun|done].
  - apply run_turn_Break in Hexit as (req & c & choice & rest & _ & _ & _ & _ & _ & _ & ->).
    cbn. by rewrite foldl_app, <- HP.
  - intros s s' HP Hturn.
    apply run_turn_Continue in Hturn as (req & c & choice & rest & tl & _ & _ & _ & _ & _ & _ & _ & ->).
    cbn. by rewrite foldl_app, <- HP.
Qed.

(** C9, as amended.  For every run that returns a Result, the Result's Usage
    is the component-wise sum, in Go's [int], of the token counts reported by
    those completion-service calls of the run that reported a positive
    prompt-token count; a response reporting no prompt tokens adds nothing.
    In particular two turns reporting (10,5,15) and (20,8,28) yield the
    total (30,13,43). *)
Theorem usage_sums_counted_calls {S : Type} `{Session S} (fuel : nat) (E : Env)
    (ctx : Context) (agent : AgentPtr) (messages : list Message)
    (contextParams : option ContextVariables) (config : option RunConfig)
    (session : option S) (sessionID : string)
    (r : RunEnd S) (result : Result) (err : option error) :
  Run fuel E ctx agent messages contextParams config session sessionID = Some r →
  run_outcome r = Returned (Some result) err →
  Result_Usage result = sum_usage (map reported_usage (counted (run_completions r)))
  ∧ (map token_counts (run_completions r) = [(10, 5, 15); (20, 8, 28)]%Z →
     Result_Usage result = mkUsage 30 13 43).
Proof.
  intros Hrun Hout.
  destruct (Run_Result_inv _ _ _ _ _ _ _ _ _ _ _ _ Hrun Hout)
    as (ctx' & config' & st0 & st & lastMessage & Hp & Hl & _ & -> & _ & Hcs).
  apply Run_prelude_start in Hp as (_ & _ & _ & _ & Hu & _ & _ & _ & _ & Hc0).
  assert (Hsum : Result_Usage (build_Result st lastMessage)
                 = sum_usage (map reported_usage (counted (run_completions r)))).
  { cbn. rewrite Hcs. unfold sum_usage. rewrite <- foldl_track_usage.
    eapply loop_usage; [|done]. by rewrite Hu, Hc0. }
  split; [done|].
  intros Htok. rewrite Hsum.
  destruct (run_completions r) as [|[p1 c1 t1 ch1] [|[p2 c2 t2 ch2] [|]]]; try done.
  injection Htok as -> -> -> -> -> ->. reflexivity.
Qed.

Lemma usage_sums_counted_calls_witness :
  ∃ r result,
    handoff_run = Some r
    ∧ run_outcome r = Returned (Some result) None
    ∧ map token_counts (run_completions r) = [(10, 5, 15); (20, 8, 28)]%Z
    ∧ Result_Usage result = mkUsage 30 13 43.
Proof.
  eexists _, _.
  split; [vm_compute; reflexivity|].
  split; [reflexivity|].
  split; [reflexivity|].
  refine (proj2 (usage_sums_counted_calls 5 handoff_env context_Background 0%nat hello
                   None (Some no_limits) no_session "" _ _ None _ _) _);
    vm_compute; reflexivity.
Defined.

(** C9, as stated, fails: a response that reports no prompt tokens but five
    completion tokens is left out of the total. *)
Lemma usage_misses_call_without_prompt_tokens :
  ∃ r result,
    zero_prompt_run = Some r
    ∧ run_outcome r = Returned (Some result) None
    ∧ map token_counts (run_completions r) = [(0, 5, 5)]%Z
    ∧ Result_Usage result = mkUsage 0 0 0
    ∧ Result_Usage result ≠ sum_usage (map reported_usage (run_completions r)).
Proof.
  eexists _, _.
  split; [vm_compute; reflexivity|].
  split; [reflexivity|].
  split; [reflexivity|].
  split; [reflexivity|].
  vm_compute. discriminate.
Qed.

(* ===================================================================== *)
(** ** Tool calls *)
(* ===================================================================== *)


Section ToolCalls.
Context (E : Env) (toolMap : gmap string Tool).

(** One iteration, in full: it panics on a typed nil agent and on nothing
    else; otherwise it records the call with the raw result, moves to the
    agent handed off to, and adds the tool output. *)
Lemma handleToolCall_inv (st : ToolLoop) (tc : ToolCallRequest) :
  let '(vars, result, err) := call_tool E toolMap (tl_contextParams st) tc in
  let rec := record_call tc result err in
  match result with
  | AnyAgent None => ∃ why, handleToolCall E toolMap st tc = Panic why
  | _ =>
      handleToolCall E toolMap st tc
      = Done {| tl_messages := tl_messages st ++ [tool_message E tc rec];
                tl_recordedToolCalls := tl_recordedToolCalls st ++ [rec];
                tl_nextAgent := default (tl_nextAgent st) (handoff_target rec);
                tl_contextParams := vars |}
  end.
Proof.
  unfold handleToolCall.
  destruct (call_tool E toolMap (tl_contextParams st) tc) as [[vars result] err].
  destruct result as [| s | [p|] | s]; cbn; eauto.
Qed.

Lemma handleToolCall_Done (st st' : ToolLoop) (tc : ToolCallRequest) :
  handleToolCall E toolMap st tc = Done st' →
  ∃ vars result err,
    call_tool E toolMap (tl_contextParams st) tc = (vars, result, err)
    ∧ result ≠ AnyAgent None
    ∧ st' = {| tl_messages := tl_messages st ++ [tool_message E tc (record_call tc result err)];
               tl_recordedToolCalls := tl_recordedToolCalls st ++ [record_call tc result err];
               tl_nextAgent := default (tl_nextAgent st)
                                 (handoff_target (record_call tc result err));
               tl_contextParams := vars |}.
Proof.
  intros Hdone. pose proof (handleToolCall_inv st tc) as Hinv.
  destruct (call_tool E toolMap (tl_contextParams st) tc) as [[vars result] err].
  exists vars, result, err.
  destruct result as [| s | [p|] | s]; cbn in Hinv;
    try (rewrite Hinv in Hdone; injection Hdone as <-; by split_and!).
  destruct Hinv as [why Hp]. congruence.
Qed.

(** The whole batch: one record and one message per requested call, in the
    order of the request. *)
Lemma handleToolCalls_from_Done (tcs : list ToolCallRequest) (st st' : ToolLoop) :
  handleToolCalls_from E toolMap st tcs = Done st' →
  ∃ recs,
    tl_recordedToolCalls st' = tl_recordedToolCalls st ++ recs
    ∧ tl_messages st' = tl_messages st ++ zip_with (tool_message E) tcs recs
    ∧ length recs = length tcs
    ∧ tl_nextAgent st' = last_handoff (tl_nextAgent st) recs.
Proof.
  revert st. induction tcs as [|tc tcs IH]; intros st Hdone; cbn in Hdone.
  - injection Hdone as <-. exists []. by rewrite !app_nil_r.
  - destruct (handleToolCall E toolMap st tc) as [st1|] eqn:H1; [|done].
    apply handleToolCall_Done in H1 as (vars & result & err & _ & _ & ->).
    apply IH in Hdone as (recs & Hr & Hm & Hlen & Hn). cbn in *.
    exists (record_call tc result err :: recs). cbn.
    rewrite Hr, Hm, Hn, <- !app_assoc. split_and!; try done. by rewrite Hlen.
Qed.

Lemma handleToolCalls_Done (tcs : list ToolCallRequest) (vars : ContextVariables)
    (current : AgentPtr) (tl : ToolLoop) :
  handleToolCalls E tcs toolMap vars current = Done tl →
  tl_messages tl = zip_with (tool_message E) tcs (tl_recordedToolCalls tl)
  ∧ length (tl_recordedToolCalls tl) = length tcs
  ∧ tl_nextAgent tl = last_handoff current (tl_recordedToolCalls tl).
Proof.
  intros Hdone. apply handleToolCalls_from_Done in Hdone as (recs & Hr & Hm & Hlen & Hn).
  cbn in *. by rewrite Hr, Hm, Hn.
Qed.


End ToolCalls.

(* ===================================================================== *)
(** ** The turn limit *)
(* ===================================================================== *)

Section TurnLimit.
Context (E : Env) (ctx : Context) (config : RunConfig) (n : nat).
Hypothesis Hmax : RunConfig_MaxTurns config = Z.of_nat n.
Hypothesis Hpos : (0 < n)%nat.
Hypothesis Hint : (Z.of_nat n ≤ max_int)%Z.






End TurnLimit.





(* ===================================================================== *)
(** ** Expired contexts *)
(* ===================================================================== *)

Lemma ctx_Err_cases (ctx : Context) (now : Z) (err : error) :
  ctx_Err ctx now = Some err → err = context_Canceled ∨ err = context_DeadlineExceeded.
Proof.
  unfold ctx_Err.
  destruct (ctx_canceled_at ctx) as [c|], (ctx_deadline ctx) as [[d o]|];
    repeat case_match; naive_solver.
Qed.

(** A context without deadline of its own and without configured timeout
    can only be canceled. *)
Lemma ctx_Err_no_deadline (E : Env) (ctx0 : Context) (config : RunConfig) (now : Z)
    (err : error) :
  (RunConfig_Timeout config ≤ 0)%Z → ctx_deadline ctx0 = None →
  ctx_Err (run_context E ctx0 config) now = Some err → err = context_Canceled.
Proof.
  intros Ht Hd. unfold run_context.
  destruct (0 <? RunConfig_Timeout config)%Z eqn:Hlt; [lia|].
  unfold ctx_Err. rewrite Hd. destruct (ctx_canceled_at ctx0); [|done].
  case_match; naive_solver.
Qed.

(** C3, as amended.  For every run whose context is expired at the top of a
    turn at which the turn limit is not reached, Run returns the Timeout
    error exactly when the context's error is deadline-exceeded, whether that
    deadline is the one derived from [config.Timeout] or one the caller's own
    context carried, and otherwise returns the caller's cancellation error
    unchanged; in particular, with [config.Timeout = 0] a cancellation by
    the caller is never reported as the Timeout error. *)
Theorem expired_context_at_turn {S : Type} `{Session S} (E : Env) (ctx0 : Context)
    (config : RunConfig) (st : LoopState) (agent : AgentPtr) (session : option S)
    (sessionID : string) :
  let ctx := run_context E ctx0 config in
  let now := time_at_turn E (ls_calls st) in
  limit_reached config st = false →
  ctx_Err ctx now ≠ None →
  ∃ err,
    run_turn E ctx config st = Exit (LoopReturn st err)
    ∧ run_outcome (Run_after_loop E ctx agent session sessionID (LoopReturn st err))
      = Returned None (Some err)
    ∧ (err = ErrTimeout ↔ ctx_Err ctx now = Some context_DeadlineExceeded)
    ∧ (expired_by_config_timeout ctx now = true → err = ErrTimeout)
    ∧ (err ≠ ErrTimeout → err = context_Canceled ∧ ctx_Err ctx now = Some err)
    ∧ ((RunConfig_Timeout config ≤ 0)%Z → ctx_Err ctx0 now = Some context_Canceled →
       err = context_Canceled).
Proof.
  intros ctx now Hlim Hexp.
  destruct (ctx_Err ctx now) as [e|] eqn:He; [|done].
  assert (Hcfg : (RunConfig_Timeout config ≤ 0)%Z → ctx = ctx0).
  { intros Ht. subst ctx. unfold run_context.
    destruct (0 <? RunConfig_Timeout config)%Z eqn:Hlt; [lia | done]. }
  destruct (ctx_Err_cases _ _ _ He) as [-> | ->].
  - exists context_Canceled. unfold run_turn. fold ctx now. rewrite Hlim, He.
    split_and!; try done.
    unfold expired_by_config_timeout. by rewrite He.
  - exists ErrTimeout. unfold run_turn. fold ctx now. rewrite Hlim, He.
    split_and!; try done.
    intros Ht Hc. rewrite (Hcfg Ht) in He. congruence.
Qed.

Lemma expired_context_at_turn_witness :
  let st := mkLoopState hello (mkUsage 0 0 0) [] 0 0%nat ∅ 0%nat [] in
  let E := scripted_env (λ _, assistant) (play []) in
  run_turn E (run_context E caller_deadline_ctx no_limits) no_limits st
  = Exit (LoopReturn st ErrTimeout).
Proof.
  intros st E.
  destruct (expired_context_at_turn E caller_deadline_ctx no_limits st 0%nat
              no_session "") as (err & Hturn & _ & [_ Hiff] & _); [done..|].
  rewrite Hturn, (Hiff eq_refl). reflexivity.
Defined.

(** C3, as stated, fails twice.  With [config.Timeout = 0] and a caller whose
    own deadline has passed, the expiry is not due to a configured timeout,
    yet Run returns the Timeout error instead of the caller's
    deadline-exceeded error.  And with the turn limit reached at the same
    turn at which the configured deadline has passed, Run returns the
    Max-Turns error. *)
Lemma timeout_claim_fails :
  (RunConfig_Timeout no_limits = 0%Z
   ∧ (let E := scripted_env (λ _, assistant) (play [text_reply "Hi" 10 5 15]) in
      let ctx := run_context E caller_deadline_ctx no_limits in
      ctx_Err ctx (time_at_turn E 0) = Some context_DeadlineExceeded
      ∧ expired_by_config_timeout ctx (time_at_turn E 0) = false)
   ∧ run_outcome <$> caller_deadline_run = Some (Returned None (Some ErrTimeout)))
  ∧ ((let ctx := run_context looping_env context_Background one_turn_one_tick in
      ctx_Err ctx (time_at_turn looping_env 0) = None
      ∧ expired_by_config_timeout ctx (time_at_turn looping_env 1) = true)
     ∧ run_outcome <$> limit_before_timeout_run
       = Some (Returned None (Some ErrMaxTurnsExceeded))).
Proof. vm_compute. done. Qed.

(* ===================================================================== *)
(** ** Which errors come with a Result *)
(* ===================================================================== *)

(** What a guardrail pass can report: a tripwire, or a guardrail that itself
    failed. *)
Lemma runGuardrails_error (tripwire : string → string → guardrail_Result → error)
    (ctx : Context) (guardrails : list Guardrail) (payload : string) (err : error) :
  runGuardrails tripwire ctx guardrails payload = Done (Some err) →
  (∃ gr result, gr ∈ guardrails ∧ gr_TripwireTriggered result = true
                ∧ err = tripwire (Guardrail_Name gr) (gr_Message result) result)
  ∨ (∃ gr e, gr ∈ guardrails
             ∧ err = fmt_Errorf_w ("guardrail '" +:+ Guardrail_Name gr +:+ "' failed") e).
Proof.
  induction guardrails as [|gr rest IH]; cbn; [done|].
  destruct (Guardrail_Func gr ctx payload) as [[result|] [e|]] eqn:Hf.
  - intros [= <-]. right. exists gr, e. split; [by apply elem_of_cons; left | done].
  - destruct (gr_TripwireTriggered result) eqn:Ht.
    + intros [= <-]. left. exists gr, result. split; [by apply elem_of_cons; left | done].
    + intros Hrest. apply IH in Hrest as [(g & r & Hin & Hr) | (g & e & Hin & He)].
      * left. exists g, r. split; [by apply elem_of_cons; right | done].
      * right. exists g, e. split; [by apply elem_of_cons; right | done].
  - intros [= <-]. right. exists gr, e. split; [by apply elem_of_cons; left | done].
  - done.
Qed.

Section ResultWithError.
Context {S : Type} `{Session S}.
Context (E : Env) (ctx : Context) (agent : AgentPtr) (messages : list Message)
  (contextParams : option ContextVariables) (config : option RunConfig)
  (session : option S) (sessionID : string).

(** The three ways in which Run, past its loop, returns an error. *)
Lemma Run_finish_error (ctx' : Context) (st : LoopState)
    (lastMessage : ChatCompletionMessage) (result : Result) (err : error) :
  run_outcome (Run_finish E ctx' agent session sessionID st lastMessage)
  = Returned (Some result) (Some err)
  ↔ result = build_Result st lastMessage
    ∧ (check_output E ctx' agent (Result_FinalOutput result) = Done (Some err)
       ∨ (check_output E ctx' agent (Result_FinalOutput result) = Done None
          ∧ ∃ e, (save_session session sessionID (ls_history st)).2 = Some e
                 ∧ err = fmt_Errorf_w "failed to save session" e)
       ∨ (check_output E ctx' agent (Result_FinalOutput result) = Done None
          ∧ (save_session session sessionID (ls_history st)).2 = None
          ∧ ∃ e, after_hook E ctx' agent = Some e
                 ∧ err = fmt_Errorf_w "OnAfterRun hook failed" e)).
Proof.
  unfold Run_finish.
  destruct (check_output E ctx' agent _) as [[e|]|why] eqn:Hc; cbn.
  - split.
    + intros [= <- <-]. rewrite Hc. split; [done | by left].
    + intros [-> Hcases]. rewrite Hc in Hcases.
      destruct Hcases as [Hd | [[Hd _] | [Hd _]]]; [|done..]. by injection Hd as ->.
  - destruct (save_session session sessionID (ls_history st)) as [s' [e|]] eqn:Hs; cbn.
    + split.
      * intros [= <- <-]. rewrite Hc. split; [done|]. right; left. eauto.
      * intros [-> Hcases]. rewrite Hc in Hcases.
        destruct Hcases as [Hd | [[_ (e' & He & ->)] | (_ & Hn & _)]]; [done| |done].
        by injection He as ->.
    + destruct (after_hook E ctx' agent) as [e|] eqn:Ha; cbn.
      * split.
        -- intros [= <- <-]. rewrite Hc. split; [done|]. right; right. eauto.
        -- intros [-> Hcases]. rewrite Hc in Hcases.
           destruct Hcases as [Hd | [[_ (e' & He & _)] | (_ & _ & e' & He & ->)]];
             [done..|]. by injection He as ->.
      * split; [done|]. intros [-> Hcases]. rewrite Hc in Hcases.
        destruct Hcases as [Hd | [[_ (e' & He & _)] | (_ & _ & e' & He & _)]]; done.
  - split; [done|]. intros [-> Hcases]. rewrite Hc in Hcases.
    destruct Hcases as [Hd | [[Hd _] | [Hd _]]]; done.
Qed.
End ResultWithError.

(** C6, as amended.  Run returns a non-nil Result together with a non-nil
    error exactly in three cases: a failure of the output guardrails (a
    tripwire, or an error of a guardrail itself), a session-save failure,
    and an after-hook failure.  A before-hook error and an input-guardrail
    tripwire return a nil Result, as does every other error path. *)
Theorem result_with_error_cases {S : Type} `{Session S} (fuel : nat) (E : Env)
    (ctx : Context) (agent : AgentPtr) (messages : list Message)
    (contextParams : option ContextVariables) (config : option RunConfig)
    (session : option S) (sessionID : string) (r : RunEnd S) :
  Run fuel E ctx agent messages contextParams config session sessionID = Some r →
  let ctx1 := run_context E ctx (default DefaultRunConfig config) in
  (∀ result err,
      run_outcome r = Returned (Some result) (Some err)
      ↔ ∃ ctx' config' st0 st lastMessage,
          Run_prelude E ctx agent messages contextParams config session sessionID
          = inr (ctx', config', st0)
          ∧ run_loop fuel E ctx' config' st0 = Some (LoopBreak st lastMessage)
          ∧ result = build_Result st lastMessage
          ∧ (check_output E ctx' agent (Result_FinalOutput result) = Done (Some err)
             ∨ (check_output E ctx' agent (Result_FinalOutput result) = Done None
                ∧ ∃ e, (save_session session sessionID (ls_history st)).2 = Some e
                       ∧ err = fmt_Errorf_w "failed to save session" e)
             ∨ (check_output E ctx' agent (Result_FinalOutput result) = Done None
                ∧ (save_session session sessionID (ls_history st)).2 = None
                ∧ ∃ e, after_hook E ctx' agent = Some e
                       ∧ err = fmt_Errorf_w "OnAfterRun hook failed" e)))
  ∧ (∀ ctx' output err,
        check_output E ctx' agent output = Done (Some err) →
        (∃ gr res, gr ∈ Agent_OutputGuardrails (heap E agent)
                   ∧ gr_TripwireTriggered res = true
                   ∧ err = OutputGuardrailTripwireError (Guardrail_Name gr)
                             (gr_Message res) res)
        ∨ (∃ gr e, gr ∈ Agent_OutputGuardrails (heap E agent)
                   ∧ err = fmt_Errorf_w ("guardrail '" +:+ Guardrail_Name gr +:+ "' failed") e))
  ∧ (∀ hook e,
        messages ≠ [] →
        Agent_OnBeforeRun (heap E agent) = Some hook → hook ctx1 agent = Some e →
        run_outcome r = Returned None (Some (fmt_Errorf_w "OnBeforeRun hook failed" e)))
  ∧ (∀ err,
        messages ≠ [] →
        (∀ hook, Agent_OnBeforeRun (heap E agent) = Some hook → hook ctx1 agent = None) →
        Agent_InputGuardrails (heap E agent) ≠ [] →
        runInputGuardrails ctx1 (heap E agent)
          (fmt_Message E (List.last messages (UserMessage ""))) = Done (Some err) →
        run_outcome r = Returned None (Some err)).
Proof.
  intros Hrun ctx1. split_and!.
  - intros result err. split.
    + intros Hout.
      destruct (Run_Result_inv _ _ _ _ _ _ _ _ _ _ _ _ Hrun Hout)
        as (ctx' & config' & st0 & st & lastMessage & Hp & Hl & -> & _).
      apply Run_finish_error in Hout as [-> Hcases].
      by exists ctx', config', st0, st, lastMessage.
    + intros (ctx' & config' & st0 & st & lastMessage & Hp & Hl & Hres & Hcases).
      unfold Run in Hrun. rewrite Hp, Hl in Hrun. injection Hrun as <-. cbn.
      by apply Run_finish_error.
  - intros ctx' output err. unfold check_output.
    destruct (_ && _); [|done]. apply runGuardrails_error.
  - intros hook e Hne Hhook He. unfold Run, Run_prelude in Hrun.
    destruct messages as [|m ms]; [done|]. cbn [length Nat.eqb] in Hrun.
    fold ctx1 in Hrun. rewrite Hhook, He in Hrun. by injection Hrun as <-.
  - intros err Hne Hbefore Hguards Hin. unfold Run, Run_prelude in Hrun.
    destruct messages as [|m ms] eqn:Hm; [done|]. cbn [length Nat.eqb] in Hrun.
    fold ctx1 in Hrun.
    assert (Hb : match Agent_OnBeforeRun (heap E agent) with
                 | Some hook => hook ctx1 agent
                 | None => None
                 end = None).
    { destruct (Agent_OnBeforeRun (heap E agent)) as [hook|]; [by apply Hbefore | done]. }
    rewrite Hb in Hrun.
    destruct (Agent_InputGuardrails (heap E agent)) as [|g gs] eqn:Hg; [done|].
    cbn [length Nat.ltb Nat.leb andb] in Hrun.
    unfold runInputGuardrails in Hin, Hrun. rewrite Hg in Hin, Hrun.
    rewrite Hin in Hrun. by injection Hrun as <-.
Qed.

Lemma result_with_error_cases_witness :
  ∃ r result err,
    broken_guardrail_run = Some r
    ∧ run_outcome r = Returned (Some result) (Some err)
    ∧ ∃ gr e, gr ∈ Agent_OutputGuardrails moderated
              ∧ err = fmt_Errorf_w ("guardrail '" +:+ Guardrail_Name gr +:+ "' failed") e.
Proof.
  eexists _, _, _.
  split; [vm_compute; reflexivity|].
  split; [reflexivity|].
  pose proof (result_with_error_cases 5
                (scripted_env (λ _, moderated) (play [text_reply "Hi" 10 5 15]))
                context_Background 0%nat hello None (Some no_limits) no_session "" _
                ltac:(vm_compute; reflexivity)) as (_ & Hkinds & _).
  destruct (Hkinds context_Background "Hi" _ ltac:(vm_compute; reflexivity))
    as [(gr & res & _ & _ & Hno) | Hyes]; [discriminate Hno | exact Hyes].
Defined.

(** C6, as stated, fails: there is a fourth case.  An output guardrail that
    itself fails, without any tripwire, makes Run return the Result together
    with the wrapped error; no session and no after-hook are involved. *)
Lemma result_with_guardrail_failure :
  ∃ r result err,
    broken_guardrail_run = Some r
    ∧ run_outcome r = Returned (Some result) (Some err)
    ∧ err = fmt_Errorf_w "guardrail 'moderation' failed"
              (errors_New "moderation service unavailable")
    ∧ (∀ name msg res, err ≠ OutputGuardrailTripwireError name msg res)
    ∧ no_session = None
    ∧ Agent_OnAfterRun moderated = None.
Proof.
  eexists _, _, _.
  split; [vm_compute; reflexivity|].
  split; [reflexivity|].
  split; [reflexivity|].
  split; [discriminate|]. done.
Qed.

(* ===================================================================== *)
(** ** Tool errors *)
(* ===================================================================== *)

Section ToolErrors.
Context (E : Env) (toolMap : gmap string Tool).




End ToolErrors.




(* ===================================================================== *)
(** ** Handoffs *)
(* ===================================================================== *)

Lemma handoff_target_Some (tc : ToolCall) (p : AgentPtr) :
  handoff_target tc = Some p ↔ ToolCall_Result tc = AnyAgent (Some p).
Proof.
  unfold handoff_target. destruct (ToolCall_Result tc) as [| s | [q|] | s]; naive_solver.
Qed.

Lemma last_handoff_app (a : AgentPtr) (l1 l2 : list ToolCall) :
  last_handoff a (l1 ++ l2) = last_handoff (last_handoff a l1) l2.
Proof. apply foldl_app. Qed.

Lemma last_handoff_none (a : AgentPtr) (l : list ToolCall) :
  Forall (λ tc, handoff_target tc = None) l → last_handoff a l = a.
Proof.
  intros Hall. revert a. induction Hall as [|tc l Htc _ IH]; intros a; [done|].
  cbn. rewrite Htc. apply IH.
Qed.

(** The last recorded handoff decides. *)
Lemma last_handoff_last (a p : AgentPtr) (before after : list ToolCall) (tc : ToolCall) :
  handoff_target tc = Some p →
  Forall (λ t, handoff_target t = None) after →
  last_handoff a (before ++ tc :: after) = p.
Proof.
  intros Htc Hafter. rewrite last_handoff_app. cbn. rewrite Htc. cbn.
  by apply last_handoff_none.
Qed.

(** An agent other than the first is one that some recorded call handed to. *)
Lemma last_handoff_recorded (a : AgentPtr) (l : list ToolCall) :
  last_handoff a l ≠ a →
  ∃ tc, tc ∈ l ∧ ToolCall_Result tc = AnyAgent (Some (last_handoff a l)).
Proof.
  induction l as [|tc l IH] using rev_ind; [done|].
  rewrite last_handoff_app. cbn.
  destruct (handoff_target tc) as [p|] eqn:Htc; cbn.
  - intros _. exists tc. split; [apply elem_of_app; right; by apply list_elem_of_singleton|].
    by apply handoff_target_Some.
  - intros Hne. destruct (IH Hne) as (tc' & Hin & Hres).
    exists tc'. split; [apply elem_of_app; by left | done].
Qed.

Lemma all_tool_calls_snoc (steps : list Step) (step : Step) :
  all_tool_calls (steps ++ [step]) = all_tool_calls steps ++ Step_ToolCalls step.
Proof.
  unfold all_tool_calls. rewrite map_app, concat_app. cbn. by rewrite app_nil_r.
Qed.

Lemma tool_outputs_app (l1 l2 : list Message) :
  tool_outputs (l1 ++ l2) = tool_outputs l1 ++ tool_outputs l2.
Proof. apply omap_app. Qed.

Lemma tool_outputs_zip (E : Env) (tcs : list ToolCallRequest) (recs : list ToolCall) :
  length recs = length tcs →
  tool_outputs (zip_with (tool_message E) tcs recs) = map (tool_output_text E) recs.
Proof.
  revert recs. induction tcs as [|tc tcs IH]; intros [|rec recs] Hlen; try done.
  cbn. f_equal. apply IH. by injection Hlen.
Qed.

(** A recorded result is an agent exactly when the tool was found and its
    callback returned that agent without error. *)
Lemma call_tool_handoff (E : Env) (toolMap : gmap string Tool) (vars : ContextVariables)
    (tc : ToolCallRequest) (p : AgentPtr) :
  (call_tool E toolMap vars tc).1.2 = AnyAgent (Some p)
  ↔ ∃ tool vars',
      toolMap !! tc_Name tc = Some tool
      ∧ Tool_Execute E tool (tc_Arguments tc) vars = (vars', AnyAgent (Some p), None).
Proof.
  unfold call_tool. destruct (toolMap !! tc_Name tc) as [tool|]; cbn.
  - destruct (Tool_Execute E tool (tc_Arguments tc) vars) as [[vars' result] [err|]] eqn:Hex;
      cbn.
    + split; [done|]. intros (t & v & [= <-] & Heq). congruence.
    + split.
      * intros ->. eauto.
      * intros (t & v & [= <-] & Heq). congruence.
  - split; [done|]. by intros (t & v & Hl & _).
Qed.

Section HandoffInvariant.
Context (E : Env) (ctx : Context) (config : RunConfig).
Context (agent0 : AgentPtr) (history0 : list Message).

Lemma handoff_inv_step (st st' : LoopState) :
  handoff_inv E agent0 history0 st → run_turn E ctx config st = Continue st' →
  handoff_inv E agent0 history0 st'.
Proof.
  intros [Hagent (produced & Hhist & Hout)] Hturn.
  apply run_turn_Continue in Hturn
    as (req & c & choice & rest & tl & _ & _ & _ & _ & _ & _ & Htl & ->).
  apply handleToolCalls_Done in Htl as (Hm & Hlen & Hn).
  split; cbn [ls_steps ls_currentAgent ls_history].
  - by rewrite all_tool_calls_snoc, last_handoff_app, <- Hagent.
  - eexists (produced ++ [_] ++ tl_messages tl). split.
    + rewrite Hhist, <- !app_assoc. done.
    + rewrite all_tool_calls_snoc, map_app, !tool_outputs_app, Hout.
      cbn [Step_ToolCalls]. f_equal. rewrite Hm. cbn. by apply tool_outputs_zip.
Qed.

Lemma handoff_inv_break (st st' : LoopState) (lastMessage : ChatCompletionMessage) :
  handoff_inv E agent0 history0 st →
  run_turn E ctx config st = Exit (LoopBreak st' lastMessage) →
  handoff_inv E agent0 history0 st'.
Proof.
  intros [Hagent (produced & Hhist & Hout)] Hturn.
  apply run_turn_Break in Hturn as (req & c & choice & rest & _ & _ & _ & _ & _ & _ & ->).
  split; cbn [ls_steps ls_currentAgent ls_history].
  - rewrite all_tool_calls_snoc. cbn [Step_ToolCalls]. by rewrite app_nil_r.
  - exists (produced ++ [AssistantMessage lastMessage]). split.
    + by rewrite Hhist, <- app_assoc.
    + rewrite all_tool_calls_snoc. cbn [Step_ToolCalls].
      rewrite app_nil_r, tool_outputs_app, Hout. cbn. by rewrite app_nil_r.
Qed.

Lemma handoff_inv_loop (fuel : nat) (st0 st : LoopState)
    (lastMessage : ChatCompletionMessage) :
  handoff_inv E agent0 history0 st0 →
  run_loop fuel E ctx config st0 = Some (LoopBreak st lastMessage) →
  handoff_inv E agent0 history0 st.
Proof.
  intros H0 Hrun.
  apply (run_loop_inv E ctx config (handoff_inv E agent0 history0)) in Hrun
    as (st1 & HP & Hexit); [|apply handoff_inv_step|done].
  by eapply handoff_inv_break.
Qed.
End HandoffInvariant.

(** What a returned Result records of the handoffs of its run. *)
Lemma Run_handoff_inv {S : Type} `{Session S} (fuel : nat) (E : Env)
    (ctx : Context) (agent : AgentPtr) (messages : list Message)
    (contextParams : option ContextVariables) (config : option RunConfig)
    (session : option S) (sessionID : string)
    (r : RunEnd S) (result : Result) (err : option error) :
  Run fuel E ctx agent messages contextParams config session sessionID = Some r →
  run_outcome r = Returned (Some result) err →
  ∃ loaded produced,
    load_session session sessionID messages = inl loaded
    ∧ Result_Messages result = loaded ++ produced
    ∧ tool_outputs produced
      = map (tool_output_text E) (all_tool_calls (Result_Steps result))
    ∧ Result_Agent result = last_handoff agent (all_tool_calls (Result_Steps result)).
Proof.
  intros Hrun Hout.
  destruct (Run_Result_inv _ _ _ _ _ _ _ _ _ _ _ _ Hrun Hout)
    as (ctx' & config' & st0 & st & lastMessage & Hp & Hl & _ & -> & _).
  apply Run_prelude_start in Hp as (_ & _ & _ & Hload & _ & Hsteps & _ & Hagent & _).
  apply (handoff_inv_loop E ctx' config' agent (ls_history st0)) in Hl
    as [Ha (produced & Hh & Ho)].
  - exists (ls_history st0), produced. by split_and!.
  - split; [by rewrite Hsteps, Hagent|]. exists []. by rewrite Hsteps, app_nil_r.
Qed.

(** C5.  For every run that returns a Result: the Result's final agent is
    the agent returned by the last tool callback that returned one (and the
    agent the caller passed in if none did), and the tool-output message
    added to the history for a call whose callback returned an agent is the
    transfer notice naming that agent.  The tool calls of a run are read off
    the Result's Steps; an entry's result is an agent exactly when the tool
    was found and its callback returned that agent without an error. *)
Theorem final_agent_is_last_handoff {S : Type} `{Session S} (fuel : nat) (E : Env)
    (ctx : Context) (agent : AgentPtr) (messages : list Message)
    (contextParams : option ContextVariables) (config : option RunConfig)
    (session : option S) (sessionID : string)
    (r : RunEnd S) (result : Result) (err : option error) :
  Run fuel E ctx agent messages contextParams config session sessionID = Some r →
  run_outcome r = Returned (Some result) err →
  let calls := all_tool_calls (Result_Steps result) in
  (∀ before tc after p,
      calls = before ++ tc :: after →
      ToolCall_Result tc = AnyAgent (Some p) →
      Forall (λ t, handoff_target t = None) after →
      Result_Agent result = p)
  ∧ (Forall (λ t, handoff_target t = None) calls → Result_Agent result = agent)
  ∧ (∃ loaded produced,
        load_session session sessionID messages = inl loaded
        ∧ Result_Messages result = loaded ++ produced
        ∧ length (tool_outputs produced) = length calls
        ∧ ∀ i tc p,
            calls !! i = Some tc →
            ToolCall_Result tc = AnyAgent (Some p) →
            tool_outputs produced !! i
            = Some ("Transferred to " +:+ Agent_Name (heap E p)))
  ∧ (∀ toolMap st st' tc,
        handleToolCall E toolMap st tc = Done st' →
        ∃ rec, tl_recordedToolCalls st' = tl_recordedToolCalls st ++ [rec]
               ∧ ∀ p, ToolCall_Result rec = AnyAgent (Some p)
                      ↔ ∃ tool vars',
                          toolMap !! tc_Name tc = Some tool
                          ∧ Tool_Execute E tool (tc_Arguments tc) (tl_contextParams st)
                            = (vars', AnyAgent (Some p), None)).
Proof.
  intros Hrun Hout calls.
  destruct (Run_handoff_inv _ _ _ _ _ _ _ _ _ _ _ _ Hrun Hout)
    as (loaded & produced & Hload & Hmsgs & Houts & Hagent).
  fold calls in Houts, Hagent. split_and!.
  - intros before tc after p Hcalls Htc Hafter. rewrite Hagent, Hcalls.
    apply last_handoff_last; [by apply handoff_target_Some | done].
  - intros Hnone. rewrite Hagent. by apply last_handoff_none.
  - exists loaded, produced. split_and!; try done.
    + by rewrite Houts, length_map.
    + intros i tc p Hi Htc. rewrite Houts, list_lookup_fmap, Hi. cbn.
      unfold tool_output_text. apply handoff_target_Some in Htc. by rewrite Htc.
  - intros toolMap st st' tc Hdone.
    apply handleToolCall_Done in Hdone as (vars & res & e & Hcall & _ & ->). cbn.
    eexists. split; [done|]. intros p. cbn.
    rewrite <- call_tool_handoff. by rewrite Hcall.
Qed.

Lemma final_agent_is_last_handoff_witness :
  ∃ r result,
    handoff_run = Some r
    ∧ run_outcome r = Returned (Some result) None
    ∧ Result_Agent result = 1%nat
    ∧ Result_Agent result ≠ 0%nat.
Proof.
  eexists _, _.
  split; [vm_compute; reflexivity|].
  split; [reflexivity|].
  destruct (final_agent_is_last_handoff 5 handoff_env context_Background 0%nat hello None
              (Some no_limits) no_session "" _ _ None
              ltac:(vm_compute; reflexivity) ltac:(reflexivity)) as (Hlast & _).
  split; [|discriminate].
  apply (Hlast [] (mkToolCall "transfer_to_support" "{}" (AnyAgent (Some 1%nat)) None) []);
    [reflexivity | reflexivity | constructor].
Defined.

(** C10.  A tool call whose callback returns an agent is recorded with the
    raw agent value as its Result: the record is made first, and the
    transfer notice is substituted only in the message added to the history
    afterwards, and the records of a turn become the ToolCalls of its Step.
    So in a returned Result the agent is found in the Steps
    (wherever the final agent differs from the first, some recorded call
    holds it) while the history holds, at the same position among the tool
    outputs, the transfer notice. *)
Theorem handoff_recorded_raw {S : Type} `{Session S} (fuel : nat) (E : Env)
    (ctx : Context) (agent : AgentPtr) (messages : list Message)
    (contextParams : option ContextVariables) (config : option RunConfig)
    (session : option S) (sessionID : string)
    (r : RunEnd S) (result : Result) (err : option error) :
  Run fuel E ctx agent messages contextParams config session sessionID = Some r →
  run_outcome r = Returned (Some result) err →
  let calls := all_tool_calls (Result_Steps result) in
  (∀ toolMap st tc tool vars p,
      toolMap !! tc_Name tc = Some tool →
      Tool_Execute E tool (tc_Arguments tc) (tl_contextParams st)
      = (vars, AnyAgent (Some p), None) →
      handleToolCall E toolMap st tc
      = Done {| tl_messages :=
                  tl_messages st
                  ++ [ToolMessage ("Transferred to " +:+ Agent_Name (heap E p))
                        (truncate_id (tc_ID tc))];
                tl_recordedToolCalls :=
                  tl_recordedToolCalls st
                  ++ [{| ToolCall_ToolName := tc_Name tc;
                         ToolCall_Arguments := tc_Arguments tc;
                         ToolCall_Result := AnyAgent (Some p);
                         ToolCall_Error := None |}];
                tl_nextAgent := p;
                tl_contextParams := vars |})
  ∧ (∀ ctx' config' st st',
        run_turn E ctx' config' st = Continue st' →
        ∃ tl message,
          handleToolCalls E (ccm_ToolCalls message)
            (build_toolMap (Agent_Tools (heap E (ls_currentAgent st))))
            (ls_contextParams st) (ls_currentAgent st) = Done tl
          ∧ ls_history st' = (ls_history st ++ [AssistantMessage message]) ++ tl_messages tl
          ∧ ∃ step, ls_steps st' = ls_steps st ++ [step]
                    ∧ Step_ToolCalls step = tl_recordedToolCalls tl)
  ∧ (Result_Agent result ≠ agent →
     ∃ tc, tc ∈ calls ∧ ToolCall_Result tc = AnyAgent (Some (Result_Agent result)))
  ∧ (∃ loaded produced,
        load_session session sessionID messages = inl loaded
        ∧ Result_Messages result = loaded ++ produced
        ∧ ∀ i tc p,
            calls !! i = Some tc →
            ToolCall_Result tc = AnyAgent (Some p) →
            tool_outputs produced !! i
            = Some ("Transferred to " +:+ Agent_Name (heap E p))).
Proof.
  intros Hrun Hout calls.
  destruct (Run_handoff_inv _ _ _ _ _ _ _ _ _ _ _ _ Hrun Hout)
    as (loaded & produced & Hload & Hmsgs & Houts & Hagent).
  fold calls in Houts, Hagent. split_and!.
  - intros toolMap st tc tool vars p Hfound Hex.
    unfold handleToolCall, call_tool. by rewrite Hfound, Hex.
  - intros ctx' config' st st' Hturn.
    apply run_turn_Continue in Hturn
      as (req & c & choice & rest & tl & _ & _ & _ & _ & _ & _ & Htl & ->).
    exists tl, (truncate_tool_call_ids choice). split_and!; [done..|].
    eexists. by split.
  - intros Hne. rewrite Hagent in Hne |- *. by apply last_handoff_recorded.
  - exists loaded, produced. split_and!; try done.
    intros i tc p Hi Htc. rewrite Houts, list_lookup_fmap, Hi. cbn.
    unfold tool_output_text. apply handoff_target_Some in Htc. by rewrite Htc.
Qed.

Lemma handoff_recorded_raw_witness :
  ∃ r result,
    handoff_run = Some r
    ∧ run_outcome r = Returned (Some result) None
    ∧ (∃ tc, tc ∈ all_tool_calls (Result_Steps result)
             ∧ ToolCall_Result tc = AnyAgent (Some 1%nat))
    ∧ ToolMessage "Transferred to Support" "call_1" ∈ Result_Messages result.
Proof.
  eexists _, _.
  split; [vm_compute; reflexivity|].
  split; [reflexivity|].
  destruct (handoff_recorded_raw 5 handoff_env context_Background 0%nat hello None
              (Some no_limits) no_session "" _ _ None
              ltac:(vm_compute; reflexivity) ltac:(reflexivity)) as (_ & _ & Hseen & _).
  split; [apply Hseen; discriminate|].
  apply list_elem_of_lookup. by exists 2%nat.
Defined.

(* ===================================================================== *)
(** ** Loading the session *)
(* ===================================================================== *)

(** The NotFound error of the backends is the one of package session, which
    the type assertion in Run does not recognise. *)
Lemma MemorySession_Get_error (m : MemorySession) (id : string) (e : error) :
  MemorySession_Get m id = inr e →
  e = session_NotFoundError id ∧ is_agents_NotFoundError e = false.
Proof.
  unfold MemorySession_Get. destruct (sessions m !! id); [done|]. by intros [= <-].
Qed.

Lemma FileSession_Get_error `{Externals} (f : FileSession) (fs : FS) (id : string)
    (e : error) :
  FileSession_Get f fs id = inr e → is_agents_NotFoundError e = false.
Proof.
  unfold FileSession_Get.
  destruct (os_ReadFile fs (sessionPath f id)) as [data|err].
  - destruct (json_Unmarshal data); [done|]. by intros [= <-].
  - destruct (os_IsNotExist err); by intros [= <-].
Qed.

(** A load error that Run does not take for its own NotFound ends the run
    before the loop, whatever the fuel. *)
Lemma load_error_aborts {S : Type} `{Session S} (fuel : nat) (E : Env)
    (ctx : Context) (agent : AgentPtr) (messages : list Message)
    (contextParams : option ContextVariables) (config : option RunConfig)
    (s : S) (sessionID : string) (e : error) :
  sessionID ≠ "" →
  Session_Get s sessionID = inr e →
  is_agents_NotFoundError e = false →
  let ctx1 := run_context E ctx (default DefaultRunConfig config) in
  ∃ r, Run fuel E ctx agent messages contextParams config (Some s) sessionID = Some r
       ∧ run_calls r = 0%nat
       ∧ (∀ result err, run_outcome r ≠ Returned (Some result) err)
       ∧ (messages ≠ [] → hook_passes E ctx1 agent → input_passes E ctx1 agent messages →
          run_outcome r = Returned None (Some (fmt_Errorf_w "failed to load session" e))).
Proof.
  intros Hid Hget Hnot ctx1.
  assert (Hload : load_session (Some s) sessionID messages
                  = inr (fmt_Errorf_w "failed to load session" e)).
  { unfold load_session. apply String.eqb_neq in Hid. by rewrite Hid, Hget, Hnot. }
  destruct (Run_prelude E ctx agent messages contextParams config (Some s) sessionID)
    as [r | [[ctx' config'] st0]] eqn:Hp.
  - exists r. unfold Run. rewrite Hp. split; [done|].
    pose proof (Run_prelude_early _ _ _ _ _ _ _ _ _ Hp) as (Hc & _ & Hno).
    split_and!; [done | |].
    + intros result err Hout. destruct Hno as [[e' He'] | [w Hw]]; congruence.
    + intros Hne Hhook Hin. unfold Run_prelude in Hp.
      assert (Hlen : (length messages =? 0)%nat = false).
      { apply Nat.eqb_neq. by destruct messages. }
      rewrite Hlen in Hp. fold ctx1 in Hp. unfold hook_passes in Hhook.
      assert (Hb : match Agent_OnBeforeRun (heap E agent) with
                   | Some hook => hook ctx1 agent
                   | None => None
                   end = None).
      { by destruct (Agent_OnBeforeRun (heap E agent)). }
      rewrite Hb in Hp.
      assert (Hg : (if (0 <? length (Agent_InputGuardrails (heap E agent)))%nat
                       && (0 <? length messages)%nat
                    then runInputGuardrails ctx1 (heap E agent)
                           (fmt_Message E (List.last messages (UserMessage "")))
                    else Done None) = Done None).
      { destruct Hin as [-> | ->]; [done|]. by destruct (_ && _). }
      rewrite Hg, Hload in Hp. by injection Hp as <-.
  - apply Run_prelude_start in Hp as (_ & _ & _ & Hl & _). congruence.
Qed.

(** What Run was written to tolerate: the NotFound error of its own package. *)
Lemma own_NotFound_is_tolerated {S : Type} `{Session S} (s : S) (sessionID : string)
    (messages : list Message) :
  Session_Get s sessionID = inr (agents_NotFoundError sessionID) →
  load_session (Some s) sessionID messages = inl messages.
Proof.
  intros Hget. unfold load_session. rewrite Hget. by destruct (negb _).
Qed.

(** C1, on the code.  When a backend's Get reports that the session does not
    exist, Run does not go on with the caller's messages: it takes the
    backend's NotFound error for a storage error, returns no Result, and
    never calls the completion service.  This holds for the volatile and
    for the durable backend, and likewise for any other error of Get. *)
Theorem absent_session_aborts_run `{Externals} (fuel : nat) (E : Env)
    (ctx : Context) (agent : AgentPtr) (messages : list Message)
    (contextParams : option ContextVariables) (config : option RunConfig)
    (sessionID : string) :
  sessionID ≠ "" →
  let ctx1 := run_context E ctx (default DefaultRunConfig config) in
  (∀ (m : MemorySession) (e : error),
      MemorySession_Get m sessionID = inr e →
      e = session_NotFoundError sessionID
      ∧ ∃ r, Run fuel E ctx agent messages contextParams config (Some m) sessionID = Some r
             ∧ run_calls r = 0%nat
             ∧ (∀ result err, run_outcome r ≠ Returned (Some result) err)
             ∧ (messages ≠ [] → hook_passes E ctx1 agent →
                input_passes E ctx1 agent messages →
                run_outcome r
                = Returned None (Some (fmt_Errorf_w "failed to load session" e))))
  ∧ (∀ (f : FileSession) (fs : FS) (e : error),
      FileSession_Get f fs sessionID = inr e →
      ∃ r, Run fuel E ctx agent messages contextParams config (Some (f, fs)) sessionID
           = Some r
           ∧ run_calls r = 0%nat
           ∧ (∀ result err, run_outcome r ≠ Returned (Some result) err)
           ∧ (messages ≠ [] → hook_passes E ctx1 agent →
              input_passes E ctx1 agent messages →
              run_outcome r
              = Returned None (Some (fmt_Errorf_w "failed to load session" e)))).
Proof.
  intros Hid ctx1. split.
  - intros m e Hget.
    destruct (MemorySession_Get_error _ _ _ Hget) as [He Hnot]. split; [done|].
    by apply load_error_aborts.
  - intros f fs e Hget.
    pose proof (FileSession_Get_error _ _ _ _ Hget) as Hnot.
    by apply (load_error_aborts fuel E ctx agent messages contextParams config (f, fs)).
Qed.

Lemma absent_session_aborts_run_witness :
  let err := fmt_Errorf_w "failed to load session" (session_NotFoundError "user_123") in
  MemorySession_Get NewMemorySession "user_123" = inr (session_NotFoundError "user_123")
  ∧ (∃ r, first_run_memory = Some r
          ∧ run_outcome r = Returned None (Some err) ∧ run_calls r = 0%nat)
  ∧ (∃ r, first_run_file = Some r
          ∧ run_outcome r = Returned None (Some err) ∧ run_calls r = 0%nat).
Proof.
  intros err.
  destruct (@absent_session_aborts_run example_Externals 5 one_reply_env context_Background
              0%nat hello None (Some no_limits) "user_123" ltac:(discriminate))
    as [Hmem Hfile].
  split; [reflexivity|]. split.
  - destruct (Hmem NewMemorySession (session_NotFoundError "user_123") ltac:(reflexivity))
      as (_ & r & Hrun & Hc & _ & Ho).
    exists r. split; [exact Hrun|]. split; [|exact Hc].
    apply Ho; [discriminate | exact I | by left].
  - destruct (Hfile example_store empty_FS (session_NotFoundError "user_123")
                ltac:(reflexivity)) as (r & Hrun & Hc & _ & Ho).
    exists r. split; [exact Hrun|]. split; [|exact Hc].
    apply Ho; [discriminate | exact I | by left].
Defined.

(* ===================================================================== *)
(** ** Whose output guardrails run *)
(* ===================================================================== *)

(** C2, on the code.  The output guardrails that Run executes after its loop
    are those of the agent the caller passed in, whichever agent is active
    when the loop is left: an output tripwire always comes from a guardrail
    the first agent declares, and if the first agent declares none, no
    output guardrail runs at all. *)
Theorem output_guardrails_of_first_agent {S : Type} `{Session S} (fuel : nat) (E : Env)
    (ctx : Context) (agent : AgentPtr) (messages : list Message)
    (contextParams : option ContextVariables) (config : option RunConfig)
    (session : option S) (sessionID : string) (r : RunEnd S) :
  Run fuel E ctx agent messages contextParams config session sessionID = Some r →
  (∀ result name msg res,
      run_outcome r = Returned (Some result) (Some (OutputGuardrailTripwireError name msg res)) →
      ∃ gr, gr ∈ Agent_OutputGuardrails (heap E agent) ∧ Guardrail_Name gr = name)
  ∧ (Agent_OutputGuardrails (heap E agent) = [] →
     ∀ result name msg res,
       run_outcome r
       ≠ Returned (Some result) (Some (OutputGuardrailTripwireError name msg res))).
Proof.
  intros Hrun.
  assert (Hfirst : ∀ result name msg res,
             run_outcome r
             = Returned (Some result) (Some (OutputGuardrailTripwireError name msg res)) →
             ∃ gr, gr ∈ Agent_OutputGuardrails (heap E agent) ∧ Guardrail_Name gr = name).
  { intros result name msg res Hout.
    destruct (Run_Result_inv _ _ _ _ _ _ _ _ _ _ _ _ Hrun Hout)
      as (ctx' & config' & st0 & st & lastMessage & _ & _ & -> & _).
    apply Run_finish_error in Hout as [_ [Hc | [(_ & e & _ & He) | (_ & _ & e & _ & He)]]];
      [|done..].
    unfold check_output in Hc. destruct (_ && _); [|done].
    apply runGuardrails_error in Hc as [(gr & res' & Hin & _ & Heq) | (gr & e & _ & Heq)];
      [|done].
    exists gr. split; [done|]. by injection Heq. }
  split; [done|].
  intros Hnone result name msg res Hout.
  destruct (Hfirst _ _ _ _ Hout) as (gr & Hin & _). rewrite Hnone in Hin.
  by apply not_elem_of_nil in Hin.
Qed.

(** At the failing input: after a handoff from an agent without output
    guardrails to one whose guardrail trips on every output, Run returns the
    final output without error; and in the mirrored setting the guardrail of
    the first agent trips although the active agent declares none. *)
Lemma output_guardrails_of_first_agent_witness :
  (∃ r result,
      handoff_run = Some r
      ∧ run_outcome r = Returned (Some result) None
      ∧ Result_Agent result = 1%nat
      ∧ Result_FinalOutput result = "Have you tried turning it off and on again?"
      ∧ runOutputGuardrails context_Background (two_agents (Result_Agent result))
          (Result_FinalOutput result)
        = Done (Some (OutputGuardrailTripwireError "block_everything" "blocked"
                        (mkGuardrailResult false true "blocked" [])))
      ∧ ∀ result' name msg res,
          run_outcome r
          ≠ Returned (Some result') (Some (OutputGuardrailTripwireError name msg res)))
  ∧ (∃ r result,
        mirrored_run = Some r
        ∧ run_outcome r
          = Returned (Some result)
              (Some (OutputGuardrailTripwireError "block_everything" "blocked"
                       (mkGuardrailResult false true "blocked" [])))
        ∧ Result_Agent result = 1%nat
        ∧ Agent_OutputGuardrails (mirrored_agents (Result_Agent result)) = []).
Proof.
  split.
  - eexists _, _.
    split; [vm_compute; reflexivity|].
    do 4 (split; [reflexivity|]).
    apply (output_guardrails_of_first_agent 5 handoff_env context_Background 0%nat hello
             None (Some no_limits) no_session "" _ ltac:(vm_compute; reflexivity)).
    reflexivity.
  - eexists _, _.
    split; [vm_compute; reflexivity|].
    by do 2 (split; [reflexivity|]).
Defined.

(* ********************************************************************* *)
(** * Further properties of the code *)
(* ********************************************************************* *)

(* ===================================================================== *)
(** ** The volatile backend *)
(* ===================================================================== *)

(** X1.  Appending to an existing session of the volatile backend never
    fails and extends what Get yields: the messages already stored, followed
    by the new ones, in order. *)
Theorem MemorySession_Append_extends (m : MemorySession) (id : string)
    (old ms : list Message) :
  MemorySession_Get m id = inl old →
  (MemorySession_Append m id ms).2 = None
  ∧ MemorySession_Get (MemorySession_Append m id ms).1 id = inl (old ++ ms).
Proof.
  intros Hget. split; [done|]. rewrite MemorySession_Append_Get.
  unfold MemorySession_Get in Hget. destruct (sessions m !! id); [|done].
  by injection Hget as ->.
Qed.

Lemma MemorySession_Append_extends_witness :
  MemorySession_Get (MemorySession_Append two_sessions "alice" world).1 "alice"
  = inl (hello ++ world).
Proof.
  apply (MemorySession_Append_extends two_sessions "alice" hello world).
  vm_compute. reflexivity.
Defined.

(** X2.  The sessions of the volatile backend are isolated: appending to,
    clearing or deleting one session leaves what Get yields for every other
    identifier as it was. *)
Theorem MemorySession_isolation (m : MemorySession) (id id' : string)
    (ms : list Message) :
  id ≠ id' →
  MemorySession_Get (MemorySession_Append m id ms).1 id' = MemorySession_Get m id'
  ∧ MemorySession_Get (MemorySession_Clear m id).1 id' = MemorySession_Get m id'
  ∧ MemorySession_Get (MemorySession_Delete m id).1 id' = MemorySession_Get m id'.
Proof.
  intros Hne. unfold MemorySession_Get, MemorySession_Append, MemorySession_Clear,
    MemorySession_Delete.
  split_and!.
  - cbn. rewrite lookup_insert_ne by done.
    destruct (sessions m !! id); [done|]. by rewrite lookup_insert_ne.
  - destruct (sessions m !! id); cbn; [|done]. by rewrite lookup_insert_ne.
  - destruct (sessions m !! id); cbn; [|done]. by rewrite lookup_delete_ne.
Qed.

Lemma MemorySession_isolation_witness :
  MemorySession_Get (MemorySession_Delete two_sessions "alice").1 "bob" = inl world.
Proof.
  rewrite (proj2 (proj2 (MemorySession_isolation two_sessions "alice" "bob" []
                           ltac:(discriminate)))).
  vm_compute. reflexivity.
Defined.

(** X3.  In the volatile backend Clear and Delete report NotFound exactly
    when Get does, and then they leave the store as it is; otherwise they
    succeed. *)
Theorem MemorySession_NotFound_consistent (m : MemorySession) (id : string) :
  (MemorySession_Get m id = inr (session_NotFoundError id)
   → MemorySession_Clear m id = (m, Some (session_NotFoundError id))
     ∧ MemorySession_Delete m id = (m, Some (session_NotFoundError id)))
  ∧ ((MemorySession_Clear m id).2 = None
     ↔ MemorySession_Get m id ≠ inr (session_NotFoundError id))
  ∧ ((MemorySession_Delete m id).2 = None
     ↔ MemorySession_Get m id ≠ inr (session_NotFoundError id)).
Proof.
  unfold MemorySession_Get, MemorySession_Clear, MemorySession_Delete.
  destruct (sessions m !! id); cbn; split_and!; try done; split; done.
Qed.

Lemma MemorySession_NotFound_consistent_witness :
  MemorySession_Clear NewMemorySession "alice"
  = (NewMemorySession, Some (session_NotFoundError "alice"))
  ∧ (MemorySession_Clear two_sessions "alice").2 = None.
Proof.
  destruct (MemorySession_NotFound_consistent NewMemorySession "alice") as (Habsent & _).
  destruct (MemorySession_NotFound_consistent two_sessions "alice") as (_ & Hclear & _).
  split.
  - apply Habsent. reflexivity.
  - apply Hclear. vm_compute. discriminate.
Defined.

(* ===================================================================== *)
(** ** The durable backend *)
(* ===================================================================== *)

Section DurableBackend.
Context `{Externals}.

(** What an atomic write does to the files, whatever its outcome: nothing
    at all, or it ends without its temporary file, the session file being
    replaced on success and untouched on failure. *)
Lemma writeAtomic_cases (f : FileSession) (fs fs' : FS) (id : string)
    (ms : list Message) (e : option error) :
  writeAtomic f fs id ms = (fs', e) →
  let path := sessionPath f id in
  fs_can_read fs' = fs_can_read fs
  ∧ fs_can_write fs' = fs_can_write fs
  ∧ ((fs' = fs ∧ e ≠ None)
     ∨ (fs_files fs' !! (path +:+ ".tmp") = None
        ∧ (∀ p, p ≠ path → p ≠ path +:+ ".tmp" → fs_files fs' !! p = fs_files fs !! p)
        ∧ match e with
          | None => ∃ data, json_MarshalIndent ms = inl data
                            ∧ fs_files fs' !! path = Some data
          | Some _ => fs_files fs' !! path = fs_files fs !! path
          end)).
Proof.
  unfold writeAtomic, os_WriteFile, os_Rename, os_Remove.
  pose proof (tempPath_neq (sessionPath f id)) as Hne.
  destruct (json_MarshalIndent ms) as [data|err]; [|intros [= <- <-]; by eauto].
  destruct (fs_can_write fs (sessionPath f id +:+ ".tmp")) eqn:Ht;
    [|intros [= <- <-]; by eauto].
  cbn. rewrite lookup_insert_eq.
  destruct (fs_can_write fs (sessionPath f id)) eqn:Hp; cbn.
  - intros [= <- <-]. cbn. split_and!; [done..|]. right. split_and!.
    + rewrite lookup_insert_ne by done. apply lookup_delete_eq.
    + intros p Hp1 Hp2. by rewrite lookup_insert_ne, lookup_delete_ne, lookup_insert_ne.
    + exists data. by rewrite lookup_insert_eq.
  - rewrite lookup_insert_eq, Ht. cbn. intros [= <- <-]. cbn.
    split_and!; [done..|]. right. split_and!.
    + apply lookup_delete_eq.
    + intros p Hp1 Hp2. by rewrite lookup_delete_ne, lookup_insert_ne.
    + by rewrite lookup_delete_ne, lookup_insert_ne.
Qed.


(** X5.  A failed append or clear does not damage the session: whenever
    Append or Clear of the durable backend reports an error, Get yields for
    that identifier exactly what it yielded before. *)
Theorem FileSession_failure_keeps_session (f : FileSession) (fs fs' : FS) (id : string)
    (ms : list Message) (err : error) :
  FileSession_Append f fs id ms = (fs', Some err)
  ∨ FileSession_Clear f fs id = (fs', Some err) →
  FileSession_Get f fs' id = FileSession_Get f fs id.
Proof.
  assert (Hkeep : ∀ ms', writeAtomic f fs id ms' = (fs', Some err) →
                         FileSession_Get f fs' id = FileSession_Get f fs id).
  { intros ms' Hw. apply writeAtomic_cases in Hw as (Hr & _ & [[-> _] | (_ & _ & Hp)]);
      [done|].
    unfold FileSession_Get, os_ReadFile. by rewrite Hp, Hr. }
  intros [Happ | Hclear].
  - unfold FileSession_Append in Happ.
    destruct (os_ReadFile fs (sessionPath f id)) as [data|e].
    + destruct (json_Unmarshal data); [by eapply Hkeep | by injection Happ as <-].
    + destruct (os_IsNotExist e); [by eapply Hkeep | by injection Happ as <-].
  - unfold FileSession_Clear in Hclear.
    destruct (os_Stat fs (sessionPath f id)) as [e|]; [|by eapply Hkeep].
    destruct (os_IsNotExist e); [by injection Hclear as <- | by eapply Hkeep].
Qed.

(** X6.  The sessions of the durable backend are isolated: for an
    identifier whose file is neither the session file nor the temporary file
    of the session operated on, Append, Clear and Delete leave what Get
    yields as it was, whether they succeed or fail. *)
Theorem FileSession_isolation (f : FileSession) (fs : FS) (id id' : string)
    (ms : list Message) :
  sessionPath f id' ≠ sessionPath f id →
  sessionPath f id' ≠ sessionPath f id +:+ ".tmp" →
  FileSession_Get f (FileSession_Append f fs id ms).1 id' = FileSession_Get f fs id'
  ∧ FileSession_Get f (FileSession_Clear f fs id).1 id' = FileSession_Get f fs id'
  ∧ FileSession_Get f (FileSession_Delete f fs id).1 id' = FileSession_Get f fs id'.
Proof.
  intros Hp Ht.
  assert (Hw : ∀ ms', FileSession_Get f (writeAtomic f fs id ms').1 id'
                      = FileSession_Get f fs id').
  { intros ms'. destruct (writeAtomic f fs id ms') as [fs1 e] eqn:Hwr.
    apply writeAtomic_cases in Hwr as (Hr & _ & [[-> _] | (_ & Hother & _)]); [done|].
    cbn. unfold FileSession_Get, os_ReadFile. by rewrite Hother, Hr. }
  split_and!.
  - unfold FileSession_Append.
    destruct (os_ReadFile fs (sessionPath f id)) as [data|e].
    + destruct (json_Unmarshal data); [apply Hw | done].
    + destruct (os_IsNotExist e); [apply Hw | done].
  - unfold FileSession_Clear.
    destruct (os_Stat fs (sessionPath f id)) as [e|]; [|apply Hw].
    destruct (os_IsNotExist e); [done | apply Hw].
  - unfold FileSession_Delete, os_Stat, os_Remove.
    destruct (fs_files fs !! sessionPath f id) eqn:Hf; cbn; [|done].
    destruct (fs_can_write fs (sessionPath f id)); cbn; [|done].
    unfold FileSession_Get, os_ReadFile. cbn. by rewrite lookup_delete_ne.
Qed.

(** X7.  In the durable backend Clear and Delete report NotFound exactly
    when Get does, and then they leave the file system as it is. *)
Theorem FileSession_NotFound_consistent (f : FileSession) (fs : FS) (id : string) :
  (FileSession_Get f fs id = inr (session_NotFoundError id)
   ↔ FileSession_Clear f fs id = (fs, Some (session_NotFoundError id)))
  ∧ (FileSession_Get f fs id = inr (session_NotFoundError id)
     ↔ FileSession_Delete f fs id = (fs, Some (session_NotFoundError id))).
Proof.
  rewrite FileSession_Get_NotFound.
  unfold FileSession_Clear, FileSession_Delete, os_Stat, os_Remove, writeAtomic,
    os_WriteFile, os_Rename, os_Remove.
  destruct (fs_files fs !! sessionPath f id) as [data|] eqn:Hf; cbn; [|done].
  split; (split; [done|]).
  - destruct (json_MarshalIndent []) as [d|]; [|done].
    destruct (fs_can_write fs (sessionPath f id +:+ ".tmp")); cbn; [|done].
    rewrite lookup_insert_eq.
    destruct (fs_can_write fs (sessionPath f id)); cbn; [done|].
    rewrite lookup_insert_eq. by destruct (fs_can_write fs _).
  - by destruct (fs_can_write fs (sessionPath f id)).
Qed.
End DurableBackend.


Lemma FileSession_failure_keeps_session_witness :
  let res := @FileSession_Append example_Externals example_store no_replace_FS
               "alice" world in
  res.2 ≠ None
  ∧ @FileSession_Get example_Externals example_store res.1 "alice" = inl hello.
Proof.
  intros res. split; [vm_compute; discriminate|].
  subst res.
  destruct (@FileSession_Append example_Externals example_store no_replace_FS "alice" world)
    as [fs' [err|]] eqn:Happ; [|vm_compute in Happ; discriminate Happ].
  cbn [fst].
  rewrite (@FileSession_failure_keeps_session example_Externals example_store
             no_replace_FS fs' "alice" world err (or_introl Happ)).
  vm_compute. reflexivity.
Defined.

Lemma FileSession_isolation_witness :
  @FileSession_Get example_Externals example_store
    (@FileSession_Delete example_Externals example_store two_files "alice").1 "bob"
  = inl hello.
Proof.
  destruct (@FileSession_isolation example_Externals example_store two_files
              "alice" "bob" []) as (_ & _ & Hdel).
  - vm_compute. discriminate.
  - vm_compute. discriminate.
  - rewrite Hdel. vm_compute. reflexivity.
Defined.

Lemma FileSession_NotFound_consistent_witness :
  @FileSession_Delete example_Externals example_store empty_FS "alice"
  = (empty_FS, Some (session_NotFoundError "alice")).
Proof.
  apply (@FileSession_NotFound_consistent example_Externals example_store empty_FS "alice").
  vm_compute. reflexivity.
Defined.

(* ===================================================================== *)
(** ** config.go: Merge *)
(* ===================================================================== *)

(** X8.  Merging configurations is associative: applying the overrides [a]
    and then [b] is applying the single override obtained by merging [b]
    onto [a]; and the zero value of RunConfig, used as override, changes
    nothing. *)
Theorem RunConfig_Merge_assoc (c a b : RunConfig) :
  RunConfig_Merge (RunConfig_Merge c (Some a)) (Some b)
  = RunConfig_Merge c (Some (RunConfig_Merge a (Some b)))
  ∧ RunConfig_Merge c (Some zero_RunConfig) = c.
Proof.
  split; [|by destruct c].
  destruct c as [cm ct cx cp cd co cr], a as [am at_ ax ap ad ao ar],
    b as [bm bt bx bp bd bo br].
  unfold RunConfig_Merge. cbn. f_equal.
  - destruct (0 <? bm)%Z eqn:Hb; [by rewrite Hb | done].
  - by destruct bt.
  - by destruct bx.
  - by destruct bp.
  - by destruct bd.
  - destruct (0 <? bo)%Z eqn:Hb; [by rewrite Hb | done].
  - by destruct br.
Qed.

(** X9.  What an override cannot do: Merge never lifts a turn limit or a
    timeout of the base configuration (a positive value stays positive),
    never switches Debug off, and never clears a temperature, token limit,
    parallel-calls setting or response format that the base sets. *)
Theorem RunConfig_Merge_cannot_unset (c o : RunConfig) :
  let r := RunConfig_Merge c (Some o) in
  ((0 < RunConfig_MaxTurns c)%Z → (0 < RunConfig_MaxTurns r)%Z)
  ∧ ((0 < RunConfig_Timeout c)%Z → (0 < RunConfig_Timeout r)%Z)
  ∧ (RunConfig_Debug c = true → RunConfig_Debug r = true)
  ∧ (is_Some (RunConfig_Temperature c) → is_Some (RunConfig_Temperature r))
  ∧ (is_Some (RunConfig_MaxTokens c) → is_Some (RunConfig_MaxTokens r))
  ∧ (is_Some (RunConfig_ParallelToolCalls c) → is_Some (RunConfig_ParallelToolCalls r))
  ∧ (is_Some (RunConfig_ResponseFormat c) → is_Some (RunConfig_ResponseFormat r)).
Proof.
  cbn. split_and!.
  - intros Hc. destruct (0 <? RunConfig_MaxTurns o)%Z eqn:Ho; [lia | done].
  - intros Hc. destruct (0 <? RunConfig_Timeout o)%Z eqn:Ho; [lia | done].
  - intros ->. by destruct (RunConfig_Debug o).
  - intros Hc. by destruct (RunConfig_Temperature o).
  - intros Hc. by destruct (RunConfig_MaxTokens o).
  - intros Hc. by destruct (RunConfig_ParallelToolCalls o).
  - intros Hc. by destruct (RunConfig_ResponseFormat o).
Qed.

Lemma RunConfig_Merge_cannot_unset_witness :
  (0 < RunConfig_MaxTurns (RunConfig_Merge DefaultRunConfig (Some zero_RunConfig)))%Z
  ∧ RunConfig_Debug (RunConfig_Merge debug_config (Some DefaultRunConfig)) = true.
Proof.
  split.
  - apply (RunConfig_Merge_cannot_unset DefaultRunConfig zero_RunConfig). reflexivity.
  - apply (RunConfig_Merge_cannot_unset debug_config DefaultRunConfig). reflexivity.
Defined.



(* ===================================================================== *)
(** ** types.go: Usage.Add *)
(* ===================================================================== *)

Lemma wrap_int_add_l (a b : Z) : wrap_int (wrap_int a + b) = wrap_int (a + b).
Proof.
  unfold wrap_int. f_equal.
  replace ((a - min_int) `mod` 2 ^ int_bits + min_int + b - min_int)%Z
    with ((a - min_int) `mod` 2 ^ int_bits + b)%Z by lia.
  rewrite Zplus_mod_idemp_l. f_equal. lia.
Qed.

Lemma wrap_int_add_r (a b : Z) : wrap_int (a + wrap_int b) = wrap_int (a + b).
Proof. by rewrite Z.add_comm, wrap_int_add_l, Z.add_comm. Qed.

(** X11.  Adding usages is commutative and associative, also when a sum
    leaves the range of Go's [int] and wraps around: the totals of a run do
    not depend on the order in which the counts were added. *)
Theorem Usage_Add_comm_assoc (u v w : Usage) :
  Usage_Add u v = Usage_Add v u
  ∧ Usage_Add (Usage_Add u v) w = Usage_Add u (Usage_Add v w).
Proof.
  unfold Usage_Add. cbn. split.
  - f_equal; f_equal; lia.
  - rewrite !wrap_int_add_l, !wrap_int_add_r. f_equal; f_equal; lia.
Qed.

(* ===================================================================== *)
(** ** tool.go: FunctionTool and Execute *)
(* ===================================================================== *)

(** X12.  FunctionTool panics exactly on an empty name or a nil callback;
    a tool it returns has a non-empty name, and executing it never reports
    a missing callback: either the arguments do not parse, or the result is
    the callback's own on the parsed arguments. *)
Theorem FunctionTool_Execute (E : Env) (name description : string)
    (params : option (gmap string any))
    (callback : option (gmap string any → ContextVariables
                        → ContextVariables * any * option error)) :
  ((∃ t, FunctionTool name description params callback = Done t)
   ↔ name ≠ "" ∧ callback ≠ None)
  ∧ ∀ t, FunctionTool name description params callback = Done t →
      Tool_Name t = name ∧ Tool_Name t ≠ ""
      ∧ ∃ f, callback = Some f
             ∧ ∀ argsJSON vars,
                 match json_Unmarshal_map E (if String.eqb argsJSON "" then "{}"
                                             else argsJSON) with
                 | inl args => Tool_Execute E t argsJSON vars = f args vars
                 | inr err =>
                     Tool_Execute E t argsJSON vars
                     = (vars, AnyNil,
                        Some (fmt_Errorf_w "failed to unmarshal arguments" err))
                 end.
Proof.
  unfold FunctionTool. destruct (String.eqb_spec name "") as [->|Hname].
  - split; [|done]. split; [by intros [t Ht] | by intros [Hn _]].
  - destruct callback as [f|].
    + split; [split; [done | eauto]|].
      intros t [= <-]. cbn. split_and!; [done..|]. exists f. split; [done|].
      intros argsJSON vars. unfold Tool_Execute. cbn.
      by destruct (json_Unmarshal_map E _).
    + split; [|done]. split; [by intros [t Ht] | by intros [_ Hc]].
Qed.

Lemma FunctionTool_Execute_witness :
  ∃ t, FunctionTool "ping" "Answers pong" None (Tool_Callback ping) = Done t
       ∧ Tool_Name t = "ping".
Proof.
  destruct (FunctionTool_Execute looping_env "ping" "Answers pong" None (Tool_Callback ping))
    as [[_ Hdone] Hexec].
  destruct Hdone as [t Ht]; [split; discriminate|].
  exists t. split; [done|]. by apply Hexec.
Defined.

(* ===================================================================== *)
(** ** runner.go: tool-call identifiers and the tool registry *)
(* ===================================================================== *)

Lemma substring_0_length (n : nat) (s : string) :
  String.length (String.substring 0 n s) = Nat.min n (String.length s).
Proof.
  revert s. induction n as [|n IH]; intros [|c s]; cbn; try done.
  by rewrite IH.
Qed.

Lemma substring_0_prefix (n : nat) (s : string) :
  ∃ rest, s = String.substring 0 n s +:+ rest.
Proof.
  revert s. induction n as [|n IH]; intros [|c s]; cbn.
  - by exists "".
  - by exists (String c s).
  - by exists "".
  - destruct (IH s) as [rest Hrest]. exists rest. exact (f_equal (String c) Hrest).
Qed.

Lemma substring_0_all (n : nat) (s : string) :
  (String.length s ≤ n)%nat → String.substring 0 n s = s.
Proof.
  revert s. induction n as [|n IH]; intros [|c s]; cbn; intros Hlen; try done; [lia|].
  rewrite IH; [done | lia].
Qed.

Lemma truncate_id_length (id : string) :
  String.length (truncate_id id) = Nat.min 40 (String.length id).
Proof.
  unfold truncate_id. destruct (40 <? String.length id)%nat eqn:Hlen.
  - apply substring_0_length.
  - apply Nat.ltb_ge in Hlen. lia.
Qed.

Lemma truncate_id_idem (id : string) : truncate_id (truncate_id id) = truncate_id id.
Proof.
  pose proof (truncate_id_length id) as Hlen.
  unfold truncate_id at 1.
  destruct (40 <? String.length (truncate_id id))%nat eqn:Hlt; [|done].
  apply Nat.ltb_lt in Hlt. lia.
Qed.

(** X13.  Truncating a tool-call identifier keeps its first 40 characters:
    the result is a prefix of the identifier, of length the smaller of 40
    and the identifier's length; identifiers of up to 40 characters, and no
    others, are left as they are, and truncating twice is truncating once. *)
Theorem truncate_id_spec (id : string) :
  String.length (truncate_id id) = Nat.min 40 (String.length id)
  ∧ (∃ rest, id = truncate_id id +:+ rest)
  ∧ (truncate_id id = id ↔ (String.length id ≤ 40)%nat)
  ∧ truncate_id (truncate_id id) = truncate_id id.
Proof.
  split_and!.
  - apply truncate_id_length.
  - unfold truncate_id. destruct (40 <? String.length id)%nat.
    + apply substring_0_prefix.
    + exists "". clear. induction id as [|c id IH]; [done|].
      exact (f_equal (String c) IH).
  - split.
    + intros Heq. pose proof (truncate_id_length id) as Hlen. rewrite Heq in Hlen. lia.
    + intros Hlen. unfold truncate_id.
      destruct (40 <? String.length id)%nat eqn:Hlt; [|done].
      apply Nat.ltb_lt in Hlt. lia.
  - apply truncate_id_idem.
Qed.

Lemma tool_call_id_zip (E : Env) (tcs : list ToolCallRequest) (recs : list ToolCall) :
  length recs = length tcs →
  map tool_call_id (zip_with (tool_message E) tcs recs)
  = map (λ tc, Some (truncate_id (tc_ID tc))) tcs.
Proof.
  revert recs. induction tcs as [|tc tcs IH]; intros [|rec recs] Hlen; cbn in *; try done.
  rewrite IH; [done | lia].
Qed.

(** X14.  In every turn that handles tool calls, the history gains the
    assistant message followed by exactly one tool message per tool call of
    that message, in order, each carrying the identifier of its call as the
    assistant message records it; no recorded identifier is longer than 40
    characters. *)
Theorem tool_messages_answer_tool_calls (E : Env) (ctx : Context) (config : RunConfig)
    (st st' : LoopState) :
  run_turn E ctx config st = Continue st' →
  ∃ message replies,
    ls_history st' = ls_history st ++ AssistantMessage message :: replies
    ∧ ccm_ToolCalls message ≠ []
    ∧ map tool_call_id replies = map (λ tc, Some (tc_ID tc)) (ccm_ToolCalls message)
    ∧ Forall (λ tc, (String.length (tc_ID tc) ≤ 40)%nat) (ccm_ToolCalls message).
Proof.
  intros Hturn.
  apply run_turn_Continue in Hturn
    as (req & c & choice & rest & tl & _ & _ & _ & _ & _ & Hcalls & Htl & ->).
  apply handleToolCalls_Done in Htl as (Hmsgs & Hlen & _).
  exists (truncate_tool_call_ids choice), (tl_messages tl). cbn [ls_history].
  split_and!.
  - by rewrite <- app_assoc.
  - cbn. by destruct (ccm_ToolCalls choice).
  - rewrite Hmsgs, tool_call_id_zip by done. cbn. rewrite !map_map. cbn.
    apply map_ext. intros tc. by rewrite truncate_id_idem.
  - cbn. apply List.Forall_map, Forall_forall. intros tc _.
    cbn. rewrite truncate_id_length. lia.
Qed.

Lemma tool_messages_answer_tool_calls_witness :
  ∃ st' message replies,
    run_turn long_id_env context_Background no_limits (start_state hello 0%nat) = Continue st'
    ∧ ls_history st' = hello ++ AssistantMessage message :: replies
    ∧ map tool_call_id replies = map (λ tc, Some (tc_ID tc)) (ccm_ToolCalls message).
Proof.
  destruct (run_turn long_id_env context_Background no_limits (start_state hello 0%nat))
    as [st'|e] eqn:Hturn; [|vm_compute in Hturn; discriminate Hturn].
  destruct (tool_messages_answer_tool_calls _ _ _ _ _ Hturn)
    as (message & replies & Hh & _ & Hids & _).
  exists st', message, replies. by split_and!.
Defined.

(** X15.  The tool registry of a turn maps a name to the last tool of the
    agent's list that bears it: of tools sharing a name only the last can be
    called, and a name no tool bears is not in the registry. *)
Theorem build_toolMap_last_wins (tools : list Tool) (name : string) :
  build_toolMap tools !! name = last (filter (λ t, Tool_Name t = name) tools).
Proof.
  unfold build_toolMap. induction tools as [|t tools IH] using rev_ind; [done|].
  rewrite foldl_app, filter_app. cbn [foldl].
  destruct (decide (Tool_Name t = name)) as [<-|Hne].
  - rewrite lookup_insert_eq. rewrite filter_cons_True by done.
    cbn. by rewrite last_snoc.
  - rewrite lookup_insert_ne by done. rewrite filter_cons_False by done.
    cbn. by rewrite app_nil_r.
Qed.

(* ===================================================================== *)
(** ** runner.go: what a returned Result records *)
(* ===================================================================== *)

Lemma numbered_next (st st' : LoopState) (name : string) (tcs : list ToolCall) :
  numbered st →
  ls_steps st' = ls_steps st ++ [{| Step_AgentName := name; Step_ToolCalls := tcs;
                                    Step_StepNumber := wrap_int (ls_turnCount st + 1) |}] →
  ls_turnCount st' = wrap_int (ls_turnCount st + 1) →
  ls_calls st' = S (ls_calls st) →
  numbered st'.
Proof.
  intros [Hlen Hnum] Hs Ht Hc. split.
  - rewrite Hs, length_app, Hlen, Hc. cbn. lia.
  - rewrite Hc. intros Hle. destruct Hnum as [Htc Hmap]; [lia|].
    rewrite Ht, Hs, Htc.
    rewrite wrap_int_id by (unfold in_int, min_int, max_int, int_bits in *; lia).
    split; [lia|].
    rewrite map_app, Hmap, seq_S, map_app. cbn. do 2 f_equal. lia.
Qed.

(** X16.  The steps of a returned Result are one per call of the completion
    service, and they are numbered 1, 2, 3, ... in order, as long as the
    number of calls fits Go's [int]. *)
Theorem steps_are_numbered {S : Type} `{Session S} (fuel : nat) (E : Env)
    (ctx : Context) (agent : AgentPtr) (messages : list Message)
    (contextParams : option ContextVariables) (config : option RunConfig)
    (session : option S) (sessionID : string)
    (r : RunEnd S) (result : Result) (err : option error) :
  Run fuel E ctx agent messages contextParams config session sessionID = Some r →
  run_outcome r = Returned (Some result) err →
  length (Result_Steps result) = run_calls r
  ∧ ((Z.of_nat (run_calls r) ≤ max_int)%Z →
     map Step_StepNumber (Result_Steps result) = map Z.of_nat (seq 1 (run_calls r))).
Proof.
  intros Hrun Hout.
  destruct (Run_Result_inv _ _ _ _ _ _ _ _ _ _ _ _ Hrun Hout)
    as (ctx' & config' & st0 & st & lastMessage & Hp & Hl & _ & -> & -> & _).
  apply Run_prelude_start in Hp as (_ & _ & _ & _ & _ & Hsteps & Ht & _ & Hc & _).
  apply (run_loop_inv E ctx' config' numbered) in Hl as (st1 & Hnum & Hexit).
  - apply run_turn_Break in Hexit
      as (req & c & choice & rest & _ & _ & _ & _ & _ & _ & Hst).
    assert (Hn : numbered st).
    { eapply (numbered_next st1); [done | by rewrite Hst..]. }
    destruct Hn as [Hlen Hn]. cbn. split; [done|]. intros Hle. by apply Hn.
  - intros s s' Hs Hturn.
    apply run_turn_Continue in Hturn
      as (req & c & choice & rest & tl & _ & _ & _ & _ & _ & _ & _ & Hst).
    eapply (numbered_next s); [done | by rewrite Hst..].
  - split; [by rewrite Hsteps, Hc|]. intros _. by rewrite Hsteps, Ht, Hc.
Qed.

Lemma steps_are_numbered_witness :
  ∃ r result,
    handoff_run = Some r
    ∧ run_outcome r = Returned (Some result) None
    ∧ map Step_StepNumber (Result_Steps result) = [1; 2]%Z.
Proof.
  destruct handoff_run as [r|] eqn:Hrun; [|vm_compute in Hrun; discriminate Hrun].
  destruct (run_outcome r) as [[result|] [err|] | why] eqn:Hout;
    try (exfalso; injection Hrun as <-; vm_compute in Hout; discriminate Hout).
  destruct (steps_are_numbered _ _ _ _ _ _ _ _ _ _ _ _ Hrun Hout) as [Hlen Hnum].
  exists r, result. split_and!; [done..|].
  rewrite Hnum.
  - injection Hrun as <-. vm_compute. reflexivity.
  - injection Hrun as <-. vm_compute. discriminate.
Defined.

Lemma truncate_no_calls (choice : ChatCompletionMessage) :
  ccm_ToolCalls choice = [] → truncate_tool_call_ids choice = choice.
Proof. destruct choice as [c r tcs]. cbn. by intros ->. Qed.

(** X17.  Run returns a Result on the first response whose first choice
    carries no tool calls: every earlier response of the run asked for tool
    calls, the last entry of the Result's messages is that choice, and the
    final output is its content, or its refusal when the content is empty. *)
Theorem result_is_first_plain_reply {S : Type} `{Session S} (fuel : nat) (E : Env)
    (ctx : Context) (agent : AgentPtr) (messages : list Message)
    (contextParams : option ContextVariables) (config : option RunConfig)
    (session : option S) (sessionID : string)
    (r : RunEnd S) (result : Result) (err : option error) :
  Run fuel E ctx agent messages contextParams config session sessionID = Some r →
  run_outcome r = Returned (Some result) err →
  ∃ earlier final choice rest,
    run_completions r = earlier ++ [final]
    ∧ Forall (λ c, first_choice_calls c ≠ []) earlier
    ∧ Completion_Choices final = choice :: rest
    ∧ ccm_ToolCalls choice = []
    ∧ last (Result_Messages result) = Some (AssistantMessage choice)
    ∧ Result_FinalOutput result
      = (if String.eqb (ccm_Content choice) "" then ccm_Refusal choice
         else ccm_Content choice).
Proof.
  intros Hrun Hout.
  destruct (Run_Result_inv _ _ _ _ _ _ _ _ _ _ _ _ Hrun Hout)
    as (ctx' & config' & st0 & st & lastMessage & Hp & Hl & _ & -> & _ & ->).
  apply Run_prelude_start in Hp as (_ & _ & _ & _ & _ & _ & _ & _ & _ & Hcs).
  apply (run_loop_inv E ctx' config' all_asked) in Hl as (st1 & Hall & Hexit).
  - apply run_turn_Break in Hexit
      as (req & c & choice & rest & _ & _ & _ & Hch & Hnone & -> & ->).
    rewrite (truncate_no_calls choice Hnone).
    exists (ls_completions st1), c, choice, rest. cbn.
    split_and!; try done.
    + by rewrite last_snoc.
    + unfold extract_finalOutput. rewrite length_app. cbn.
      rewrite Nat.add_1_r.
      destruct (ccm_Content choice); cbn; [by destruct (ccm_Refusal choice) | done].
  - intros s s' Hs Hturn.
    apply run_turn_Continue in Hturn
      as (req & c & choice & rest & tl & _ & _ & _ & _ & Hch & Hcalls & _ & ->).
    unfold all_asked in *. cbn. apply Forall_app. split; [done|].
    apply Forall_singleton. unfold first_choice_calls. by rewrite Hch.
  - unfold all_asked. by rewrite Hcs.
Qed.

Lemma result_is_first_plain_reply_witness :
  ∃ r result,
    handoff_run = Some r
    ∧ run_outcome r = Returned (Some result) None
    ∧ Result_FinalOutput result = "Have you tried turning it off and on again?".
Proof.
  destruct handoff_run as [r|] eqn:Hrun; [|vm_compute in Hrun; discriminate Hrun].
  destruct (run_outcome r) as [[result|] [err|] | why] eqn:Hout;
    try (exfalso; injection Hrun as <-; vm_compute in Hout; discriminate Hout).
  destruct (result_is_first_plain_reply _ _ _ _ _ _ _ _ _ _ _ _ Hrun Hout)
    as (earlier & final & choice & rest & _ & _ & _ & _ & _ & Hfinal).
  exists r, result. split_and!; [done..|].
  injection Hrun as <-. vm_compute in Hout. injection Hout as <-. reflexivity.
Defined.

Lemma zip_tool_message_replies (E : Env) (tcs : list ToolCallRequest) (recs : list ToolCall) :
  Forall (λ m, is_reply m = true) (zip_with (tool_message E) tcs recs).
Proof.
  revert recs. induction tcs as [|tc tcs IH]; intros [|rec recs]; cbn; try done.
  by constructor.
Qed.

(** X18.  Run only ever adds assistant and tool messages to the history:
    the messages of a returned Result are the loaded history (the stored
    session, if one was read, followed by the caller's messages) followed by
    assistant and tool messages.  In particular the system instructions,
    which head every request, are never part of the Result's messages. *)
Theorem Run_adds_only_replies {S : Type} `{Session S} (fuel : nat) (E : Env)
    (ctx : Context) (agent : AgentPtr) (messages : list Message)
    (contextParams : option ContextVariables) (config : option RunConfig)
    (session : option S) (sessionID : string)
    (r : RunEnd S) (result : Result) (err : option error) :
  Run fuel E ctx agent messages contextParams config session sessionID = Some r →
  run_outcome r = Returned (Some result) err →
  ∃ stored produced,
    load_session session sessionID messages = inl (stored ++ messages)
    ∧ Result_Messages result = (stored ++ messages) ++ produced
    ∧ produced ≠ []
    ∧ Forall (λ m, is_reply m = true) produced.
Proof.
  intros Hrun Hout.
  destruct (Run_Result_inv _ _ _ _ _ _ _ _ _ _ _ _ Hrun Hout)
    as (ctx' & config' & st0 & st & lastMessage & Hp & Hl & _ & -> & _).
  apply Run_prelude_start in Hp as (_ & _ & _ & Hload & _).
  assert (Hstored : ∃ stored, ls_history st0 = stored ++ messages).
  { unfold load_session in Hload. destruct session as [s|]; [|exists []; cbn; congruence].
    destruct (negb (String.eqb sessionID "")); [|exists []; cbn; congruence].
    destruct (Session_Get s sessionID) as [old|e].
    - exists old. congruence.
    - destruct (is_agents_NotFoundError e); [exists []; cbn; congruence | done]. }
  destruct Hstored as [stored Hstored].
  apply (run_loop_inv E ctx' config' (replies_only (ls_history st0))) in Hl
    as (st1 & (produced & Hh & Hrep) & Hexit).
  - apply run_turn_Break in Hexit
      as (req & c & choice & rest & _ & _ & _ & _ & _ & _ & ->).
    exists stored, (produced ++ [AssistantMessage lastMessage]). cbn.
    rewrite Hload, Hh, Hstored, <- !app_assoc. split_and!; try done.
    + by destruct produced.
    + apply Forall_app. split; [done|]. by apply Forall_singleton.
  - intros s s' (produced & Hh & Hrep) Hturn.
    apply run_turn_Continue in Hturn
      as (req & c & choice & rest & tl & _ & _ & _ & _ & _ & _ & Htl & ->).
    apply handleToolCalls_Done in Htl as (Hmsgs & _ & _).
    exists (produced ++ [AssistantMessage (truncate_tool_call_ids choice)] ++ tl_messages tl).
    cbn. rewrite Hh, <- !app_assoc. split; [done|].
    apply Forall_app. split; [done|]. apply Forall_cons. split; [done|].
    rewrite Hmsgs. apply zip_tool_message_replies.
  - exists []. by rewrite app_nil_r.
Qed.

Lemma Run_adds_only_replies_witness :
  ∃ r result produced,
    handoff_run = Some r
    ∧ run_outcome r = Returned (Some result) None
    ∧ Result_Messages result = hello ++ produced
    ∧ Forall (λ m, is_reply m = true) produced.
Proof.
  destruct handoff_run as [r|] eqn:Hrun; [|vm_compute in Hrun; discriminate Hrun].
  destruct (run_outcome r) as [[result|] [err|] | why] eqn:Hout;
    try (exfalso; injection Hrun as <-; vm_compute in Hout; discriminate Hout).
  destruct (Run_adds_only_replies _ _ _ _ _ _ _ _ _ _ _ _ Hrun Hout)
    as (stored & produced & Hload & Hmsgs & _ & Hrep).
  exists r, result, produced. split_and!; [done.. | | done].
  rewrite Hmsgs. f_equal. cbn in Hload. by injection Hload as <-.
Defined.

(* ===================================================================== *)
(** ** runner.go: what a run writes to the session store *)
(* ===================================================================== *)

Section StoreFacts.
Context {S : Type} `{Session S}.
Context (E : Env) (agent : AgentPtr) (session : option S) (sessionID : string).

(** The last phase of Run, by what it does to the store: it ends before the
    save step and leaves the store alone, or it ends with the store the save
    step made, and then without error only if the save step reported none. *)
Lemma Run_finish_store (ctx' : Context) (st : LoopState)
    (lastMessage : ChatCompletionMessage) :
  let r := Run_finish E ctx' agent session sessionID st lastMessage in
  let result := build_Result st lastMessage in
  (run_session r = session
   ∧ ((∃ err, run_outcome r = Returned (Some result) (Some err))
      ∨ ∃ why, run_outcome r = Panicked why))
  ∨ ∃ err e,
      run_outcome r = Returned (Some result) err
      ∧ save_session session sessionID (ls_history st) = (run_session r, e)
      ∧ (err = None → e = None).
Proof.
  unfold Run_finish.
  destruct (check_output _ _ _ _) as [[e|]|]; cbn; [left; by eauto | | left; by eauto].
  destruct (save_session _ _ _) as [s' [e|]]; cbn;
    [right; eexists _, _; by split_and!|].
  destruct (after_hook _ _ _); cbn; right; eexists _, _; by split_and!.
Qed.

Lemma save_session_cases (history : list Message) :
  ((session = None ∨ sessionID = "")
   ∧ save_session session sessionID history = (session, None))
  ∨ ∃ s, session = Some s ∧ sessionID ≠ ""
         ∧ save_session session sessionID history
           = (Some (Session_Append s sessionID history).1,
              (Session_Append s sessionID history).2).
Proof.
  unfold save_session. destruct session as [s|]; [|left; by eauto].
  destruct (String.eqb_spec sessionID "") as [->|Hne]; cbn; [left; by eauto|].
  right. exists s. split_and!; [done..|]. by destruct (Session_Append s sessionID history).
Qed.
End StoreFacts.

(** X19.  A run writes to the session store at most once: the store it
    leaves behind is the store it was given, or that store after a single
    Append of the returned Result's messages under the run's session
    identifier.  A run that returns no Result leaves the store as it was;
    a run with a store and a non-empty identifier that returns a Result and
    no error has made that Append, and the Append reported no error. *)
Theorem Run_writes_store_once {S : Type} `{Session S} (fuel : nat) (E : Env)
    (ctx : Context) (agent : AgentPtr) (messages : list Message)
    (contextParams : option ContextVariables) (config : option RunConfig)
    (session : option S) (sessionID : string) (r : RunEnd S) :
  Run fuel E ctx agent messages contextParams config session sessionID = Some r →
  match run_outcome r with
  | Returned (Some result) err =>
      run_session r = session
      ∨ ∃ s, session = Some s ∧ sessionID ≠ ""
             ∧ run_session r = Some (Session_Append s sessionID (Result_Messages result)).1
  | _ => run_session r = session
  end
  ∧ ∀ result s,
      run_outcome r = Returned (Some result) None →
      session = Some s → sessionID ≠ "" →
      run_session r = Some (Session_Append s sessionID (Result_Messages result)).1
      ∧ (Session_Append s sessionID (Result_Messages result)).2 = None.
Proof.
  intros Hrun.
  apply Run_inv in Hrun as [Hearly | (ctx' & config' & st0 & e & Hp & Hl & ->)].
  - assert (Hs : run_session r = session).
    { unfold Run_prelude in Hearly.
      destruct (length messages =? 0)%nat; [by injection Hearly as <-|].
      destruct (match Agent_OnBeforeRun _ with Some _ => _ | None => _ end);
        [by injection Hearly as <-|].
      destruct (if _ && _ then _ else _) as [[err|]|why]; try by injection Hearly as <-.
      destruct (load_session _ _ _); [done | by injection Hearly as <-]. }
    apply Run_prelude_early in Hearly as (_ & _ & [[e ->] | [w ->]]); by split.
  - destruct e as [st lastMessage | st err | st why]; cbn; [|by split..].
    pose proof (Run_finish_store E agent session sessionID ctx' st lastMessage) as Hfin.
    cbn in Hfin.
    destruct Hfin as [[Hs [[err Hout] | [why Hout]]] | (err & e & Hout & Hsave & Herr)];
      rewrite Hout.
    + split; [by left | done].
    + by split.
    + destruct (save_session_cases session sessionID (ls_history st))
        as [[Hnone Hsame] | (s & -> & Hne & Hcase)].
      * rewrite Hsame in Hsave. injection Hsave as Hs _. split; [by left|].
        intros result s _ -> Hne. by destruct Hnone.
      * rewrite Hcase in Hsave. injection Hsave as Hs He. split.
        -- right. exists s. by split_and!.
        -- intros result s0 [= <- ->] [= <-] _. split; [done|]. cbn. rewrite He. by apply Herr.
Qed.

Lemma Run_writes_store_once_witness :
  ∃ r result,
    second_run_memory = Some r
    ∧ run_outcome r = Returned (Some result) None
    ∧ run_session r
      = Some (MemorySession_Append two_sessions "alice" (Result_Messages result)).1.
Proof.
  destruct second_run_memory as [r|] eqn:Hrun; [|vm_compute in Hrun; discriminate Hrun].
  destruct (run_outcome r) as [[result|] [err|] | why] eqn:Hout;
    try (exfalso; injection Hrun as <-; vm_compute in Hout; discriminate Hout).
  pose proof (Run_writes_store_once _ _ _ _ _ _ _ _ _ _ Hrun) as [_ Hok].
  destruct (Hok result two_sessions Hout eq_refl ltac:(discriminate)) as [Hs _].
  exists r, result. by split_and!.
Defined.

(** X20.  With the volatile backend, a successful run on an existing
    session stores the stored history a second time: the run's history
    starts with what Get yielded, and all of it is appended to the session,
    so that Get afterwards yields the old history, followed by the old
    history again, the caller's messages and the run's replies. *)
Theorem MemorySession_run_appends_whole_history (fuel : nat) (E : Env)
    (ctx : Context) (agent : AgentPtr) (messages : list Message)
    (contextParams : option ContextVariables) (config : option RunConfig)
    (m : MemorySession) (sessionID : string) (old : list Message)
    (r : RunEnd MemorySession) (result : Result) :
  sessionID ≠ "" →
  MemorySession_Get m sessionID = inl old →
  Run fuel E ctx agent messages contextParams config (Some m) sessionID = Some r →
  run_outcome r = Returned (Some result) None →
  ∃ produced m',
    Result_Messages result = old ++ messages ++ produced
    ∧ run_session r = Some m'
    ∧ MemorySession_Get m' sessionID = inl (old ++ old ++ messages ++ produced).
Proof.
  intros Hne Hget Hrun Hout.
  destruct (Run_handoff_inv _ _ _ _ _ _ _ _ _ _ _ _ Hrun Hout)
    as (loaded & produced & Hload & Hmsgs & _).
  assert (loaded = old ++ messages) as ->.
  { unfold load_session in Hload.
    destruct (String.eqb_spec sessionID "") as [->|_]; [done|]. cbn in Hload.
    rewrite Hget in Hload. by injection Hload as <-. }
  destruct (Run_Result_inv _ _ _ _ _ _ _ _ _ _ _ _ Hrun Hout)
    as (ctx' & config' & st0 & st & lastMessage & _ & _ & -> & -> & _).
  pose proof (Run_finish_store E agent (Some m) sessionID ctx' st lastMessage) as Hfin.
  cbv zeta in Hfin.
  destruct Hfin as [[_ [[err Hout'] | [why Hout']]] | (err & e & Hout' & Hsave & _)];
    [congruence..|].
  destruct (save_session_cases (Some m) sessionID (ls_history st))
    as [[[Hnone | Hnone] _] | (s & [= <-] & _ & Hcase)]; [done..|].
  rewrite Hcase in Hsave. injection Hsave as Hs _.
  exists produced, (MemorySession_Append m sessionID (ls_history st)).1.
  change (Result_Messages (build_Result st lastMessage)) with (ls_history st) in *.
  split_and!.
  - by rewrite Hmsgs, <- app_assoc.
  - by rewrite <- Hs.
  - rewrite MemorySession_Append_Get, Hmsgs.
    unfold MemorySession_Get in Hget. destruct (sessions m !! sessionID); [|done].
    injection Hget as ->. cbn. by rewrite <- !app_assoc.
Qed.

Lemma MemorySession_run_appends_whole_history_witness :
  ∃ r m' produced,
    second_run_memory = Some r
    ∧ run_session r = Some m'
    ∧ MemorySession_Get m' "alice" = inl (hello ++ hello ++ world ++ produced).
Proof.
  destruct second_run_memory as [r|] eqn:Hrun; [|vm_compute in Hrun; discriminate Hrun].
  destruct (run_outcome r) as [[result|] [err|] | why] eqn:Hout;
    try (exfalso; injection Hrun as <-; vm_compute in Hout; discriminate Hout).
  destruct (MemorySession_run_appends_whole_history _ _ _ _ world _ _ two_sessions "alice"
              hello r result ltac:(discriminate) ltac:(vm_compute; reflexivity) Hrun Hout)
    as (produced & m' & _ & Hs & Hget).
  by exists r, m', produced.
Defined.

(* ===================================================================== *)
(** ** guardrails.go: the guardrail runner *)
(* ===================================================================== *)

(** X21.  A tripped or failing input guardrail ends the run at once: when
    the input guardrails of the agent passed in, asked about the last of the
    caller's messages, report an error, Run returns that error and no
    Result, without a turn of its loop, a call of the completion service or
    a write to the session store. *)
Theorem input_guardrail_stops_run {S : Type} `{Session S} (fuel : nat) (E : Env)
    (ctx : Context) (agent : AgentPtr) (messages : list Message)
    (contextParams : option ContextVariables) (config : option RunConfig)
    (session : option S) (sessionID : string) (err : error) :
  messages ≠ [] →
  hook_passes E (run_context E ctx (default DefaultRunConfig config)) agent →
  runInputGuardrails (run_context E ctx (default DefaultRunConfig config)) (heap E agent)
    (fmt_Message E (List.last messages (UserMessage ""))) = Done (Some err) →
  Run fuel E ctx agent messages contextParams config session sessionID
  = Some (mkRunEnd (Returned None (Some err)) 0 [] (default ∅ contextParams) session).
Proof.
  intros Hmsgs Hhook Hguard. unfold Run, Run_prelude.
  destruct messages as [|m0 ms]; [done|].
  change (length (m0 :: ms) =? 0)%nat with false. cbv iota.
  unfold hook_passes in Hhook.
  assert (Hbefore : match Agent_OnBeforeRun (heap E agent) with
                    | Some hook => hook (run_context E ctx (default DefaultRunConfig config))
                                     agent
                    | None => None
                    end = None).
  { by destruct (Agent_OnBeforeRun (heap E agent)). }
  rewrite Hbefore.
  assert (Hnonempty : (0 <? length (Agent_InputGuardrails (heap E agent)))%nat = true).
  { unfold runInputGuardrails in Hguard.
    by destruct (Agent_InputGuardrails (heap E agent)). }
  rewrite Hnonempty. change (0 <? length (m0 :: ms))%nat with true. cbn [andb].
  by rewrite Hguard.
Qed.

Lemma input_guardrail_stops_run_witness :
  Run 0 gated_env context_Background 0%nat hello None None (Some two_sessions) "alice"
  = Some (mkRunEnd
            (Returned None
               (Some (InputGuardrailTripwireError "block_everything" "blocked"
                        (mkGuardrailResult false true "blocked" []))))
            0 [] ∅ (Some two_sessions)).
Proof.
  apply (input_guardrail_stops_run 0 gated_env context_Background 0%nat hello None None
           (Some two_sessions) "alice").
  - discriminate.
  - vm_compute. exact I.
  - vm_compute. reflexivity.
Defined.

(** X22.  The guardrail runner lets a payload through exactly when every
    guardrail of the list returns a result, without error, whose tripwire
    is not triggered.  Whether a result says it passed plays no part: a
    result that failed without triggering the tripwire does not stop the
    run. *)
Theorem runGuardrails_pass_iff (tripwire : string → string → guardrail_Result → error)
    (ctx : Context) (guardrails : list Guardrail) (payload : string) :
  runGuardrails tripwire ctx guardrails payload = Done None
  ↔ forallb (lets_through ctx payload) guardrails = true.
Proof.
  induction guardrails as [|g gs IH]; [done|].
  cbn. unfold lets_through at 1.
  destruct (Guardrail_Func g ctx payload) as [[result|] [err|]]; cbn; try done.
  destruct (gr_TripwireTriggered result); cbn; [done | apply IH].
Qed.

(** X23.  The first guardrail that does not let the payload through decides
    the outcome: the guardrails after it are not consulted, and the outcome
    is the one that guardrail alone gives: its error, the tripwire error
    naming it, or the panic on its nil result. *)
Theorem runGuardrails_first_violation
    (tripwire : string → string → guardrail_Result → error)
    (ctx : Context) (pre post : list Guardrail) (g : Guardrail) (payload : string) :
  forallb (lets_through ctx payload) pre = true →
  lets_through ctx payload g = false →
  runGuardrails tripwire ctx (pre ++ g :: post) payload
  = runGuardrails tripwire ctx [g] payload
  ∧ match Guardrail_Func g ctx payload with
    | (_, Some err) =>
        runGuardrails tripwire ctx [g] payload
        = Done (Some (fmt_Errorf_w ("guardrail '" +:+ Guardrail_Name g +:+ "' failed") err))
    | (Some result, None) =>
        runGuardrails tripwire ctx [g] payload
        = Done (Some (tripwire (Guardrail_Name g) (gr_Message result) result))
    | (None, None) => ∃ why, runGuardrails tripwire ctx [g] payload = Panic why
    end.
Proof.
  intros Hpre Hg. split.
  - induction pre as [|p pre IH]; cbn in *.
    + unfold lets_through in Hg.
      destruct (Guardrail_Func g ctx payload) as [[result|] [err|]]; try done.
      by destruct (gr_TripwireTriggered result).
    + apply andb_true_iff in Hpre as [Hp Hpre]. unfold lets_through in Hp.
      destruct (Guardrail_Func p ctx payload) as [[result|] [err|]]; try done.
      destruct (gr_TripwireTriggered result); [done|]. by apply IH.
  - unfold lets_through in Hg. cbn.
    destruct (Guardrail_Func g ctx payload) as [[result|] [err|]]; try done; [|by eauto].
    by destruct (gr_TripwireTriggered result).
Qed.

Lemma runGuardrails_first_violation_witness :
  runGuardrails OutputGuardrailTripwireError context_Background
    ([advisory] ++ block_everything :: [broken_guardrail]) "Hi"
  = Done (Some (OutputGuardrailTripwireError "block_everything" "blocked"
                  (mkGuardrailResult false true "blocked" []))).
Proof.
  destruct (runGuardrails_first_violation OutputGuardrailTripwireError context_Background
              [advisory] [broken_guardrail] block_everything "Hi")
    as [Hfirst Hone]; [reflexivity | reflexivity |].
  rewrite Hfirst. exact Hone.
Defined.

(* ===================================================================== *)
(** ** runner.go: prepareRequest *)
(* ===================================================================== *)

(** X24.  Assembling a request fails in one case only: the response format
    in force (the configuration's, else the agent's) is of type json_schema,
    carries a schema format, and that schema cannot be converted to a map;
    the error then wraps the conversion's error as an invalid schema. *)
Theorem prepareRequest_fails_iff (E : Env) (ctx : Context) (agent : Agent)
    (config : RunConfig) (tools : list ToolParam) (history : list Message) (err : error) :
  prepareRequest E ctx agent config tools history = inr err
  ↔ ∃ rf js e,
      responseFormat_of agent config = Some rf
      ∧ ResponseFormat_Type rf = "json_schema"
      ∧ ResponseFormat_JSONSchema rf = Some js
      ∧ Schema_ToMap E (JSONSchemaFormat_Schema js) = inr e
      ∧ err = fmt_Errorf_w "invalid schema" e.
Proof.
  unfold prepareRequest, responseFormat_of.
  destruct (if (0 <? length tools)%nat then _ else _) as [reqTools reqParallel].
  destruct (match RunConfig_ResponseFormat config with
            | Some rf => Some rf
            | None => Agent_ResponseFormat agent
            end) as [rf|]; [|split; [done | by intros (? & ? & ? & ? & _)]].
  destruct (String.eqb_spec (ResponseFormat_Type rf) "text") as [Htext|Hntext].
  { split; [done|]. intros (rf' & js & e & [= <-] & Hty & _). congruence. }
  destruct (String.eqb_spec (ResponseFormat_Type rf) "json_schema") as [Hjs|Hnjs].
  - destruct (ResponseFormat_JSONSchema rf) as [js|] eqn:Hfmt.
    + destruct (Schema_ToMap E (JSONSchemaFormat_Schema js)) as [schemaMap|e] eqn:Hmap.
      * split; [done|]. intros (rf' & js' & e & [= <-] & _ & Hjs' & Hmap' & _). congruence.
      * split.
        -- intros [= <-]. by exists rf, js, e.
        -- intros (rf' & js' & e' & [= <-] & _ & Hjs' & Hmap' & ->). congruence.
    + split; [done|]. intros (rf' & js' & e & [= <-] & _ & Hjs' & _). congruence.
  - split; [done|]. intros (rf' & js & e & [= <-] & Hty & _). congruence.
Qed.

Lemma prepareRequest_fails_iff_witness :
  prepareRequest handoff_env context_Background assistant
    (with_format no_limits broken_schema_format) [] hello
  = inr (fmt_Errorf_w "invalid schema"
           (fmt_Errorf_w "failed to marshal schema"
              (errors_New "json: unsupported value: NaN"))).
Proof.
  apply prepareRequest_fails_iff.
  eexists broken_schema_format, _, _. by split_and!.
Defined.

(** X25.  A request that prepareRequest assembles starts with the system
    message of the agent's instructions, followed by the history as it is;
    it never asks for parallel tool calls (the parameter is left unset or
    set to false) and leaves it unset when there are no tools; and a
    response format of a type other than text and json_schema, or of type
    json_schema without a schema format, is dropped without error. *)
Theorem prepareRequest_shape (E : Env) (ctx : Context) (agent : Agent)
    (config : RunConfig) (tools : list ToolParam) (history : list Message) (req : Request) :
  prepareRequest E ctx agent config tools history = inl req →
  Request_Messages req = SystemMessage (GetInstructions agent ctx) :: history
  ∧ Request_ParallelToolCalls req ≠ Some true
  ∧ (tools = [] → Request_Tools req = [] ∧ Request_ParallelToolCalls req = None)
  ∧ (tools ≠ [] → Request_Tools req = tools)
  ∧ (∀ rf, responseFormat_of agent config = Some rf →
       ResponseFormat_Type rf ≠ "text" →
       ResponseFormat_Type rf ≠ "json_schema" ∨ ResponseFormat_JSONSchema rf = None →
       Request_ResponseFormat req = None).
Proof.
  unfold prepareRequest, responseFormat_of.
  destruct (match RunConfig_ResponseFormat config with
            | Some rf => Some rf
            | None => Agent_ResponseFormat agent
            end) as [rf|];
    [destruct (String.eqb_spec (ResponseFormat_Type rf) "text") as [Htext|Hntext];
       [|destruct (String.eqb_spec (ResponseFormat_Type rf) "json_schema") as [Hjs|Hnjs];
          [destruct (ResponseFormat_JSONSchema rf) as [js|] eqn:Hfmt;
             [destruct (Schema_ToMap E (JSONSchemaFormat_Schema js)) as [schemaMap|e]|]|]]|];
    destruct tools as [|t ts]; cbn [length Nat.ltb Nat.leb];
    destruct (RunConfig_ParallelToolCalls config) as [[]|];
    destruct (Agent_ParallelToolCalls agent);
    intros [= <-]; cbn; split_and!; try done;
    intros rf0 [= <-] Hn [Hn'|Hn']; congruence.
Qed.

Lemma prepareRequest_shape_witness :
  ∃ req,
    prepareRequest handoff_env context_Background triage (with_format no_limits xml_format)
      (map ToParam (Agent_Tools triage)) hello = inl req
    ∧ Request_Messages req = SystemMessage DefaultInstructions :: hello
    ∧ Request_ResponseFormat req = None.
Proof.
  destruct (prepareRequest handoff_env context_Background triage
              (with_format no_limits xml_format) (map ToParam (Agent_Tools triage)) hello)
    as [req|e] eqn:Hreq; [|vm_compute in Hreq; discriminate Hreq].
  destruct (prepareRequest_shape _ _ _ _ _ _ _ Hreq) as (Hmsgs & _ & _ & _ & Hdrop).
  exists req. split_and!; [done | done |].
  apply (Hdrop xml_format); [reflexivity | discriminate | left; discriminate].
Defined.

(* ===================================================================== *)
(** ** guardrail/builtin *)
(* ===================================================================== *)

Lemma strings_HasSuffix_spec (s suffix : string) :
  strings_HasSuffix s suffix = true ↔ ∃ front, s = front +:+ suffix.
Proof.
  split.
  - induction s as [|c s IH]; cbn [strings_HasSuffix]; intros Hs.
    + apply orb_true_iff in Hs as [Hs | Hs]; [|done].
      apply String.eqb_eq in Hs as <-. by exists "".
    + apply orb_true_iff in Hs as [Hs | Hs].
      * apply String.eqb_eq in Hs as <-. by exists "".
      * destruct (IH Hs) as [front ->]. by exists (String c front).
  - intros [front ->]. induction front as [|c front IH].
    + change ("" +:+ suffix) with suffix.
      destruct suffix; cbn [strings_HasSuffix]; by rewrite String.eqb_refl.
    + change (String c front +:+ suffix) with (String c (front +:+ suffix)).
      cbn [strings_HasSuffix]. rewrite IH. apply orb_true_r.
Qed.

Lemma strings_HasPrefix_wildcard (pattern : string) :
  strings_HasPrefix pattern "*." = true
  ↔ ∃ suffix, pattern = "*." +:+ suffix
              ∧ String.substring 2 (String.length pattern - 2) pattern = suffix.
Proof.
  destruct pattern as [|a [|b suffix]]; cbn [strings_HasPrefix].
  - split; [done | intros (s & Hs & _); discriminate Hs].
  - rewrite andb_false_r. split; [done | intros (s & Hs & _); discriminate Hs].
  - destruct (Ascii.eqb_spec "*" a) as [<-|Ha]; cbn [andb].
    + destruct (Ascii.eqb_spec "." b) as [<-|Hb]; cbn [andb].
      * split; [|done]. intros _. exists suffix. split; [done|].
        cbn. rewrite Nat.sub_0_r. by apply substring_0_all.
      * split; [done|]. intros (s & Hs & _). injection Hs as Hb' _. by destruct Hb.
    + split; [done|]. intros (s & Hs & _). injection Hs as Ha' _. by destruct Ha.
Qed.

(** X26.  A host matches a pattern of the URL filter exactly when the two
    are equal, or the pattern is [*.] followed by a suffix and the host is
    that suffix itself or ends in a dot followed by the suffix.  So a
    wildcard pattern covers the bare domain as well as its subdomains, and a
    star anywhere else in a pattern is an ordinary character. *)
Theorem matchesPattern_spec (urlHost pattern : string) :
  matchesPattern urlHost pattern = true
  ↔ urlHost = pattern
    ∨ ∃ suffix, pattern = "*." +:+ suffix
                ∧ (urlHost = suffix ∨ ∃ sub, urlHost = sub +:+ "." +:+ suffix).
Proof.
  unfold matchesPattern.
  destruct (String.eqb_spec urlHost pattern) as [->|Hne]; [split; [by left | done]|].
  destruct (strings_HasPrefix pattern "*.") eqn:Hpre.
  - apply strings_HasPrefix_wildcard in Hpre as (suffix & -> & Hsub).
    rewrite Hsub, orb_true_iff, String.eqb_eq, strings_HasSuffix_spec. split.
    + intros Hm. right. by exists suffix.
    + intros [Heq | (suffix' & Hpat & Hm)]; [done|].
      assert (suffix' = suffix) as -> by (injection Hpat as Hs; exact (eq_sym Hs)).
      done.
  - split; [done|]. intros [Heq | (suffix & -> & _)]; [done|].
    assert (strings_HasPrefix ("*." +:+ suffix) "*." = true) as Hp; [|congruence].
    apply strings_HasPrefix_wildcard. exists suffix. split; [done|].
    change ("*." +:+ suffix) with (String "*" (String "." suffix)).
    cbn. rewrite Nat.sub_0_r. by apply substring_0_all.
Qed.

Section BuiltinFacts.
Context `{TextLibs}.

Lemma check_url_blocked (config : URLFilterConfig) (urls : list string)
    (acc : list string * list string) :
  (foldl (check_url config) acc urls).1
  = acc.1 ++ filter (λ u, is_Some (url_violation config u)) urls.
Proof.
  revert acc. induction urls as [|u urls IH]; intros acc; cbn [foldl].
  - by rewrite app_nil_r.
  - rewrite IH. unfold check_url.
    destruct (url_violation config u) as [v|] eqn:Hv.
    + rewrite filter_cons_True by (by rewrite Hv). cbn. by rewrite <- app_assoc.
    + rewrite filter_cons_False; [done|]. rewrite Hv. by intros [? ?].
Qed.

Lemma url_violation_None (config : URLFilterConfig) (u : string) :
  url_violation config u = None
  ↔ match URLFilterConfig_Allowlist config with
    | [] => matchesAnyPattern u (URLFilterConfig_Blocklist config) = false
    | _ => matchesAnyPattern u (URLFilterConfig_Allowlist config) = true
    end.
Proof.
  unfold url_violation.
  destruct (URLFilterConfig_Allowlist config) as [|a al]; cbn [length Nat.ltb Nat.leb].
  - destruct (URLFilterConfig_Blocklist config) as [|b bl]; cbn [length Nat.ltb Nat.leb];
      [done|].
    by destruct (matchesAnyPattern u (b :: bl)).
  - by destruct (matchesAnyPattern u (a :: al)).
Qed.

(** X27.  The URL filter never fails, and its verdict is this: the input
    passes exactly when every host found in it is acceptable, where, with
    an allowlist configured, a host is acceptable when it matches the
    allowlist (the blocklist is then not looked at), and otherwise when it
    does not match the blocklist.  The tripwire is triggered exactly when
    the input does not pass and the tripwire is configured. *)
Theorem URLFilter_verdict (opts : list URLFilterOption) (ctx : Context) (input : string) :
  let config := URLFilterConfig_of opts in
  ∃ result,
    Guardrail_Func (NewURLFilterGuardrail opts) ctx input = (Some result, None)
    ∧ (gr_Passed result = true
       ↔ ∀ u, u ∈ extractURLs input →
           match URLFilterConfig_Allowlist config with
           | [] => matchesAnyPattern u (URLFilterConfig_Blocklist config) = false
           | _ => matchesAnyPattern u (URLFilterConfig_Allowlist config) = true
           end)
    ∧ gr_TripwireTriggered result
      = URLFilterConfig_Tripwire config && negb (gr_Passed result).
Proof.
  intros config. unfold NewURLFilterGuardrail, NewGuardrail. cbn [Guardrail_Func].
  fold config.
  destruct (extractURLs input) as [|u0 urls] eqn:Hurls.
  - cbn. eexists. split; [done|]. cbn. split; [|by rewrite andb_false_r].
    split; [|done]. intros _ u Hu. by apply elem_of_nil in Hu.
  - change (length (u0 :: urls) =? 0)%nat with false. cbv iota.
    pose proof (check_url_blocked config (u0 :: urls) ([], [])) as Hblocked.
    destruct (foldl (check_url config) ([], []) (u0 :: urls)) as [blocked violations].
    cbn [fst app] in Hblocked. subst blocked.
    destruct (filter (λ u, is_Some (url_violation config u)) (u0 :: urls))
      as [|b bs] eqn:Hf; cbn [length Nat.ltb Nat.leb].
    + eexists. split; [done|]. cbn. split; [|by rewrite andb_false_r].
      split; [|done]. intros _ u Hu. apply url_violation_None.
      destruct (url_violation config u) as [v|] eqn:Hv; [|done].
      assert (u ∈ filter (λ u, is_Some (url_violation config u)) (u0 :: urls)) as Hin.
      { apply list_elem_of_filter. split; [by rewrite Hv | done]. }
      rewrite Hf in Hin. by apply elem_of_nil in Hin.
    + eexists. split; [done|]. cbn. split; [|by rewrite andb_true_r].
      split; [done|]. intros Hall. exfalso.
      assert (b ∈ filter (λ u, is_Some (url_violation config u)) (u0 :: urls)) as Hin.
      { rewrite Hf. by apply elem_of_cons; left. }
      apply list_elem_of_filter in Hin as [[v Hv] Hin].
      apply Hall, url_violation_None in Hin. congruence.
Qed.

Lemma detect_foldl (input : string) (patterns : list PIIPattern) (acc : list string) :
  foldl (λ detected pattern,
           if regexp_MatchString (PIIPattern_Pattern pattern) input
           then detected ++ [PIIPattern_Name pattern]
           else detected) acc patterns
  = acc ++ map PIIPattern_Name
             (filter (λ p, regexp_MatchString (PIIPattern_Pattern p) input = true) patterns).
Proof.
  revert acc. induction patterns as [|p ps IH]; intros acc; cbn [foldl].
  - by rewrite app_nil_r.
  - rewrite IH. destruct (regexp_MatchString (PIIPattern_Pattern p) input) eqn:Hm.
    + rewrite filter_cons_True by done. cbn. by rewrite <- app_assoc.
    + rewrite filter_cons_False; [done|]. by rewrite Hm.
Qed.

(** X28.  The PII guardrail never fails; the input passes exactly when none
    of the patterns in force matches it, the patterns in force being the
    enabled ones of email, phone, ssn and credit_card, in this order,
    followed by the custom patterns in the order they were added.  When it
    does not pass, the message lists the names of the matching patterns in
    that order, and the tripwire is triggered exactly when configured. *)
Theorem PIIGuardrail_verdict (opts : list PIIOption) (ctx : Context) (input : string) :
  let config := PIIConfig_of opts in
  let detected :=
    map PIIPattern_Name
      (filter (λ p, regexp_MatchString (PIIPattern_Pattern p) input = true)
         (PII_patterns config)) in
  ∃ result,
    Guardrail_Func (NewPIIGuardrail opts) ctx input = (Some result, None)
    ∧ (gr_Passed result = true
       ↔ ∀ p, p ∈ PII_patterns config →
           regexp_MatchString (PIIPattern_Pattern p) input = false)
    ∧ gr_TripwireTriggered result = PIIConfig_Tripwire config && negb (gr_Passed result)
    ∧ (gr_Passed result = false
       → gr_Message result = "Detected PII: " +:+ String.concat ", " detected).
Proof.
  intros config detected. unfold NewPIIGuardrail, NewGuardrail. cbn [Guardrail_Func].
  fold config. rewrite detect_foldl. cbn [app]. fold detected.
  assert (Hnone : detected = []
                  ↔ ∀ p, p ∈ PII_patterns config →
                      regexp_MatchString (PIIPattern_Pattern p) input = false).
  { unfold detected. split.
    - intros Hd p Hp. apply fmap_nil_inv in Hd.
      destruct (regexp_MatchString (PIIPattern_Pattern p) input) eqn:Hm; [|done].
      assert (p ∈ filter (λ p, regexp_MatchString (PIIPattern_Pattern p) input = true)
                    (PII_patterns config)) as Hin by (by apply list_elem_of_filter).
      rewrite Hd in Hin. by apply elem_of_nil in Hin.
    - intros Hall.
      destruct (filter _ (PII_patterns config)) as [|p ps] eqn:Hf; [done|]. exfalso.
      assert (p ∈ filter (λ p, regexp_MatchString (PIIPattern_Pattern p) input = true)
                    (PII_patterns config)) as Hin by (rewrite Hf; by apply elem_of_cons; left).
      apply list_elem_of_filter in Hin as [Hm Hin]. apply Hall in Hin. congruence. }
  destruct detected as [|d ds] eqn:Hd; cbn [length Nat.ltb Nat.leb].
  - eexists. split; [done|]. cbn. split_and!; [|by rewrite andb_false_r | done].
    split; [|done]. intros _. by apply Hnone.
  - eexists. split; [done|]. cbn. split_and!; [|by rewrite andb_true_r | done].
    split; [done|]. intros Hall. by apply Hnone in Hall.
Qed.

(** X29.  NewRegexGuardrail panics exactly when the pattern does not
    compile.  The guardrail it returns never fails; the input passes exactly
    when whether it matches the pattern agrees with MustMatch (so, without
    options, when it does not match), and the tripwire is triggered exactly
    when the input does not pass and the tripwire is configured. *)
Theorem RegexGuardrail_verdict (pattern : string) (opts : list RegexOption) :
  let config := RegexConfig_of pattern opts in
  match NewRegexGuardrail pattern opts with
  | Panic _ => regexp_compiles pattern = false
  | Done g =>
      regexp_compiles pattern = true
      ∧ ∀ ctx input, ∃ result,
          Guardrail_Func g ctx input = (Some result, None)
          ∧ gr_Passed result
            = Bool.eqb (RegexConfig_MustMatch config)
                (regexp_MatchString (RegexConfig_Pattern config) input)
          ∧ gr_TripwireTriggered result
            = RegexConfig_Tripwire config && negb (gr_Passed result)
  end.
Proof.
  intros config. unfold NewRegexGuardrail. fold config.
  destruct (regexp_compiles pattern); [|done].
  split; [done|]. intros ctx input. cbn [Guardrail_Func NewGuardrail].
  destruct (RegexConfig_MustMatch config),
    (regexp_MatchString (RegexConfig_Pattern config) input); cbn;
    eexists; (split; [done|]); cbn; split; try done;
    by rewrite ?andb_true_r, ?andb_false_r.
Qed.

Lemma URLFilter_tripwire (opts : list URLFilterOption) (ctx : Context) (input : string) :
  ∃ result,
    Guardrail_Func (NewURLFilterGuardrail opts) ctx input = (Some result, None)
    ∧ (gr_TripwireTriggered result = true
       → URLFilterConfig_Tripwire (URLFilterConfig_of opts) = true).
Proof.
  unfold NewURLFilterGuardrail, NewGuardrail. cbn [Guardrail_Func].
  destruct (length (extractURLs input) =? 0)%nat; [by eexists|].
  destruct (foldl _ _ _) as [blocked violations].
  destruct (0 <? length blocked)%nat; by eexists.
Qed.

Lemma PIIGuardrail_tripwire (opts : list PIIOption) (ctx : Context) (input : string) :
  ∃ result,
    Guardrail_Func (NewPIIGuardrail opts) ctx input = (Some result, None)
    ∧ (gr_TripwireTriggered result = true → PIIConfig_Tripwire (PIIConfig_of opts) = true).
Proof.
  unfold NewPIIGuardrail, NewGuardrail. cbn [Guardrail_Func].
  destruct (0 <? length _)%nat; by eexists.
Qed.

Lemma RegexGuardrail_tripwire (pattern : string) (opts : list RegexOption) (g : Guardrail)
    (ctx : Context) (input : string) :
  NewRegexGuardrail pattern opts = Done g →
  ∃ result,
    Guardrail_Func g ctx input = (Some result, None)
    ∧ (gr_TripwireTriggered result = true
       → RegexConfig_Tripwire (RegexConfig_of pattern opts) = true).
Proof.
  unfold NewRegexGuardrail. destruct (regexp_compiles pattern); [|done].
  intros [= <-]. cbn [Guardrail_Func NewGuardrail].
  destruct (negb _); by eexists.
Qed.

(** X30.  A builtin guardrail whose tripwire has been switched off by its
    last option never stops a run: whatever the payload and the other
    options, the guardrail runner passes a list of such guardrails. *)
Theorem advisory_builtins_never_stop
    (tripwire : string → string → guardrail_Result → error) (ctx : Context)
    (payload pattern : string) (uopts : list URLFilterOption) (popts : list PIIOption)
    (ropts : list RegexOption) (g : Guardrail) :
  NewRegexGuardrail pattern (ropts ++ [WithRegexTripwire false]) = Done g →
  runGuardrails tripwire ctx
    [NewURLFilterGuardrail (uopts ++ [WithURLTripwire false]);
     NewPIIGuardrail (popts ++ [WithTripwire false]); g] payload
  = Done None.
Proof.
  intros Hg.
  assert (Hpass : ∀ gr result, Guardrail_Func gr ctx payload = (Some result, None) →
                    gr_TripwireTriggered result = false →
                    ∀ rest, runGuardrails tripwire ctx (gr :: rest) payload
                            = runGuardrails tripwire ctx rest payload).
  { intros gr result Hf Ht rest. cbn. by rewrite Hf, Ht. }
  destruct (URLFilter_tripwire (uopts ++ [WithURLTripwire false]) ctx payload)
    as (r1 & Hr1 & Ht1).
  destruct (PIIGuardrail_tripwire (popts ++ [WithTripwire false]) ctx payload)
    as (r2 & Hr2 & Ht2).
  destruct (RegexGuardrail_tripwire _ _ _ ctx payload Hg) as (r3 & Hr3 & Ht3).
  unfold URLFilterConfig_of in Ht1. unfold PIIConfig_of in Ht2. unfold RegexConfig_of in Ht3.
  rewrite foldl_app in Ht1. rewrite foldl_app in Ht2. rewrite foldl_app in Ht3.
  cbn in Ht1, Ht2, Ht3.
  rewrite (Hpass _ _ Hr1), (Hpass _ _ Hr2), (Hpass _ _ Hr3); [done | ..].
  - destruct (gr_TripwireTriggered r3); [discriminate (Ht3 eq_refl) | done].
  - destruct (gr_TripwireTriggered r2); [discriminate (Ht2 eq_refl) | done].
  - destruct (gr_TripwireTriggered r1); [discriminate (Ht1 eq_refl) | done].
Qed.
End BuiltinFacts.

Lemma URLFilter_verdict_witness :
  ∃ result,
    Guardrail_Func
      (@NewURLFilterGuardrail example_TextLibs [WithBlocklist ["evil.com"; "*.bad.org"]])
      context_Background "Check sub.bad.org" = (Some result, None)
    ∧ gr_Passed result = false
    ∧ gr_TripwireTriggered result = true.
Proof.
  destruct (@URLFilter_verdict example_TextLibs [WithBlocklist ["evil.com"; "*.bad.org"]]
              context_Background "Check sub.bad.org") as (result & Hf & Hiff & Ht).
  exists result. split; [done|].
  assert (Hp : gr_Passed result = false).
  { destruct (gr_Passed result); [|done].
    pose proof (proj1 Hiff eq_refl "sub.bad.org") as Hall.
    vm_compute in Hall. apply Hall. repeat constructor. }
  split; [done|]. rewrite Ht, Hp. reflexivity.
Defined.

Lemma PIIGuardrail_verdict_witness :
  ∃ result,
    Guardrail_Func
      (@NewPIIGuardrail example_TextLibs
         [WithCustomPattern "secret" "hunter2"; WithTripwire false; WithCustomPattern "key" "is"])
      context_Background "my password is hunter2" = (Some result, None)
    ∧ gr_Message result = "Detected PII: secret, key"
    ∧ gr_TripwireTriggered result = false.
Proof.
  destruct (@PIIGuardrail_verdict example_TextLibs
              [WithCustomPattern "secret" "hunter2"; WithTripwire false;
               WithCustomPattern "key" "is"]
              context_Background "my password is hunter2")
    as (result & Hf & Hiff & Ht & Hm).
  exists result. split; [done|].
  assert (Hp : gr_Passed result = false).
  { destruct (gr_Passed result); [|done].
    pose proof (proj1 Hiff eq_refl (mkPIIPattern "secret" "hunter2")) as Hall.
    vm_compute in Hall. apply Hall. repeat constructor. }
  split; [by rewrite (Hm Hp) | by rewrite Ht].
Defined.

Lemma RegexGuardrail_verdict_witness :
  ∃ g result,
    @NewRegexGuardrail example_TextLibs "DROP TABLE" [] = Done g
    ∧ Guardrail_Func g context_Background "please DROP TABLE users" = (Some result, None)
    ∧ gr_Passed result = false
    ∧ gr_TripwireTriggered result = true.
Proof.
  pose proof (@RegexGuardrail_verdict example_TextLibs "DROP TABLE" []) as Hv.
  destruct (@NewRegexGuardrail example_TextLibs "DROP TABLE" []) as [g|why]; [|discriminate Hv].
  destruct Hv as [_ Hv].
  destruct (Hv context_Background "please DROP TABLE users") as (result & Hf & Hp & Ht).
  exists g, result. split_and!; [done | done | by rewrite Hp | by rewrite Ht, Hp].
Defined.

Lemma advisory_builtins_never_stop_witness :
  ∃ g,
    @NewRegexGuardrail example_TextLibs "password" [WithRegexTripwire false] = Done g
    ∧ runGuardrails InputGuardrailTripwireError context_Background
        [@NewURLFilterGuardrail example_TextLibs
           [WithBlocklist ["evil.com"]; WithURLTripwire false];
         @NewPIIGuardrail example_TextLibs
           [WithCustomPattern "secret" "hunter2"; WithTripwire false];
         g]
        "my password is hunter2 see evil.com"
      = Done None.
Proof.
  destruct (@NewRegexGuardrail example_TextLibs "password" [WithRegexTripwire false])
    as [g|why] eqn:Hg; [|vm_compute in Hg; discriminate Hg].
  exists g. split; [done|].
  apply (@advisory_builtins_never_stop example_TextLibs InputGuardrailTripwireError
           context_Background "my password is hunter2 see evil.com" "password"
           [WithBlocklist ["evil.com"]] [WithCustomPattern "secret" "hunter2"] [] g Hg).
Defined.
